(** * gqrx plotter: the numeric core of [src/qtgui/plotter.cpp]

    A shallow embedding of the data-reduction pipeline of [CPlotter]
    (bin aggregation, hold buffers, histogram splatting, IIR smoothing,
    peak detection, waterfall line engine, colormap table, dB-range setters)
    together with the properties the specification states about it.

    C++ [float] is IEEE 754 binary32 and [double]/[qreal] is binary64; both
    are modelled with the executable specification of the Standard Library
    ([SpecFloat]), round-to-nearest-even.  The code of the pipeline is written
    once over a small arithmetic interface ([Arith]); its binary32 instance is
    the program, its rational instance is the same code in exact arithmetic. *)

From Stdlib Require Import ZArith QArith Qabs Bool List Lia Lqa String Ascii.
From Stdlib Require Import Floats.SpecFloat.
Import ListNotations.

Set Implicit Arguments.
Open Scope Z_scope.

(** ** IEEE 754 formats *)

Module IEEE.

Definition INT_MIN : Z := - 2 ^ 31.
Definition INT_MAX : Z := 2 ^ 31 - 1.

Section Format.
  Variables prec emax : Z.

  (** [(float)i] and [(double)i]: an integer rounded to the format. *)
Definition of_Z (z : Z) : spec_float := binary_normalize prec emax z 0 false.

  (** A literal [num/den] whose numerator and denominator are exactly
      representable: the division rounds once, as the compiler does. *)
Definition literal (num den : Z) : spec_float :=
    SFdiv prec emax (of_Z num) (of_Z den).

  (** Conversion from a value of another format ([(float)d], [(double)f]). *)
Definition convert (x : spec_float) : spec_float :=
    match x with
    | S754_finite s m e => binary_round prec emax s m e
    | _ => x
    end.
End Format.

(** Truncation toward zero of a finite value. *)
Definition trunc (x : spec_float) : Z :=
  match x with
  | S754_finite s m e =>
      cond_Zopp s (match e with
                   | Z0 => Zpos m
                   | Zpos _ => Zpos m * 2 ^ e
                   | Zneg p => Zpos m / 2 ^ Zpos p
                   end)
  | _ => 0
  end.

(** [(int)x].  C++ leaves the conversion of a NaN, an infinity or a value
    outside the range of [int] undefined; x86-64's [cvttss2si]/[cvttsd2si]
    return the "integer indefinite" value [INT_MIN], which is what is
    written out here. *)
Definition to_int (x : spec_float) : Z :=
  match x with
  | S754_zero _ => 0
  | S754_finite _ _ _ =>
      let t := trunc x in
      if (INT_MIN <=? t) && (t <=? INT_MAX) then t else INT_MIN
  | _ => INT_MIN
  end.

Definition is_nan (x : spec_float) : bool :=
  match x with S754_nan => true | _ => false end.

(** [ceil] of a double, as an integer. *)
Definition ceil (x : spec_float) : Z :=
  match x with
  | S754_finite s m e =>
      match e with
      | Zneg p =>
          let q := Zpos m / 2 ^ Zpos p in
          let exact := Zpos m mod 2 ^ Zpos p =? 0 in
          if s then - q else if exact then q else q + 1
      | _ => trunc x
      end
  | _ => 0
  end.


End IEEE.

(** [float] *)
Module B32.
Definition prec : Z := 24.
Definition emax : Z := 128.
Definition add := SFadd prec emax.
Definition sub := SFsub prec emax.
Definition mul := SFmul prec emax.
Definition div := SFdiv prec emax.
Definition of_Z := IEEE.of_Z prec emax.
Definition literal := IEEE.literal prec emax.
Definition of_double := IEEE.convert prec emax.
  (** [std::numeric_limits<float>::min()], the least positive normal. *)
Definition flt_min : spec_float := S754_finite false 8388608 (-149).
End B32.

(** [double], [qreal] *)
Module B64.
Definition prec : Z := 53.
Definition emax : Z := 1024.
Definition add := SFadd prec emax.
Definition sub := SFsub prec emax.
Definition mul := SFmul prec emax.
Definition div := SFdiv prec emax.
Definition of_Z := IEEE.of_Z prec emax.
Definition literal := IEEE.literal prec emax.
Definition of_float := IEEE.convert prec emax.
End B64.

(** A literal of the source: the decimal is read as a [double] and narrowed
    where a [float] is wanted ([0.5f], [const float fmin = 1e-20]); every
    literal used here is exact in [double] or the quotient of two integers
    that are. *)
Definition float_literal (num den : Z) : spec_float :=
  B32.of_double (B64.literal num den).

(** ** The arithmetic the pipeline is written over *)

Class Arith (F : Type) : Type := {
  fadd : F -> F -> F;
  fsub : F -> F -> F;
  fmul : F -> F -> F;
  fdiv : F -> F -> F;
  fltb : F -> F -> bool;
  fleb : F -> F -> bool;
  feqb : F -> F -> bool;
  fabs : F -> F;
  (** [(float)i] *)
  of_int : Z -> F;
  (** [(int)x] *)
  to_int : F -> Z;
  (** a literal, [flit n d] standing for [n/d] *)
  flit : Z -> Z -> F;
  (** [std::numeric_limits<float>::min()] *)
  flt_min : F;
  is_nan : F -> bool
}.

Declare Scope flt_scope.
Delimit Scope flt_scope with fl.
Infix "+" := fadd : flt_scope.
Infix "-" := fsub : flt_scope.
Infix "*" := fmul : flt_scope.
Infix "/" := fdiv : flt_scope.
Infix "<?" := fltb : flt_scope.
Infix "<=?" := fleb : flt_scope.
Infix "=?" := feqb : flt_scope.

#[export] Instance binary32 : Arith spec_float := {
  fadd := B32.add;
  fsub := B32.sub;
  fmul := B32.mul;
  fdiv := B32.div;
  fltb := SFltb;
  fleb := SFleb;
  feqb := SFeqb;
  fabs := SFabs;
  of_int := B32.of_Z;
  to_int := IEEE.to_int;
  flit := float_literal;
  flt_min := B32.flt_min;
  is_nan := IEEE.is_nan
}.

(** Exact arithmetic: the rationals.  Division by zero does not occur in the
    statements made about this instance. *)
Definition Qtrunc (q : Q) : Z := Z.quot (Qnum q) (Zpos (Qden q)).

#[export] Instance exact : Arith Q := {
  fadd := Qplus;
  fsub := Qminus;
  fmul := Qmult;
  fdiv := Qdiv;
  fltb := fun a b => negb (Qle_bool b a);
  fleb := Qle_bool;
  feqb := Qeq_bool;
  fabs := Qabs;
  of_int := inject_Z;
  to_int := Qtrunc;
  flit := fun n d => Qmake n (Z.to_pos d);
  flt_min := Qmake 1 (2 ^ 126);
  is_nan := fun _ => false
}.

Section Generic.
  Context {F : Type} {A : Arith F}.

  (** [std::max(a, b)] is [(a < b) ? b : a], [std::min(a, b)] is
      [(b < a) ? b : a]. *)
Definition std_max (a b : F) : F := if (a <? b)%fl then b else a.
Definition std_min (a b : F) : F := if (b <? a)%fl then b else a.

  (** [qRound] (qnumeric.h): [d >= 0 ? int(d + 0.5) : int(d - 0.5)]. *)
Definition qRound (d : F) : Z :=
    if (of_int 0 <=? d)%fl then to_int (d + flit 1 2)%fl
    else to_int (d - flit 1 2)%fl.
End Generic.

(** [qRound(double)], the overload used on [qreal] geometry. *)
Definition qRound_d (d : spec_float) : Z :=
  if SFleb (B64.of_Z 0) d then IEEE.to_int (B64.add d (B64.literal 1 2))
  else IEEE.to_int (B64.sub d (B64.literal 1 2)).

(** ** Arrays and loops

    The fixed-size member arrays ([float m_wfMaxBuf[MAX_SCREENSIZE]], ...)
    and the [std::vector]s are maps from index to value; [MAX_SCREENSIZE] is
    declared in plotter.h.  [for_range lo hi body] is
    [for (i = lo; i < hi; i++) body]. *)

Definition upd {V : Type} (f : Z -> V) (i : Z) (v : V) : Z -> V :=
  fun j => if j =? i then v else f j.

Definition upd2 {V : Type} (f : Z -> Z -> V) (i j : Z) (v : V) : Z -> Z -> V :=
  fun i' j' => if (i' =? i) && (j' =? j) then v else f i' j'.

Fixpoint for_loop {S : Type} (n : nat) (i : Z) (body : Z -> S -> S) (s : S) : S :=
  match n with
  | O => s
  | Datatypes.S n' => for_loop n' (i + 1) body (body i s)
  end.

Definition for_range {S : Type} (lo hi : Z) (body : Z -> S -> S) (s : S) : S :=
  for_loop (Z.to_nat (hi - lo)) lo body s.

(** The values [a[lo], ..., a[hi-1]] of an array. *)
Definition slice {V : Type} (a : Z -> V) (lo hi : Z) : list V :=
  map a (map (fun k => lo + Z.of_nat k) (seq 0 (Z.to_nat (hi - lo)))).

(** The values [lo, ..., hi-1] a loop counter takes. *)
Definition indices (lo hi : Z) : list Z :=
  map (fun k => lo + Z.of_nat k) (seq 0 (Z.to_nat (hi - lo))).

(** ** Display modes (the enumerations of plotter.h) *)

Inductive ePlotMode : Set :=
  PLOT_MODE_MAX | PLOT_MODE_AVG | PLOT_MODE_FILLED | PLOT_MODE_HISTOGRAM.

Inductive eWaterfallMode : Set :=
  WATERFALL_MODE_MAX | WATERFALL_MODE_AVG | WATERFALL_MODE_SYNC.

Inductive ePlotScale : Set :=
  PLOT_SCALE_DBFS | PLOT_SCALE_DBV | PLOT_SCALE_DBMW50.

Definition ePlotMode_eqb (a b : ePlotMode) : bool :=
  match a, b with
  | PLOT_MODE_MAX, PLOT_MODE_MAX | PLOT_MODE_AVG, PLOT_MODE_AVG
  | PLOT_MODE_FILLED, PLOT_MODE_FILLED
  | PLOT_MODE_HISTOGRAM, PLOT_MODE_HISTOGRAM => true
  | _, _ => false
  end.

Definition eWaterfallMode_eqb (a b : eWaterfallMode) : bool :=
  match a, b with
  | WATERFALL_MODE_MAX, WATERFALL_MODE_MAX
  | WATERFALL_MODE_AVG, WATERFALL_MODE_AVG
  | WATERFALL_MODE_SYNC, WATERFALL_MODE_SYNC => true
  | _, _ => false
  end.

Definition ePlotScale_eqb (a b : ePlotScale) : bool :=
  match a, b with
  | PLOT_SCALE_DBFS, PLOT_SCALE_DBFS | PLOT_SCALE_DBV, PLOT_SCALE_DBV
  | PLOT_SCALE_DBMW50, PLOT_SCALE_DBMW50 => true
  | _, _ => false
  end.


(** ** dB-range setters ([out_of_range], [setPandapterRange],
       [setWaterfallRange]) *)

Module DbRange.
Section Model.
Context {F : Type} {A : Arith F}.




(** The fields the two setters assign.  [setPandapterRange] ends with
    [updateOverlay()], that is [m_DrawOverlay = true; draw(false)]; [draw]
    reads the four range fields and assigns none of them, so the state
    returned here is the one [draw] is entered with. *)
Record State : Type := {
  m_PandMindB : F;
  m_PandMaxdB : F;
  m_WfMindB : F;
  m_WfMaxdB : F;
  m_histIIRValid : bool;
  m_DrawOverlay : bool
}.



(** The rejection condition as the specification words it: a bound outside
    [FFT_MIN_DB, FFT_MAX_DB], or a span narrower than [FFT_MIN_DB_RANGE]. *)
Definition outside (v : F) : bool :=
  (v <? of_int (-160))%fl || (of_int 30 <? v)%fl.

Definition rejected (min max : F) : bool :=
  outside min || outside max || (max <? min + of_int 2)%fl.


End Model.
End DbRange.

(** ** Colormap table ([setWfColormap]) *)

Module Colormap.

(** [QColor]: [setRgb] stores the three channels when each lies in 0..255
    and invalidates the colour otherwise; [rgb()] is [0xffRRGGBB] (opaque
    black for an invalid colour). *)
Inductive QColor : Set :=
| Invalid
| Rgb (r g b : Z).

Definition setRgb (r g b : Z) : QColor :=
  if (0 <=? r) && (r <=? 255) && (0 <=? g) && (g <=? 255)
     && (0 <=? b) && (b <=? 255)
  then Rgb r g b else Invalid.

Definition rgb (c : QColor) : Z :=
  match c with
  | Invalid => 4278190080
  | Rgb r g b => 4278190080 + 65536 * r + 256 * g + b
  end.

(** [QString::compare(other, Qt::CaseInsensitive)] on names written in
    ASCII: both sides are case-folded and compared. *)
Definition fold_ascii (c : ascii) : ascii :=
  let n := nat_of_ascii c in
  if (Nat.leb 65 n && Nat.leb n 90)%bool then ascii_of_nat (n + 32) else c.

Fixpoint fold_case (s : string) : string :=
  match s with
  | EmptyString => EmptyString
  | String c s' => String (fold_ascii c) (fold_case s')
  end.

Definition compare_CaseInsensitive (a b : string) : Z :=
  match String.compare (fold_case a) (fold_case b) with
  | Eq => 0
  | Lt => -1
  | Gt => 1
  end.

Definition is_name (cmap name : string) : bool :=
  compare_CaseInsensitive cmap name =? 0.

Section Model.
(** The embedded tables of plotter.cpp: [unsigned char turbo[256][3]],
    [plasma], and the [float] tables [viridis], [magma], [grape], [inferno].
    The statements made below hold whatever the tables contain, so the
    tables are taken as they stand, as maps from a row and a channel. *)
Variables turbo plasma : Z -> Z -> Z.
Variables viridis magma grape inferno : Z -> Z -> spec_float.

(** The body of the "gqrx" loop: one [if]/[else if] chain per index. *)
Definition gqrx_body (i : Z) (t : Z -> QColor) : Z -> QColor :=
  if i <? 20 then upd t i (setRgb 0 0 0)
  else if (20 <=? i) && (i <? 70) then
    upd t i (setRgb 0 0 (Z.quot (140 * (i - 20)) 50))
  else if (70 <=? i) && (i <? 100) then
    upd t i (setRgb (Z.quot (60 * (i - 70)) 30) (Z.quot (125 * (i - 70)) 30)
                    (Z.quot (115 * (i - 70)) 30 + 140))
  else if (100 <=? i) && (i <? 150) then
    upd t i (setRgb (Z.quot (195 * (i - 100)) 50 + 60)
                    (Z.quot (130 * (i - 100)) 50 + 125)
                    (255 - Z.quot (255 * (i - 100)) 50))
  else if (150 <=? i) && (i <? 250) then
    upd t i (setRgb 255 (255 - Z.quot (255 * (i - 150)) 100) 0)
  else if 250 <=? i then
    upd t i (setRgb 255 (Z.quot (255 * (i - 250)) 5) (Z.quot (255 * (i - 250)) 5))
  else t.

(** [table[i][c] * 256] passed to [setRgb(int, int, int)]. *)
Definition scaled (t : Z -> Z -> spec_float) (i c : Z) : Z :=
  to_int (t i c * of_int 256)%fl.

(** [for (i = 0; i < 256; i++) m_ColorTbl[i].setRgb(...)] *)
Definition fill (entry : Z -> QColor) (tbl : Z -> QColor) : Z -> QColor :=
  for_range 0 256 (fun i t => upd t i (entry i)) tbl.

Definition setWfColormap (m_ColorTbl : Z -> QColor) (cmap : string)
  : Z -> QColor :=
  if is_name cmap "gqrx" then for_range 0 256 gqrx_body m_ColorTbl
  else if is_name cmap "turbo" then
    fill (fun i => setRgb (turbo i 0) (turbo i 1) (turbo i 2)) m_ColorTbl
  else if is_name cmap "plasma" then
    fill (fun i => setRgb (plasma i 0) (plasma i 1) (plasma i 2)) m_ColorTbl
  else if is_name cmap "whitehotcompressed" then
    fill (fun i => if i <? 64 then setRgb (i * 4) (i * 4) (i * 4)
                   else setRgb 255 255 255) m_ColorTbl
  else if is_name cmap "whitehot" then
    fill (fun i => setRgb i i i) m_ColorTbl
  else if is_name cmap "blackhot" then
    fill (fun i => setRgb (255 - i) (255 - i) (255 - i)) m_ColorTbl
  else if is_name cmap "viridis" then
    fill (fun i => setRgb (scaled viridis i 0) (scaled viridis i 1)
                          (scaled viridis i 2)) m_ColorTbl
  else if is_name cmap "magma" then
    fill (fun i => setRgb (scaled magma i 0) (scaled magma i 1)
                          (scaled magma i 2)) m_ColorTbl
  else if is_name cmap "inferno" then
    fill (fun i => setRgb (scaled inferno i 0) (scaled inferno i 1)
                          (scaled inferno i 2)) m_ColorTbl
  else if is_name cmap "grape" then
    fill (fun i => setRgb (scaled grape i 0) (scaled grape i 1)
                          (scaled grape i 2)) m_ColorTbl
  else m_ColorTbl.

End Model.

(** The schemes the specification lists. *)
Definition scheme_names : list string :=
  ["gqrx"; "turbo"; "plasma"; "whitehotcompressed"; "whitehot"; "blackhot";
   "viridis"; "magma"; "inferno"; "grape"]%string.

(** [cmap] is one of them, case-insensitively. *)
Definition recognized (cmap : string) : bool :=
  existsb (fun n => String.eqb (fold_case cmap) n) scheme_names.

End Colormap.

(** ** New FFT data: scaling, flooring and the IIR ([setNewFftData]) *)

Module FftData.
Section Model.
Context {F : Type} {A : Arith F}.
(** [powf] of libm, as volk's generic [volk_32f_s32f_power_32f] calls it. *)
Variable powf : F -> F -> F.

Record State : Type := {
  m_fftData : Z -> F;
  m_fftIIR : Z -> F;
  m_X : Z -> F;
  m_fftDataSize : Z;
  m_IIRValid : bool;
  m_MaxHoldValid : bool;
  m_MinHoldValid : bool;
  m_histIIRValid : bool;
  m_histMaxIIR : F
}.

(** What [setNewFftData] reads and does not assign. *)
Record Settings : Type := {
  m_PlotScale : ePlotScale;
  m_PlotPerHz : bool;
  m_SampleFreq : F;
  m_alpha : F;
  fft_rate : Z
}.

(** [std::vector<float>::resize]: elements added are zero. *)
Definition resize (v : Z -> F) (old new : Z) : Z -> F :=
  fun i => if (old <=? i) && (i <? new) then of_int 0 else v i.

(** [if (size != m_fftDataSize) { ... }].  The zoom adjustment that follows
    the reallocation ([zoomStepX]) changes the view and the hold and
    histogram flags already cleared here, none of the fields below. *)
Definition reallocate (st : State) (size : Z) : State :=
  if size =? m_fftDataSize st then st
  else {| m_fftData := resize (m_fftData st) (m_fftDataSize st) size;
          m_fftIIR := resize (m_fftIIR st) (m_fftDataSize st) size;
          m_X := resize (m_X st) (m_fftDataSize st) size;
          m_fftDataSize := size;
          m_IIRValid := false;
          m_MaxHoldValid := false;
          m_MinHoldValid := false;
          m_histIIRValid := false;
          m_histMaxIIR := flt_min |}.

Definition pwr_scale (cfg : Settings) (size : Z) : F :=
  let s0 := (of_int 1 / (of_int size * of_int size))%fl in
  let s1 :=
    match m_PlotScale cfg with
    | PLOT_SCALE_DBV => (s0 * (of_int 1 / of_int 2))%fl
    | PLOT_SCALE_DBMW50 => (s0 * (of_int 1000 / (of_int 2 * of_int 50)))%fl
    | PLOT_SCALE_DBFS => s0
    end in
  if m_PlotPerHz cfg && negb (ePlotScale_eqb (m_PlotScale cfg) PLOT_SCALE_DBFS)
  then (s1 * (of_int size / m_SampleFreq cfg))%fl
  else s1.

(** [const float fmin = 1e-20] *)
Definition fmin : F := flit 1 (10 ^ 20).

(** The scaled-and-floored frame:
    [m_fftData[i] = std::max(fftData[i] * pwr_scale, fmin)]. *)
Definition scaled_floored (cfg : Settings) (fftData : Z -> F) (size : Z) (i : Z) : F :=
  std_max (fftData i * pwr_scale cfg size)%fl fmin.

Definition store_frame (cfg : Settings) (fftData : Z -> F) (size : Z)
  (m : Z -> F) : Z -> F :=
  for_range 0 size (fun i m => upd m i (scaled_floored cfg fftData size i)) m.

(** The smoothing exponent: [a = powf(powf(fft_rate, -1.75f * (1 - alpha)), 0.7)]. *)
Definition smoothing (cfg : Settings) : F :=
  let _a := powf (of_int (fft_rate cfg))
                 (flit (-7) 4 * (of_int 1 - m_alpha cfg))%fl in
  powf _a (flit 7 10).

(** volk kernels, element by element. *)
Definition volk_32f_x2_divide_32f (c a b : Z -> F) (n : Z) : Z -> F :=
  for_range 0 n (fun i c => upd c i (a i / b i)%fl) c.

Definition volk_32f_s32f_power_32f (c a : Z -> F) (power : F) (n : Z) : Z -> F :=
  for_range 0 n (fun i c => upd c i (powf (a i) power)) c.

Definition volk_32f_x2_multiply_32f (c a b : Z -> F) (n : Z) : Z -> F :=
  for_range 0 n (fun i c => upd c i (a i * b i)%fl) c.

(** [memcpy(dst, src, n * sizeof(float))] *)
Definition memcpy (dst src : Z -> F) (n : Z) : Z -> F :=
  for_range 0 n (fun i d => upd d i (src i)) dst.

(** The recursive update taken on its own: the three kernels in a row. *)
Definition multiplicative_update (x data iir : Z -> F) (a : F) (size : Z)
  : (Z -> F) * (Z -> F) :=
  let x1 := volk_32f_x2_divide_32f x data iir size in
  let x2 := volk_32f_s32f_power_32f x1 x1 a size in
  (x2, volk_32f_x2_multiply_32f iir iir x2 size).

(** [setNewFftData(fftData, size)], up to its final [draw(true)], which
    assigns none of these fields but the hold and histogram flags. *)
Definition setNewFftData (cfg : Settings) (st : State) (fftData : Z -> F)
  (size : Z) : State :=
  let st1 := reallocate st size in
  let data := store_frame cfg fftData size (m_fftData st1) in
  let a := smoothing cfg in
  let needIIR := m_IIRValid st1 && negb (a =? of_int 1)%fl in
  let '(x, iir) :=
    if needIIR then multiplicative_update (m_X st1) data (m_fftIIR st1) a size
    else (m_X st1, memcpy (m_fftIIR st1) data size) in
  {| m_fftData := data;
     m_fftIIR := iir;
     m_X := x;
     m_fftDataSize := m_fftDataSize st1;
     m_IIRValid := true;
     m_MaxHoldValid := m_MaxHoldValid st1;
     m_MinHoldValid := m_MinHoldValid st1;
     m_histIIRValid := m_histIIRValid st1;
     m_histMaxIIR := m_histMaxIIR st1 |}.

(** The same frame delivered [n] times in a row. *)
Fixpoint feed (cfg : Settings) (fftData : Z -> F) (size : Z) (n : nat)
  (st : State) : State :=
  match n with
  | O => st
  | S n' => feed cfg fftData size n' (setNewFftData cfg st fftData size)
  end.

End Model.
End FftData.

(** ** Bin aggregation, hold buffers and histogram splatting ([draw]) *)

Module Aggregator.
Section Model.
Context {F : Type} {A : Arith F}.
(** [log10f] of libm. *)
Variable log10f : F -> F.

(** The per-column buffers, the histogram grid and the hold flags. *)
Record Bufs : Type := {
  m_wfMaxBuf : Z -> F;
  m_wfAvgBuf : Z -> F;
  m_fftMaxBuf : Z -> F;
  m_fftAvgBuf : Z -> F;
  m_fftMaxHoldBuf : Z -> F;
  m_fftMinHoldBuf : Z -> F;
  m_histogram : Z -> Z -> F;
  m_MaxHoldValid : bool;
  m_MinHoldValid : bool
}.

(** What an aggregation pass reads: the two spectra, the plot mode and the
    locals [draw] computes before the pass ([xScale] and [startBinD] are
    the [double]s of [draw] after their casts to [float]). *)
Record Frame : Type := {
  m_fftData : Z -> F;
  m_fftIIR : Z -> F;
  m_PlotMode : ePlotMode;
  m_PandMaxdB : F;
  xScale : F;
  startBinD : F;
  startBin : Z;
  numBins : Z;
  minbin : Z;
  maxbin : Z;
  xmin : Z;
  xmax : Z;
  doHistogram : bool;
  histBinsDisplayed : Z;
  histWeight : F;
  histdBGainFactor : F
}.

(** Peak means "peak of average" in AVG mode, else "peak of max";
    min means "min of peak" in MAX mode, else "min of average". *)
Definition peakIsAverage (fr : Frame) : bool :=
  ePlotMode_eqb (m_PlotMode fr) PLOT_MODE_AVG.
Definition minIsAverage (fr : Frame) : bool :=
  negb (ePlotMode_eqb (m_PlotMode fr) PLOT_MODE_MAX).

(** *** Histogram increments *)

Definition binD_of (fr : Frame) (v : F) : F :=
  (histdBGainFactor fr * (m_PandMaxdB fr - of_int 10 * log10f v))%fl.

(** [binD > 0.0f && binD < (float)histBinsDisplayed] *)
Definition hist_in_range (fr : Frame) (binD : F) : bool :=
  (of_int 0 <? binD)%fl && (binD <? of_int (histBinsDisplayed fr))%fl.

Definition binLow_of (fr : Frame) (binD : F) : Z :=
  Z.min (Z.max (to_int (binD - flit 1 2)%fl) 0) (histBinsDisplayed fr - 1).
Definition binHigh_of (fr : Frame) (binD : F) : Z :=
  Z.min (binLow_of fr binD + 1) (histBinsDisplayed fr - 1).
Definition binLeft_of (xD : F) : Z :=
  Z.max (to_int (xD - flit 1 2)%fl) 0.
Definition binRight_of (fr : Frame) (xD : F) : Z :=
  Z.min (binLeft_of xD + 1) (numBins fr - 1).

(** One [+=] on a cell: column, vertical bin, weight. *)
Definition Incr : Type := (Z * Z * F)%type.

(** The four [+=] of the oversampled branch for a sample [v] at [xD]. *)
Definition splat4 (fr : Frame) (xD v : F) : list Incr :=
  let binD := binD_of fr v in
  if hist_in_range fr binD then
    let binLeft := binLeft_of xD in
    let binRight := binRight_of fr xD in
    let binLow := binLow_of fr binD in
    let binHigh := binHigh_of fr binD in
    let wgtH := ((xD - of_int binLeft) / of_int 2)%fl in
    let wgtV := ((binD - of_int binLow) / of_int 2)%fl in
    [ (binLeft, binLow, ((of_int 1 - wgtV) * (of_int 1 - wgtH) * histWeight fr)%fl);
      (binLeft, binHigh, (wgtV * (of_int 1 - wgtH) * histWeight fr)%fl);
      (binRight, binLow, ((of_int 1 - wgtV) * wgtH * histWeight fr)%fl);
      (binRight, binHigh, (wgtV * wgtH * histWeight fr)%fl) ]
  else [].

(** The two [+=] of the undersampled branch for column [i]. *)
Definition splat2 (fr : Frame) (i : Z) (v : F) : list Incr :=
  let binD := binD_of fr v in
  if hist_in_range fr binD then
    let binLow := binLow_of fr binD in
    let binHigh := binHigh_of fr binD in
    let wgt := ((binD - of_int binLow) / of_int 2)%fl in
    [ (i, binLow, ((of_int 1 - wgt) * histWeight fr)%fl);
      (i, binHigh, (wgt * histWeight fr)%fl) ]
  else [].

Definition add_incr (h : Z -> Z -> F) (inc : Incr) : Z -> Z -> F :=
  let '(c, b, wgt) := inc in upd2 h c b (h c b + wgt)%fl.

Definition add_incrs (h : Z -> Z -> F) (incs : list Incr) : Z -> Z -> F :=
  fold_left add_incr incs h.

Definition with_histogram (b : Bufs) (h : Z -> Z -> F) : Bufs :=
  {| m_wfMaxBuf := m_wfMaxBuf b;
     m_wfAvgBuf := m_wfAvgBuf b;
     m_fftMaxBuf := m_fftMaxBuf b;
     m_fftAvgBuf := m_fftAvgBuf b;
     m_fftMaxHoldBuf := m_fftMaxHoldBuf b;
     m_fftMinHoldBuf := m_fftMinHoldBuf b;
     m_histogram := h;
     m_MaxHoldValid := m_MaxHoldValid b;
     m_MinHoldValid := m_MinHoldValid b |}.

Definition with_valid (b : Bufs) (maxValid minValid : bool) : Bufs :=
  {| m_wfMaxBuf := m_wfMaxBuf b;
     m_wfAvgBuf := m_wfAvgBuf b;
     m_fftMaxBuf := m_fftMaxBuf b;
     m_fftAvgBuf := m_fftAvgBuf b;
     m_fftMaxHoldBuf := m_fftMaxHoldBuf b;
     m_fftMinHoldBuf := m_fftMinHoldBuf b;
     m_histogram := m_histogram b;
     m_MaxHoldValid := maxValid;
     m_MinHoldValid := minValid |}.

(** Writing one column: the four statistics and the two hold updates
    ("new peak hold value if greater, or reset"). *)
Definition write_column (b : Bufs) (x : Z)
  (wfMax wfAvg fftMax fftAvg newPeak newMin : F) : Bufs :=
  let currentPeak := m_fftMaxHoldBuf b x in
  let currentMin := m_fftMinHoldBuf b x in
  {| m_wfMaxBuf := upd (m_wfMaxBuf b) x wfMax;
     m_wfAvgBuf := upd (m_wfAvgBuf b) x wfAvg;
     m_fftMaxBuf := upd (m_fftMaxBuf b) x fftMax;
     m_fftAvgBuf := upd (m_fftAvgBuf b) x fftAvg;
     m_fftMaxHoldBuf :=
       upd (m_fftMaxHoldBuf b) x
           (if m_MaxHoldValid b then std_max currentPeak newPeak else newPeak);
     m_fftMinHoldBuf :=
       upd (m_fftMinHoldBuf b) x
           (if m_MinHoldValid b then std_min currentMin newMin else newMin);
     m_histogram := m_histogram b;
     m_MaxHoldValid := m_MaxHoldValid b;
     m_MinHoldValid := m_MinHoldValid b |}.

(** *** More bins than pixels: [(qreal)numBins >= w] *)

(** The loop's running statistics. *)
Record Acc : Type := {
  vmax : F;
  vmaxIIR : F;
  vsum : F;
  vsumIIR : F;
  count : Z;
  xprev : Z;
  first : bool
}.

(** The pixel column of bin [i]: [qRound((float)(i - startBin) * (float)xScale)]. *)
Definition xD_of (fr : Frame) (i : Z) : F :=
  (of_int (i - startBin fr) * xScale fr)%fl.
Definition column_of (fr : Frame) (i : Z) : Z := qRound (xD_of fr i).

(** "New (or last) pixel - output values" *)
Definition flush (fr : Frame) (b : Bufs) (a : Acc) : Bufs :=
  let vmax' := std_max (vmax a) flt_min in
  let vmaxIIR' := std_max (vmaxIIR a) flt_min in
  let vavg := std_max (vsum a / of_int (count a))%fl flt_min in
  let vavgIIR := std_max (vsumIIR a / of_int (count a))%fl flt_min in
  let newPeak := if peakIsAverage fr then vavgIIR else vmaxIIR' in
  let newMin := if minIsAverage fr then vavgIIR else vmaxIIR' in
  write_column b (xprev a) vmax' vavg vmaxIIR' vavgIIR newPeak newMin.

(** [if (first) { vmax = v; vmaxIIR = viir; vsum = v; vsumIIR = viir;
    count = 1; }] *)
Definition started (fr : Frame) (i : Z) (a0 : Acc) : Acc :=
  if first a0 then
    {| vmax := m_fftData fr i; vmaxIIR := m_fftIIR fr i;
       vsum := m_fftData fr i; vsumIIR := m_fftIIR fr i; count := 1;
       xprev := xprev a0; first := true |}
  else a0.

Definition over_body (fr : Frame) (i : Z) (s : Acc * Bufs) : Acc * Bufs :=
  let '(a0, b0) := s in
  let xD := xD_of fr i in
  let x := qRound xD in
  let v := m_fftData fr i in
  let viir := m_fftIIR fr i in
  let a := started fr i a0 in
  let b :=
    if doHistogram fr
    then with_histogram b0 (add_incrs (m_histogram b0) (splat4 fr xD v))
    else b0 in
  if negb (x =? xprev a) || (i =? maxbin fr) then
    ({| vmax := v; vmaxIIR := viir; vsum := v; vsumIIR := viir; count := 1;
        xprev := x; first := false |},
     flush fr b a)
  else if negb (first a) then
    ({| vmax := std_max v (vmax a);
        vmaxIIR := std_max viir (vmaxIIR a);
        vsum := (vsum a + v)%fl;
        vsumIIR := (vsumIIR a + viir)%fl;
        count := count a + 1;
        xprev := xprev a; first := false |},
     b)
  else
    ({| vmax := vmax a; vmaxIIR := vmaxIIR a; vsum := vsum a;
        vsumIIR := vsumIIR a; count := count a;
        xprev := xprev a; first := false |},
     b).

(** The locals are read only after the first iteration has set them. *)
Definition acc0 (fr : Frame) : Acc :=
  {| vmax := of_int 0; vmaxIIR := of_int 0; vsum := of_int 0;
     vsumIIR := of_int 0; count := 0; xprev := xmin fr; first := true |}.

Definition aggregate_over (fr : Frame) (b : Bufs) : Bufs :=
  let '(_, b') := for_range (minbin fr) (maxbin fr + 1) (over_body fr) (acc0 fr, b) in
  with_valid b' true true.

(** *** Fewer bins than pixels: nearest bin, no averaging *)

Definition nearest_bin (fr : Frame) (i : Z) : Z :=
  qRound (of_int i / xScale fr + startBinD fr)%fl.

Definition under_body (fr : Frame) (i : Z) (b0 : Bufs) : Bufs :=
  let j := nearest_bin fr i in
  let v := m_fftData fr j in
  let viir := m_fftIIR fr j in
  let b := write_column b0 i v v viir viir viir viir in
  if doHistogram fr
  then with_histogram b (add_incrs (m_histogram b) (splat2 fr i v))
  else b.

Definition aggregate_under (fr : Frame) (b : Bufs) : Bufs :=
  for_range (xmin fr) (xmax fr) (under_body fr) b.

(** "Initialize results": [if (doHistogram) memset(m_histogram, 0, ...)]. *)
Definition clear_histogram (fr : Frame) (b : Bufs) : Bufs :=
  if doHistogram fr then with_histogram b (fun _ _ => of_int 0) else b.

(** The aggregation stage of [draw]; [oversampled] is [(qreal)numBins >= w]. *)
Definition aggregate (oversampled : bool) (fr : Frame) (b : Bufs) : Bufs :=
  if oversampled then aggregate_over fr (clear_histogram fr b)
  else aggregate_under fr (clear_histogram fr b).

(** The hold traces of the plot: drawing one marks its buffer valid. *)
Definition draw_holds (drawPlotter m_MaxHoldActive m_MinHoldActive : bool)
  (b : Bufs) : Bufs :=
  if drawPlotter then
    with_valid b (m_MaxHoldActive || m_MaxHoldValid b)
                 (m_MinHoldActive || m_MinHoldValid b)
  else b.

(** *** The increments of a whole pass *)





(** *** The declarative reading of a column's statistics *)

(** The maximum and the sum of a run of samples, as the loop folds them. *)
Definition run_max (v0 : F) (vs : list F) : F :=
  fold_left (fun m v => std_max v m) vs v0.
Definition run_sum (v0 : F) (vs : list F) : F :=
  fold_left (fun s v => (s + v)%fl) vs v0.

(** The bins of [minbin, maxbin) mapped to column [c] are exactly [a..b]. *)
Definition column_bins (fr : Frame) (c a b : Z) : Prop :=
  minbin fr <= a /\ a <= b /\ b < maxbin fr /\
  forall i, minbin fr <= i < maxbin fr -> (column_of fr i = c <-> a <= i <= b).

(** The six per-column values side by side. *)
Definition column (b : Bufs) (x : Z) : F * F * F * F * F * F :=
  (m_wfMaxBuf b x, m_wfAvgBuf b x, m_fftMaxBuf b x, m_fftAvgBuf b x,
   m_fftMaxHoldBuf b x, m_fftMinHoldBuf b x).

(** The hold rule: reset to the reference value while the buffer is marked
    invalid, running maximum (minimum) against it once valid. *)
Definition hold_max (valid : bool) (old ref : F) : F :=
  if valid then std_max old ref else ref.
Definition hold_min (valid : bool) (old ref : F) : F :=
  if valid then std_min old ref else ref.

(** The reference values of the mode rule. *)
Definition peak_reference (mode : ePlotMode) (iirMax iirAvg : F) : F :=
  match mode with
  | PLOT_MODE_AVG => iirAvg
  | _ => iirMax
  end.
Definition min_reference (mode : ePlotMode) (iirMax iirAvg : F) : F :=
  match mode with
  | PLOT_MODE_MAX => iirMax
  | _ => iirAvg
  end.

Definition col_max (d : Z -> F) (a b : Z) : F :=
  std_max (run_max (d a) (slice d (a + 1) (b + 1))) flt_min.
Definition col_avg (d : Z -> F) (a b : Z) : F :=
  std_max (run_sum (d a) (slice d (a + 1) (b + 1)) / of_int (b - a + 1))%fl flt_min.

(** The running statistics once the bins [a..k], all of column [c], have
    been folded. *)
Definition run_acc (fr : Frame) (c a k : Z) : Acc :=
  {| vmax := run_max (m_fftData fr a) (slice (m_fftData fr) (a + 1) (k + 1));
     vmaxIIR := run_max (m_fftIIR fr a) (slice (m_fftIIR fr) (a + 1) (k + 1));
     vsum := run_sum (m_fftData fr a) (slice (m_fftData fr) (a + 1) (k + 1));
     vsumIIR := run_sum (m_fftIIR fr a) (slice (m_fftIIR fr) (a + 1) (k + 1));
     count := k - a + 1;
     xprev := c;
     first := false |}.

(** What the pass leaves in a column whose bins are [a..b]; [b0] holds the
    buffers the pass started from. *)
Definition run_column (fr : Frame) (b0 : Bufs) (c a b : Z)
  : F * F * F * F * F * F :=
  let iirMax := col_max (m_fftIIR fr) a b in
  let iirAvg := col_avg (m_fftIIR fr) a b in
  (col_max (m_fftData fr) a b, col_avg (m_fftData fr) a b, iirMax, iirAvg,
   hold_max (m_MaxHoldValid b0) (m_fftMaxHoldBuf b0 c)
            (peak_reference (m_PlotMode fr) iirMax iirAvg),
   hold_min (m_MinHoldValid b0) (m_fftMinHoldBuf b0 c)
            (min_reference (m_PlotMode fr) iirMax iirAvg)).

(** The first bin falls in the column the loop starts from, or [c] is
    another column: the opening flush does not touch [c]. *)
Definition clean_start (fr : Frame) (c : Z) : Prop :=
  column_of fr (minbin fr) = xmin fr \/ c <> xmin fr.

(** The state of the oversampled loop on entering iteration [i], for a
    column [c] whose bins are [a..b]: the invariant of the pass. *)
Definition over_inv (fr : Frame) (b0 : Bufs) (c a b : Z) (i : Z)
  (s : Acc * Bufs) : Prop :=
  let '(acc, bufs) := s in
  (m_MaxHoldValid bufs = m_MaxHoldValid b0 /\
   m_MinHoldValid bufs = m_MinHoldValid b0) /\
  (i = minbin fr -> acc = acc0 fr) /\
  (minbin fr < i -> first acc = false /\
                    (i <= maxbin fr -> xprev acc = column_of fr (i - 1))) /\
  (i <= b + 1 -> clean_start fr c -> column bufs c = column b0 c) /\
  (a < i <= b + 1 -> acc = run_acc fr c a (i - 1)) /\
  (b + 1 < i ->
   exists h1 h2,
     column bufs c =
       (col_max (m_fftData fr) a b, col_avg (m_fftData fr) a b,
        col_max (m_fftIIR fr) a b, col_avg (m_fftIIR fr) a b, h1, h2) /\
     (clean_start fr c -> column bufs c = run_column fr b0 c a b)).

(** [M] is the greatest of the values [vs]: one of them, and none above. *)
Definition is_max_of (M : F) (vs : list F) : Prop :=
  In M vs /\ forall v, In v vs -> (v <=? M)%fl = true.

(** A decision procedure for [column_bins] on a concrete frame. *)
Definition column_bins_check (fr : Frame) (c a b : Z) : bool :=
  (minbin fr <=? a) && (a <=? b) && (b <? maxbin fr)
  && forallb (fun i => Bool.eqb (column_of fr i =? c) ((a <=? i) && (i <=? b)))
             (map (fun k => minbin fr + Z.of_nat k)
                  (seq 0 (Z.to_nat (maxbin fr - minbin fr)))).

End Model.
End Aggregator.

(** ** The geometry of [draw]: bins, columns and the regime *)

Module Draw.

(** [ceil] on a [double]. *)
Definition ceil_d (x : spec_float) : spec_float :=
  match x with
  | S754_finite _ _ (Zneg _) => B64.of_Z (IEEE.ceil x)
  | _ => x
  end.

(** The fields [draw] reads to lay the bins out on the screen.  plotter.h
    declares them; the casts of plotter.cpp show [m_SampleFreq] to be a
    floating-point field and the others integers.  [w] is
    [m_Size.width() * m_DPR], a [qreal]. *)
Record View : Type := {
  m_fftDataSize : Z;
  m_SampleFreq : spec_float;
  m_FftCenter : Z;
  m_Span : Z;
  w : spec_float
}.

Definition fftSize (v : View) : spec_float := B64.of_Z (m_fftDataSize v).
Definition sampleFreq (v : View) : spec_float := B64.of_float (m_SampleFreq v).
Definition fftCenter (v : View) : spec_float := B64.of_Z (m_FftCenter v).
Definition span (v : View) : spec_float := B64.of_Z (m_Span v).
Definition startFreq (v : View) : spec_float :=
  B64.sub (fftCenter v) (B64.div (span v) (B64.of_Z 2)).
Definition binsPerHz (v : View) : spec_float :=
  B64.div (fftSize v) (sampleFreq v).

(** "Scale factor for x -> fft bin (pixels per bin)":
    [sampleFreq * w / fftSize / span]. *)
Definition xScale (v : View) : spec_float :=
  B64.div (B64.div (B64.mul (sampleFreq v) (w v)) (fftSize v)) (span v).

Definition startBinD (v : View) : spec_float :=
  B64.add (B64.mul (startFreq v) (binsPerHz v))
          (B64.div (fftSize v) (B64.of_Z 2)).
Definition startBin (v : View) : Z :=
  Z.min (qRound_d (startBinD v)) (m_fftDataSize v - 1).
Definition numBins (v : View) : Z :=
  IEEE.to_int (ceil_d (B64.mul (span v) (binsPerHz v))).
Definition endBin (v : View) : Z := startBin v + numBins v.
Definition minbin (v : View) : Z := Z.max (startBin v) 1.
Definition maxbin (v : View) : Z := Z.min (endBin v + 1) (m_fftDataSize v - 1).
Definition xmin (v : View) : Z :=
  qRound_d (B64.mul (B64.of_Z (minbin v - startBin v)) (xScale v)).
Definition xmax (v : View) : Z :=
  Z.min (qRound_d (B64.mul (B64.of_Z (maxbin v - startBin v)) (xScale v)))
        (qRound_d (w v)).

(** [(qreal)numBins >= w]: at least as many displayed bins as pixels. *)
Definition oversampled (v : View) : bool := SFleb (w v) (B64.of_Z (numBins v)).

(** The histogram locals of [draw]; [MAX_HISTOGRAM_SIZE] is declared in
    plotter.h. *)
Definition histBinsDisplayed (MAX_HISTOGRAM_SIZE : Z) (v : View) : Z :=
  Z.min MAX_HISTOGRAM_SIZE
        (Z.max 32 (qRound (of_int 32 * of_int (numBins v) / of_int 2048)%fl)).

Definition frameTime (fft_rate : Z) : spec_float :=
  (of_int 1 / of_int fft_rate)%fl.

Definition histWeight (MAX_HISTOGRAM_SIZE fft_rate : Z) (v : View) : spec_float :=
  (of_int 10000000 * frameTime fft_rate
   / of_int (histBinsDisplayed MAX_HISTOGRAM_SIZE v)
   / B32.of_double (fftSize v))%fl.

Definition histdBGainFactor (MAX_HISTOGRAM_SIZE : Z) (v : View)
  (m_PandMindB m_PandMaxdB : spec_float) : spec_float :=
  (of_int (histBinsDisplayed MAX_HISTOGRAM_SIZE v)
   / fabs (m_PandMaxdB - m_PandMindB))%fl.

(** The display settings the aggregation stage depends on. *)
Record Display : Type := {
  m_PlotMode : ePlotMode;
  m_PandMindB : spec_float;
  m_PandMaxdB : spec_float;
  fft_rate : Z;
  plotterVisible : bool;
  m_histIIRValid : bool
}.

(** "Do not waste time with histogram calculations unless in this mode." *)
Definition doHistogram (d : Display) (newData : bool) : bool :=
  plotterVisible d
  && ePlotMode_eqb (m_PlotMode d) PLOT_MODE_HISTOGRAM
  && (negb (m_histIIRValid d) || newData).

Definition frame (MAX_HISTOGRAM_SIZE : Z) (v : View) (d : Display)
  (newData : bool) (m_fftData m_fftIIR : Z -> spec_float)
  : Aggregator.Frame (F := spec_float) :=
  {| Aggregator.m_fftData := m_fftData;
     Aggregator.m_fftIIR := m_fftIIR;
     Aggregator.m_PlotMode := m_PlotMode d;
     Aggregator.m_PandMaxdB := m_PandMaxdB d;
     Aggregator.xScale := B32.of_double (xScale v);
     Aggregator.startBinD := B32.of_double (startBinD v);
     Aggregator.startBin := startBin v;
     Aggregator.numBins := numBins v;
     Aggregator.minbin := minbin v;
     Aggregator.maxbin := maxbin v;
     Aggregator.xmin := xmin v;
     Aggregator.xmax := xmax v;
     Aggregator.doHistogram := doHistogram d newData;
     Aggregator.histBinsDisplayed := histBinsDisplayed MAX_HISTOGRAM_SIZE v;
     Aggregator.histWeight := histWeight MAX_HISTOGRAM_SIZE (fft_rate d) v;
     Aggregator.histdBGainFactor :=
       histdBGainFactor MAX_HISTOGRAM_SIZE v (m_PandMindB d) (m_PandMaxdB d) |}.

(** The bin the specification names for column [x] of the undersampled
    regime: [round(x / xScale + startBin)], with the rounded start bin. *)
Definition claimed_nearest_bin (v : View) (x : Z) : Z :=
  qRound (of_int x / B32.of_double (xScale v) + of_int (startBin v))%fl.

(** The aggregation stage of [draw(newData)] on the widget's buffers. *)
Definition aggregate (log10f : spec_float -> spec_float)
  (MAX_HISTOGRAM_SIZE : Z) (v : View) (d : Display) (newData : bool)
  (m_fftData m_fftIIR : Z -> spec_float) (b : Aggregator.Bufs)
  : Aggregator.Bufs :=
  Aggregator.aggregate log10f (oversampled v)
    (frame MAX_HISTOGRAM_SIZE v d newData m_fftData m_fftIIR) b.

End Draw.

(** ** Waterfall line engine ([draw], [clearWaterfallBuf]) *)

Module Waterfall.
Section Model.
Variable log10f : spec_float -> spec_float.
(** [MAX_SCREENSIZE] of plotter.h *)
Variable MAX_SCREENSIZE : Z.

(** The waterfall image is a list of rows, the newest first; a row maps a
    column to its [QRgb].  The counters are [quint64]s of plotter.h and are
    not let wrap here. *)
Record State : Type := {
  m_wfbuf : Z -> spec_float;
  wf_avg_count : Z;
  wf_count : Z;
  wf_epoch : Z;
  tlast_wf_ms : Z;
  wf_valid_since_ms : Z;
  tlast_wf_drawn_ms : Z;
  m_WaterfallImage : list (Z -> Z)
}.

(** What the waterfall stage reads; [msec_per_wfline] is a [double], zero
    in "auto" mode. *)
Record Settings : Type := {
  m_WaterfallMode : eWaterfallMode;
  m_PlotMode : ePlotMode;
  msec_per_wfline : spec_float;
  m_WfMindB : spec_float;
  m_WfMaxdB : spec_float;
  m_ColorTbl : Z -> Colormap.QColor
}.

(** "Pick max or avg for waterfall" *)
Definition dataSource (cfg : Settings) (b : Aggregator.Bufs (F := spec_float))
  : Z -> spec_float :=
  match m_WaterfallMode cfg with
  | WATERFALL_MODE_AVG => Aggregator.m_wfAvgBuf b
  | WATERFALL_MODE_SYNC =>
      if ePlotMode_eqb (m_PlotMode cfg) PLOT_MODE_MAX
      then Aggregator.m_fftMaxBuf b else Aggregator.m_fftAvgBuf b
  | WATERFALL_MODE_MAX => Aggregator.m_wfMaxBuf b
  end.

(** [msec_per_wfline > 0] *)
Definition manual (cfg : Settings) : bool :=
  SFltb (B64.of_Z 0) (msec_per_wfline cfg).

Definition max_mode (cfg : Settings) : bool :=
  eWaterfallMode_eqb (m_WaterfallMode cfg) WATERFALL_MODE_MAX.

Definition clearWaterfallBuf (m : Z -> spec_float) : Z -> spec_float :=
  for_range 0 MAX_SCREENSIZE (fun i m => upd m i (of_int 0)) m.

Definition with_wfbuf (st : State) (buf : Z -> spec_float) (avg_count : Z) : State :=
  {| m_wfbuf := buf;
     wf_avg_count := avg_count;
     wf_count := wf_count st;
     wf_epoch := wf_epoch st;
     tlast_wf_ms := tlast_wf_ms st;
     wf_valid_since_ms := wf_valid_since_ms st;
     tlast_wf_drawn_ms := tlast_wf_drawn_ms st;
     m_WaterfallImage := m_WaterfallImage st |}.

(** "if not in auto mode, store max waterfall data in accumulator" *)
Definition accumulate (cfg : Settings) (npts : Z) (ds : Z -> spec_float)
  (st : State) : State :=
  if manual cfg then
    if negb (max_mode cfg) then
      with_wfbuf st
        (for_range 0 npts (fun i m => upd m i (m i + ds i)%fl) (m_wfbuf st))
        (wf_avg_count st + 1)
    else
      with_wfbuf st
        (for_range 0 npts (fun i m => upd m i (std_max (m i) (ds i))) (m_wfbuf st))
        (wf_avg_count st)
  else st.

(** "is it time to update waterfall?"
    [tnow_ms - wf_epoch > wf_count * msec_per_wfline] *)
Definition due (cfg : Settings) (st : State) (tnow_ms : Z) : bool :=
  SFltb (B64.mul (B64.of_Z (wf_count st)) (msec_per_wfline cfg))
        (B64.of_Z ((tnow_ms - wf_epoch st) mod 2 ^ 64)).

Definition wfdBGainFactor (cfg : Settings) : spec_float :=
  (of_int 256 / fabs (m_WfMaxdB cfg - m_WfMindB cfg))%fl.

(** [cidx]: [std::max(std::min(qRound((m_WfMaxdB - 10 log10f(v)) * gain), 255), 0)] *)
Definition cidx (cfg : Settings) (v : spec_float) : Z :=
  Z.max (Z.min (qRound ((m_WfMaxdB cfg - of_int 10 * log10f v)
                        * wfdBGainFactor cfg)%fl) 255) 0.

Definition lineFactor (cfg : Settings) (st : State) : spec_float :=
  if manual cfg && negb (max_mode cfg)
  then (of_int 1 / of_int (wf_avg_count st))%fl
  else of_int 1.

(** The value a column of the new row is drawn from. *)
Definition line_value (cfg : Settings) (st : State) (ds : Z -> spec_float)
  (ix : Z) : spec_float :=
  if manual cfg then (m_wfbuf st ix * lineFactor cfg st)%fl else ds ix.

(** The new top row: cleared, then one [setPixel] per column of the frame. *)
Definition new_row (cfg : Settings) (st : State) (ds : Z -> spec_float)
  (xmin npts : Z) : Z -> Z :=
  for_range 0 npts
    (fun i row =>
       let ix := i + xmin in
       upd row ix
         (Colormap.rgb (m_ColorTbl cfg (255 - cidx cfg (line_value cfg st ds ix)))))
    (fun _ => 0).

Definition emit (cfg : Settings) (xmin npts : Z) (ds : Z -> spec_float)
  (tnow_ms : Z) (st : State) : State :=
  {| m_wfbuf := if manual cfg then clearWaterfallBuf (m_wfbuf st) else m_wfbuf st;
     wf_avg_count := 0;
     wf_count := wf_count st + 1;
     wf_epoch := wf_epoch st;
     tlast_wf_ms := tnow_ms;
     wf_valid_since_ms :=
       if wf_valid_since_ms st =? 0 then tnow_ms else wf_valid_since_ms st;
     tlast_wf_drawn_ms := tnow_ms;
     m_WaterfallImage :=
       new_row cfg st ds xmin npts :: removelast (m_WaterfallImage st) |}.

(** The waterfall stage of one [draw(newData)]; [doWaterfall] is
    [!m_WaterfallImage.isNull() && m_Running && newData]. *)
Definition step (cfg : Settings) (doWaterfall : bool) (xmin xmax : Z)
  (tnow_ms : Z) (b : Aggregator.Bufs) (st : State) : State :=
  if doWaterfall then
    let npts := xmax - xmin in
    let ds := dataSource cfg b in
    let st1 := accumulate cfg npts ds st in
    if due cfg st1 tnow_ms then emit cfg xmin npts ds tnow_ms st1 else st1
  else st.

(** A succession of frames under one geometry: time stamp and buffers. *)
Fixpoint run (cfg : Settings) (xmin xmax : Z)
  (frames : list (Z * Aggregator.Bufs)) (st : State) : State :=
  match frames with
  | [] => st
  | (tnow_ms, b) :: rest =>
      run cfg xmin xmax rest (step cfg true xmin xmax tnow_ms b st)
  end.

(** *** A line in the making *)

(** None of the frames completes a line: each is folded, and the row is
    not yet due. *)
Fixpoint quiet (cfg : Settings) (xmin xmax : Z)
  (frames : list (Z * Aggregator.Bufs)) (st : State) : bool :=
  match frames with
  | [] => true
  | (tnow_ms, b) :: rest =>
      negb (due cfg (accumulate cfg (xmax - xmin) (dataSource cfg b) st) tnow_ms)
      && quiet cfg xmin xmax rest (step cfg true xmin xmax tnow_ms b st)
  end.

(** The running [std::max] of the accumulator's content [m0] and the data
    of the frames at one index, in the order the frames arrive. *)
Definition folded_max (cfg : Settings) (frames : list (Z * Aggregator.Bufs))
  (m0 : spec_float) (ix : Z) : spec_float :=
  fold_left (fun m f => std_max m (dataSource cfg (snd f) ix)) frames m0.

(** [m_WaterfallImage.scanLine(0)] *)
Definition top_row (st : State) : Z -> Z :=
  hd (fun _ => 0) (m_WaterfallImage st).

(** The running sum of the accumulator's content [m0] and the data of the
    frames at one index, in the order the frames arrive. *)
Definition folded_sum (cfg : Settings) (frames : list (Z * Aggregator.Bufs))
  (m0 : spec_float) (ix : Z) : spec_float :=
  fold_left (fun m f => (m + dataSource cfg (snd f) ix)%fl) frames m0.

End Model.
End Waterfall.

(** ** Peak detection ([draw]) *)

Module PeakDetect.
Section Model.
Context {F : Type} {A : Arith F}.
Variable log10f : F -> F.
(** [PEAK_WINDOW_HALF_WIDTH] of plotter.h *)
Variable pw : Z.

(** What the detector reads besides its source: the plot's vertical scale. *)
Record Scale : Type := {
  panddBGainFactor : F;
  m_PandMaxdB : F;
  plotHeight : F
}.

(** [m_Peaks], a [QMap<int, qreal>]; the stored ordinate is the [float]
    the code computes, whose widening to [qreal] is exact. *)
Record State : Type := {
  m_Peaks : Z -> option F;
  m_peakSmoothBuf : Z -> F
}.

Record Window : Type := { sumV : F; minV : F; maxV : F }.

(** [sumV = 0; minV = vi; maxV = 0; for (j = -hw; j <= hw; ++j) ...] *)
Definition window (src : Z -> F) (ix hw : Z) : Window :=
  for_range (- hw) (hw + 1)
    (fun j wd =>
       let vj := src (ix + j) in
       {| sumV := (sumV wd + vj)%fl;
          minV := std_min (minV wd) vj;
          maxV := std_max (maxV wd) vj |})
    {| sumV := of_int 0; minV := src ix; maxV := of_int 0 |}.

(** [vi == maxV && (vi > 2.0f * avgV) && (vi > 4.0f * minV)] *)
Definition peak_test (vi avgV minV maxV : F) : bool :=
  (vi =? maxV)%fl && (of_int 2 * avgV <? vi)%fl && (of_int 4 * minV <? vi)%fl.

Definition ordinate (sc : Scale) (vi : F) : F :=
  std_max (std_min (panddBGainFactor sc * (m_PandMaxdB sc - of_int 10 * log10f vi))%fl
                   (plotHeight sc - of_int 0)%fl)
          (of_int 0).

(** Pass 1: the mean of the window is [sumV / (float)(pw * 2 + 1)]. *)
Definition narrow_avg (src : Z -> F) (ix : Z) : F :=
  (sumV (window src ix pw) / of_int (pw * 2 + 1))%fl.

Definition narrow_test (src : Z -> F) (ix : Z) : bool :=
  let wd := window src ix pw in
  peak_test (src ix) (narrow_avg src ix) (minV wd) (maxV wd).

Definition narrow_body (sc : Scale) (src : Z -> F) (xmin : Z) (i : Z)
  (st : State) : State :=
  let ix := i + xmin in
  {| m_peakSmoothBuf := upd (m_peakSmoothBuf st) ix (narrow_avg src ix);
     m_Peaks := if narrow_test src ix
                then upd (m_Peaks st) ix (Some (ordinate sc (src ix)))
                else m_Peaks st |}.

Definition narrow_pass (sc : Scale) (src : Z -> F) (xmin npts : Z)
  (st : State) : State :=
  for_range pw (npts - pw) (narrow_body sc src xmin) st.

(** Pass 2 on the smoothed curve, half-width [pw2 = pw * 5]; the sum is
    divided by [(float)(pw2 * 2)]. *)
Definition pw2 : Z := pw * 5.

Definition wide_avg (smooth : Z -> F) (ix : Z) : F :=
  (sumV (window smooth ix pw2) / of_int (pw2 * 2))%fl.

Definition wide_test (smooth : Z -> F) (ix : Z) : bool :=
  let wd := window smooth ix pw2 in
  peak_test (smooth ix) (wide_avg smooth ix) (minV wd) (maxV wd).

(** "Show the wider peak only if there is no very close narrow peak":
    [m_Peaks.find(ix + j) != m_Peaks.end()] for some [j] in [-pw, pw]. *)
Definition found_near (peaks : Z -> option F) (ix : Z) : bool :=
  for_range (- pw) (pw + 1)
    (fun j found => found || match peaks (ix + j) with Some _ => true | None => false end)
    false.

Definition wide_body (sc : Scale) (xmin : Z) (i : Z) (st : State) : State :=
  let ix := i + xmin in
  let smooth := m_peakSmoothBuf st in
  {| m_peakSmoothBuf := smooth;
     m_Peaks := if wide_test smooth ix && negb (found_near (m_Peaks st) ix)
                then upd (m_Peaks st) ix (Some (ordinate sc (smooth ix)))
                else m_Peaks st |}.

Definition wide_pass (sc : Scale) (xmin npts : Z) (st : State) : State :=
  for_range pw2 (npts - pw2) (wide_body sc xmin) st.

(** One detection: [m_Peaks.clear()], then the two passes. *)
Definition detect (sc : Scale) (src : Z -> F) (xmin npts : Z) (st : State)
  : State :=
  wide_pass sc xmin npts
    (narrow_pass sc src xmin npts
       {| m_Peaks := fun _ => None; m_peakSmoothBuf := m_peakSmoothBuf st |}).

(** "Use data source appropriate for current display mode" *)
Definition detectSource (m_MaxHoldActive : bool) (m_PlotMode : ePlotMode)
  (b : Aggregator.Bufs (F := F)) : Z -> F :=
  if m_MaxHoldActive then Aggregator.m_fftMaxHoldBuf b
  else if ePlotMode_eqb m_PlotMode PLOT_MODE_AVG then Aggregator.m_fftAvgBuf b
  else Aggregator.m_fftMaxBuf b.

(** The test of pass 1 carried over to half-width [pw2], as the
    specification describes pass 2: the window mean is the sum over the
    [pw2 * 2 + 1] samples of the window divided by their number. *)
Definition same_test_wide (smooth : Z -> F) (ix : Z) : bool :=
  let wd := window smooth ix pw2 in
  peak_test (smooth ix) (sumV wd / of_int (pw2 * 2 + 1))%fl (minV wd) (maxV wd).

(** The keys of [m_Peaks] within [lo, hi), in increasing order. *)
Definition recorded (st : State) (lo hi : Z) : list Z :=
  filter (fun x => match m_Peaks st x with Some _ => true | None => false end)
         (indices lo hi).

End Model.
End PeakDetect.

(** ** Order and well-formedness of values *)

(** The comparisons are a total preorder away from NaN. *)
Class ArithOrder (F : Type) (A : Arith F) : Prop := {
  fltb_fleb : forall a b : F, (a <? b)%fl = true -> (a <=? b)%fl = true;
  fltb_not_fleb : forall a b : F, (a <? b)%fl = true -> (b <=? a)%fl = false;
  fleb_total : forall a b : F,
    is_nan a = false -> is_nan b = false ->
    (a <? b)%fl = false -> (b <=? a)%fl = true;
  fleb_refl : forall a : F, is_nan a = false -> (a <=? a)%fl = true;
  fleb_trans : forall a b c : F,
    (a <=? b)%fl = true -> (b <=? c)%fl = true -> (a <=? c)%fl = true
}.

(** The position of a binary float on the extended line, as a triple read
    lexicographically: its class, then exponent and mantissa with the sign
    applied. *)
Definition rank (x : spec_float) : Z * Z * Z :=
  match x with
  | S754_nan => (0, 0, 0)
  | S754_infinity true => (-2, 0, 0)
  | S754_infinity false => (2, 0, 0)
  | S754_zero _ => (0, 0, 0)
  | S754_finite true m e => (-1, - e, - Zpos m)
  | S754_finite false m e => (1, e, Zpos m)
  end.

Definition lex_lt (p q : Z * Z * Z) : Prop :=
  let '(a, b, c) := p in
  let '(a', b', c') := q in
  a < a' \/ (a = a' /\ (b < b' \/ (b = b' /\ c < c'))).

Definition lex_le (p q : Z * Z * Z) : Prop := lex_lt p q \/ p = q.

(** Zero, a positive finite value or plus infinity. *)
Definition nonneg (x : spec_float) : bool :=
  match x with
  | S754_zero _ => true
  | S754_infinity s => negb s
  | S754_finite s _ _ => negb s
  | S754_nan => false
  end.

(** Not a NaN, and of sign [s]. *)
Definition signed (s : bool) (x : spec_float) : Prop :=
  match x with
  | S754_zero s' | S754_infinity s' | S754_finite s' _ _ => s' = s
  | S754_nan => False
  end.

(** A positive finite value. *)
Definition pos_finite (x : spec_float) : bool :=
  match x with
  | S754_finite false _ _ => true
  | _ => false
  end.

(** ** Integers of fixed width

    [qint64], [quint64] and [int] are integers of [Z] brought back into
    their range after each operation; C++'s [/] and [%] truncate toward
    zero ([Z.quot], [Z.rem]). *)

Module I64.
Definition wrap (z : Z) : Z := (z + 2 ^ 63) mod 2 ^ 64 - 2 ^ 63.
Definition add (a b : Z) : Z := wrap (a + b).
Definition sub (a b : Z) : Z := wrap (a - b).
Definition mul (a b : Z) : Z := wrap (a * b).
End I64.

Module I32.
Definition wrap (z : Z) : Z := (z + 2 ^ 31) mod 2 ^ 32 - 2 ^ 31.
End I32.

(** ** Frequencies and the demodulator ([roundFreq],
       [clampDemodParameters], [setDemodRanges], [setCenterFreq]) *)

Module Freq.

(** [roundFreq(qint64 freq, int resolution)]: "Round frequency to click
    resolution value". *)
Definition roundFreq (freq resolution : Z) : Z :=
  let delta := resolution in
  let delta_2 := Z.quot delta 2 in
  if 0 <=? freq
  then I64.add (I64.sub freq (Z.rem (I64.add freq delta_2) delta)) delta_2
  else I64.sub (I64.sub freq (Z.rem (I64.add freq delta_2) delta)) delta_2.







End Freq.

(** ** Grid divisions ([calcDivSize]) *)

Module Grid.

(** [static const qint64 stepTable[] = { 1, 2, 5 }] *)
Definition stepTable (index : Z) : Z :=
  if index =? 0 then 1 else if index =? 1 then 2 else 5.
Definition stepTableSize : Z := 3.

(** The locals and the three results while the loop runs; [divs] is an
    [int], the others [qint64]s. *)
Record Loop : Type := {
  step : Z;
  divs : Z;
  adjlow : Z;
  index : Z;
  multiplier : Z
}.

Definition start (low high : Z) : Loop :=
  {| step := 1;
     divs := I32.wrap (I64.sub high low);
     adjlow := I64.mul (Z.quot low 1) 1;
     index := 0;
     multiplier := 1 |}.

Definition body (low high : Z) (s : Loop) : Loop :=
  let step' := I64.mul (stepTable (index s)) (multiplier s) in
  let index' := index s + 1 in
  {| step := step';
     divs := I32.wrap (Z.quot (I64.sub high low) step');
     adjlow := I64.mul (Z.quot low step') step';
     index := if index' =? stepTableSize then 0 else index';
     multiplier := if index' =? stepTableSize
                   then I64.mul (multiplier s) 10 else multiplier s |}.

(** [while (divs > divswanted) { ... }], at most [fuel] times round. *)
Fixpoint loop (fuel : nat) (low high divswanted : Z) (s : Loop) : option Loop :=
  if divswanted <? divs s then
    match fuel with
    | O => None
    | S fuel' => loop fuel' low high divswanted (body low high s)
    end
  else Some s.

(** [calcDivSize(low, high, divswanted, adjlow, step, divs)]: the three
    references come in as [out] and go out as the result; nothing is
    assigned when [divswanted] is zero. *)
Definition calcDivSize (fuel : nat) (low high divswanted : Z) (out : Z * Z * Z)
  : option (Z * Z * Z) :=
  if divswanted =? 0 then Some out
  else
    match loop fuel low high divswanted (start low high) with
    | None => None
    | Some s =>
        let adjlow' :=
          if adjlow s <? low then I64.add (adjlow s) (step s) else adjlow s in
        Some (adjlow', step s, divs s)
    end.

(** The steps the loop tries, in order: 1, 2, 5, 10, 20, 50, ... *)
Definition nice_step (n : Z) : Z := stepTable (n mod 3) * 10 ^ (n / 3).

(** The loop after [n] rounds: the invariant of [calcDivSize]. *)
Definition loop_inv (low high : Z) (n : Z) (s : Loop) : Prop :=
  0 <= n /\
  index s = n mod 3 /\
  multiplier s = 10 ^ (n / 3) /\
  step s = (if n =? 0 then 1 else nice_step (n - 1)) /\
  divs s = (high - low) / step s /\
  adjlow s = Z.quot low (step s) * step s.

End Grid.

(** ** The histogram IIR of [draw] *)

Module HistIIR.
Section Model.
Context {F : Type} {A : Arith F}.
(** [powf] of libm *)
Variable powf : F -> F -> F.

Record State : Type := {
  m_histIIR : Z -> Z -> F;
  m_histIIRValid : bool;
  m_histMaxIIR : F
}.

(** [a = powf(1.0f - m_alpha, gamma)] with [gamma = 1.0f];
    [aDecay = 1.0f - powf(a, 4.0f * frameTime)]. *)
Definition a (m_alpha : F) : F := powf (of_int 1 - m_alpha)%fl (of_int 1).
Definition aAttack : F := of_int 1.
Definition aDecay (m_alpha frameTime : F) : F :=
  (of_int 1 - powf (a m_alpha) (of_int 4 * frameTime))%fl.

(** "Fast response when invalid" *)
Definition histV (valid : bool) (m_alpha frameTime histPrev histNew : F) : F :=
  if negb valid then histNew
  else (histPrev + aAttack * histNew - aDecay m_alpha frameTime * histPrev)%fl.

(** One cell: [m_histIIR[i][j] = std::max(histV, 0.0f);
    histMax = std::max(histMax, histV)]. *)
Definition cell (valid : bool) (m_alpha frameTime : F) (m_histogram : Z -> Z -> F)
  (i j : Z) (s : (Z -> Z -> F) * F) : (Z -> Z -> F) * F :=
  let v := histV valid m_alpha frameTime (fst s i j) (m_histogram i j) in
  (upd2 (fst s) i j (std_max v (of_int 0)), std_max (snd s) v).

(** "Update histogram IIR if it will be used." *)
Definition update (doHistogram : bool) (m_alpha frameTime : F)
  (m_histogram : Z -> Z -> F) (xmin xmax histBinsDisplayed : Z)
  (st : State) : State :=
  if doHistogram then
    let '(iir, histMax) :=
      for_range xmin xmax
        (fun i s =>
           for_range 0 histBinsDisplayed
             (cell (m_histIIRValid st) m_alpha frameTime m_histogram i) s)
        (m_histIIR st, of_int 0) in
    let histMaxAlpha := std_min (of_int 5 * frameTime)%fl (of_int 1) in
    {| m_histIIR := iir;
       m_histIIRValid := true;
       m_histMaxIIR := (m_histMaxIIR st * (of_int 1 - histMaxAlpha)
                        + histMax * histMaxAlpha)%fl |}
  else st.

End Model.
End HistIIR.

(** ** Picking a peak with the mouse ([getNearestPeak]) *)

Module NearestPeak.
Section Model.
(** [PEAK_CLICK_MAX_H_DISTANCE] and [PEAK_CLICK_MAX_V_DISTANCE] of
    plotter.h *)
Variables PEAK_CLICK_MAX_H_DISTANCE PEAK_CLICK_MAX_V_DISTANCE : Z.
(** The [abs] and the [pow] that the headers of plotter.cpp select for a
    [qreal] argument, with their results as [qreal]s. *)
Variable abs : spec_float -> spec_float.
Variable pow : spec_float -> spec_float -> spec_float.

(** [qRound((qreal)pt.x() * m_DPR)] *)
Definition scaled (p : Z) (m_DPR : spec_float) : Z :=
  qRound_d (B64.mul (B64.of_Z p) m_DPR).

Record Best : Type := { dist : spec_float; best : Z }.

(** One key [x] of the map, if it is there, with its value [y]. *)
Definition visit (m_Peaks : Z -> option spec_float) (px py : Z) (x : Z)
  (s : Best) : Best :=
  match m_Peaks x with
  | None => s
  | Some y =>
      let dy := B64.sub y (B64.of_Z py) in
      if SFltb (B64.of_Z PEAK_CLICK_MAX_V_DISTANCE) (abs dy) then s
      else
        let d := B64.add (pow dy (B64.of_Z 2))
                         (pow (B64.of_Z (x - px)) (B64.of_Z 2)) in
        if SFltb d (dist s) then {| dist := d; best := x |} else s
  end.

(** The keys from [lowerBound(px - H)] up to [upperBound(px + H)], in
    increasing order; [m_Peaks] holds [qreal]s. *)
Definition getNearestPeak (m_Peaks : Z -> option spec_float)
  (ptx pty : Z) (m_DPR : spec_float) : Z :=
  let px := scaled ptx m_DPR in
  let py := scaled pty m_DPR in
  best (for_range (px - PEAK_CLICK_MAX_H_DISTANCE)
                  (px + PEAK_CLICK_MAX_H_DISTANCE + 1)
                  (visit m_Peaks px py)
                  {| dist := B64.literal (10 ^ 10) 1; best := -1 |}).

End Model.
End NearestPeak.

(** ** Frames the statements are tried on *)

Module Examples.

(** The scenario of the specification: span 96 kHz, 1024 bins on 2048
    pixels (undersampled). *)
Definition view_1024_on_2048 : Draw.View :=
  {| Draw.m_fftDataSize := 1024; Draw.m_SampleFreq := B32.of_Z 96000;
     Draw.m_FftCenter := 0; Draw.m_Span := 96000; Draw.w := B64.of_Z 2048 |}.

(** The same receiver zoomed to 48 kHz and panned by 45 Hz: the view
    starts at bin 256.48. *)
Definition view_panned : Draw.View :=
  {| Draw.m_fftDataSize := 1024; Draw.m_SampleFreq := B32.of_Z 96000;
     Draw.m_FftCenter := 45; Draw.m_Span := 48000; Draw.w := B64.of_Z 2048 |}.

(** 64 bins on 4 pixels: sixteen bins to a column. *)
Definition view_64_on_4 : Draw.View :=
  {| Draw.m_fftDataSize := 64; Draw.m_SampleFreq := B32.of_Z 64;
     Draw.m_FftCenter := 0; Draw.m_Span := 64; Draw.w := B64.of_Z 4 |}.

(** A 10000-bin transform of a 101 kHz band zoomed to 1 kHz on 100 pixels:
    99.01 bins are displayed, [numBins] is their ceiling 100, and a bin is
    1.01 pixels wide. *)
Definition view_zoomed : Draw.View :=
  {| Draw.m_fftDataSize := 10000; Draw.m_SampleFreq := B32.of_Z 101000;
     Draw.m_FftCenter := 0; Draw.m_Span := 1000; Draw.w := B64.of_Z 100 |}.

Definition display (mode : ePlotMode) : Draw.Display :=
  {| Draw.m_PlotMode := mode; Draw.m_PandMindB := of_int (-100);
     Draw.m_PandMaxdB := of_int 0; Draw.fft_rate := 15;
     Draw.plotterVisible := true; Draw.m_histIIRValid := false |}.

(** Buffers filled with one value, and the hold flags. *)
Definition bufs_of (x : spec_float) (valid : bool) : Aggregator.Bufs :=
  {| Aggregator.m_wfMaxBuf := fun _ => x; Aggregator.m_wfAvgBuf := fun _ => x;
     Aggregator.m_fftMaxBuf := fun _ => x; Aggregator.m_fftAvgBuf := fun _ => x;
     Aggregator.m_fftMaxHoldBuf := fun _ => x;
     Aggregator.m_fftMinHoldBuf := fun _ => x;
     Aggregator.m_histogram := fun _ _ => x;
     Aggregator.m_MaxHoldValid := valid; Aggregator.m_MinHoldValid := valid |}.

(** A spectrum whose bin [j] holds the value [j]. *)
Definition ramp (j : Z) : spec_float := B32.of_Z j.

(** A flat spectrum at [0.1f]. *)
Definition flat_tenth (j : Z) : spec_float := float_literal 1 10.

(** A stand-in for [log10f] where only its value at 1 matters: C fixes
    [log10f(1) = +0]. *)
Definition log10f_at_1 (x : spec_float) : spec_float :=
  if SFeqb x (B32.of_Z 1) then S754_zero false else S754_nan.

(** A stand-in for [log10f] at the two points C fixes: [log10f(1) = +0]
    and [log10f(+-0) = -inf]. *)
Definition log10f_at_0_1 (x : spec_float) : spec_float :=
  if SFeqb x (B32.of_Z 1) then S754_zero false
  else if SFeqb x (B32.of_Z 0) then S754_infinity true
  else S754_nan.

(** A manual-span waterfall in max mode: a line every 100 ms, 100 dB of
    range below 20 dB, and a grey colour table. *)
Definition wf_settings : Waterfall.Settings :=
  {| Waterfall.m_WaterfallMode := WATERFALL_MODE_MAX;
     Waterfall.m_PlotMode := PLOT_MODE_MAX;
     Waterfall.msec_per_wfline := B64.of_Z 100;
     Waterfall.m_WfMindB := of_int (-80);
     Waterfall.m_WfMaxdB := of_int 20;
     Waterfall.m_ColorTbl := fun i => Colormap.Rgb i i i |}.

(** The waterfall one line after [setWaterfallSpan]: a cleared accumulator
    and a black image of three rows. *)
Definition wf_state : Waterfall.State :=
  {| Waterfall.m_wfbuf := fun _ => of_int 0;
     Waterfall.wf_avg_count := 0;
     Waterfall.wf_count := 1;
     Waterfall.wf_epoch := 0;
     Waterfall.tlast_wf_ms := 0;
     Waterfall.wf_valid_since_ms := 0;
     Waterfall.tlast_wf_drawn_ms := 0;
     Waterfall.m_WaterfallImage := [fun _ => 0; fun _ => 0; fun _ => 0] |}.

(** Two frames, 50 ms and 120 ms after the epoch: a flat 1, then a flat 0. *)
Definition wf_first : list (Z * Aggregator.Bufs) :=
  [(50, bufs_of (B32.of_Z 1) true)].
Definition wf_last : Aggregator.Bufs := bufs_of (B32.of_Z 0) true.

(** Two curves for the peak detector, 201 columns wide: a spike of 10 at
    column 100 on a baseline of 1, and a plateau of 128 on columns
    [76, 124] over a floor of 3. *)
Definition spike (x : Z) : spec_float :=
  if x =? 100 then B32.of_Z 10 else B32.of_Z 1.
Definition plateau (x : Z) : spec_float :=
  if (76 <=? x) && (x <=? 124) then B32.of_Z 128 else B32.of_Z 3.

Definition peak_scale : PeakDetect.Scale (F := spec_float) :=
  {| PeakDetect.panddBGainFactor := of_int 2;
     PeakDetect.m_PandMaxdB := of_int 0;
     PeakDetect.plotHeight := of_int 200 |}.

(** The detector before its first run. *)
Definition peak_state : PeakDetect.State (F := spec_float) :=
  {| PeakDetect.m_Peaks := fun _ => None;
     PeakDetect.m_peakSmoothBuf := fun _ => of_int 0 |}.

(** A flat spectrum at 1. *)
Definition flat_one (j : Z) : spec_float := B32.of_Z 1.



(** The waterfall of [wf_settings] in auto mode and in average mode. *)
Definition wf_settings_auto : Waterfall.Settings :=
  {| Waterfall.m_WaterfallMode := WATERFALL_MODE_MAX;
     Waterfall.m_PlotMode := PLOT_MODE_MAX;
     Waterfall.msec_per_wfline := B64.of_Z 0;
     Waterfall.m_WfMindB := of_int (-80);
     Waterfall.m_WfMaxdB := of_int 20;
     Waterfall.m_ColorTbl := fun i => Colormap.Rgb i i i |}.
Definition wf_settings_avg : Waterfall.Settings :=
  {| Waterfall.m_WaterfallMode := WATERFALL_MODE_AVG;
     Waterfall.m_PlotMode := PLOT_MODE_MAX;
     Waterfall.msec_per_wfline := B64.of_Z 100;
     Waterfall.m_WfMindB := of_int (-80);
     Waterfall.m_WfMaxdB := of_int 20;
     Waterfall.m_ColorTbl := fun i => Colormap.Rgb i i i |}.



(** A spectrum store holding a valid frame of 8 bins at 2, and the
    settings of a dBFS display at 25 frames a second. *)
Definition fft_state : FftData.State (F := spec_float) :=
  {| FftData.m_fftData := fun _ => B32.of_Z 2;
     FftData.m_fftIIR := fun _ => B32.of_Z 2;
     FftData.m_X := fun _ => B32.of_Z 0;
     FftData.m_fftDataSize := 8;
     FftData.m_IIRValid := true;
     FftData.m_MaxHoldValid := true;
     FftData.m_MinHoldValid := true;
     FftData.m_histIIRValid := true;
     FftData.m_histMaxIIR := B32.flt_min |}.
Definition fft_settings : FftData.Settings (F := spec_float) :=
  {| FftData.m_PlotScale := PLOT_SCALE_DBFS;
     FftData.m_PlotPerHz := false;
     FftData.m_SampleFreq := B32.of_Z 96000;
     FftData.m_alpha := float_literal 1 2;
     FftData.fft_rate := 25 |}.

(** A stand-in for [powf] that answers one half whatever it is given. *)
Definition powf_half (x y : spec_float) : spec_float := float_literal 1 2.

(** The ramp with another value in bin 0. *)
Definition ramp_but_0 (j : Z) : spec_float :=
  if j =? 0 then B32.of_Z 99 else B32.of_Z j.

End Examples.

(** * Properties *)

(** ** The comparisons of binary32 are a total preorder away from NaN *)

Lemma SFcompare_rank (x y : spec_float) :
  IEEE.is_nan x = false -> IEEE.is_nan y = false ->
  match SFcompare x y with
  | Some Lt => lex_lt (rank x) (rank y)
  | Some Eq => rank x = rank y
  | Some Gt => lex_lt (rank y) (rank x)
  | None => False
  end.
Proof.
  destruct x as [sx|sx| |sx mx ex], y as [sy|sy| |sy my ey];
    try discriminate; intros _ _;
    try destruct sx; try destruct sy; simpl; try lia; try reflexivity.
  - destruct (Z.compare_spec ex ey) as [He|He|He]; simpl; try lia.
    subst. rewrite Pos.compare_cont_spec; simpl.
    destruct (Pos.compare_spec mx my) as [Hm|Hm|Hm]; simpl; subst; try lia; reflexivity.
  - destruct (Z.compare_spec ex ey) as [He|He|He]; simpl; try lia.
    subst. rewrite Pos.compare_cont_spec; simpl.
    destruct (Pos.compare_spec mx my) as [Hm|Hm|Hm]; simpl; subst; try lia; reflexivity.
Qed.

Lemma SFcompare_nan (x y : spec_float) :
  SFcompare x y <> None -> IEEE.is_nan x = false /\ IEEE.is_nan y = false.
Proof.
  destruct x as [sx|sx| |sx mx ex], y as [sy|sy| |sy my ey]; simpl; intuition congruence.
Qed.

Lemma SFleb_rank (x y : spec_float) :
  SFleb x y = true <->
  IEEE.is_nan x = false /\ IEEE.is_nan y = false /\ lex_le (rank x) (rank y).
Proof.
  unfold SFleb, lex_le. split.
  - intros H.
    assert (Hn : SFcompare x y <> None) by (destruct (SFcompare x y); congruence).
    destruct (SFcompare_nan _ _ Hn) as [Hx Hy].
    pose proof (SFcompare_rank x y Hx Hy) as R.
    destruct (SFcompare x y) as [[ | | ]|]; try discriminate; auto.
  - intros (Hx & Hy & Hle).
    pose proof (SFcompare_rank x y Hx Hy) as R.
    destruct (SFcompare x y) as [[ | | ]|]; try reflexivity; try contradiction.
    exfalso. destruct (rank x) as [[a b] c], (rank y) as [[a' b'] c'].
    unfold lex_lt in *. destruct Hle as [Hle|Hle]; [lia | inversion Hle; lia].
Qed.

Lemma SFltb_rank (x y : spec_float) :
  SFltb x y = true <->
  IEEE.is_nan x = false /\ IEEE.is_nan y = false /\ lex_lt (rank x) (rank y).
Proof.
  unfold SFltb. split.
  - intros H.
    assert (Hn : SFcompare x y <> None) by (destruct (SFcompare x y); congruence).
    destruct (SFcompare_nan _ _ Hn) as [Hx Hy].
    pose proof (SFcompare_rank x y Hx Hy) as R.
    destruct (SFcompare x y) as [[ | | ]|]; try discriminate; auto.
  - intros (Hx & Hy & Hlt).
    pose proof (SFcompare_rank x y Hx Hy) as R.
    destruct (SFcompare x y) as [[ | | ]|]; try reflexivity; try contradiction;
      exfalso; destruct (rank x) as [[a b] c], (rank y) as [[a' b'] c'];
      unfold lex_lt in *; [inversion R; lia | lia].
Qed.

Lemma lex_total (p q : Z * Z * Z) : lex_lt p q \/ lex_le q p.
Proof.
  destruct p as [[a b] c], q as [[a' b'] c']. unfold lex_le, lex_lt.
  destruct (Z.lt_trichotomy a a') as [H|[H|H]]; [lia| |lia].
  destruct (Z.lt_trichotomy b b') as [H1|[H1|H1]]; [lia| |lia].
  destruct (Z.lt_trichotomy c c') as [H2|[H2|H2]]; [lia| |lia].
  subst. right. right. reflexivity.
Qed.

Lemma lex_lt_not_le (p q : Z * Z * Z) : lex_lt p q -> ~ lex_le q p.
Proof.
  destruct p as [[a b] c], q as [[a' b'] c']. unfold lex_le, lex_lt.
  intros H [H'|H']; [lia | inversion H'; lia].
Qed.

Lemma lex_le_trans (p q r : Z * Z * Z) : lex_le p q -> lex_le q r -> lex_le p r.
Proof.
  destruct p as [[a b] c], q as [[a' b'] c'], r as [[a'' b''] c''].
  unfold lex_le, lex_lt.
  intros [H|H] [H'|H']; try (inversion H; subst); try (inversion H'; subst); auto; left; lia.
Qed.

Lemma binary32_order : ArithOrder binary32.
Proof.
  constructor; simpl.
  - intros a b H. apply SFltb_rank in H. apply SFleb_rank.
    unfold lex_le; tauto.
  - intros a b H. apply SFltb_rank in H. destruct H as (Ha & Hb & Hlt).
    destruct (SFleb b a) eqn:E; [|reflexivity].
    apply SFleb_rank in E. destruct E as (_ & _ & Hle).
    exfalso. eapply lex_lt_not_le; eauto.
  - intros a b Ha Hb H. apply SFleb_rank. repeat split; auto.
    destruct (lex_total (rank a) (rank b)) as [Hlt|Hle]; auto.
    assert (SFltb a b = true) by (apply SFltb_rank; auto). congruence.
  - intros a Ha. apply SFleb_rank. repeat split; auto. right; reflexivity.
  - intros a b c H1 H2. apply SFleb_rank in H1, H2. apply SFleb_rank.
    destruct H1 as (?&?&?), H2 as (?&?&?). repeat split; auto.
    eapply lex_le_trans; eauto.
Qed.

Lemma exact_order : ArithOrder exact.
Proof.
  constructor; simpl.
  - intros a b H. apply negb_true_iff in H. 
    destruct (Qle_bool a b) eqn:E; auto.
    assert (~ a <= b)%Q by (rewrite <- Qle_bool_iff; congruence).
    assert (~ b <= a)%Q by (rewrite <- Qle_bool_iff; congruence).
    exfalso. destruct (Qlt_le_dec a b) as [L|L]; [apply Qlt_le_weak in L|]; tauto.
  - intros a b H. apply negb_true_iff in H. exact H.
  - intros a b _ _ H. apply negb_false_iff in H. exact H.
  - intros a _. apply Qle_bool_iff. apply Qle_refl.
  - intros a b c H1 H2. apply Qle_bool_iff in H1, H2. apply Qle_bool_iff.
    eapply Qle_trans; eauto.
Qed.

#[export] Existing Instance binary32_order.
#[export] Existing Instance exact_order.

(** ** Loops over arrays *)

Ltac zbool :=
  repeat match goal with
  | |- context [?a <=? ?b] => destruct (Z.leb_spec a b)
  | |- context [?a <? ?b] => destruct (Z.ltb_spec a b)
  | |- context [?a =? ?b] => destruct (Z.eqb_spec a b)
  end; simpl; try reflexivity; try lia.

Section Loops.
Variable V : Type.

Lemma upd_same (f : Z -> V) i v : upd f i v i = v.
Proof. unfold upd. now rewrite Z.eqb_refl. Qed.

Lemma upd_other (f : Z -> V) i j v : j <> i -> upd f i v j = f j.
Proof. unfold upd. intros H. apply Z.eqb_neq in H. now rewrite H. Qed.

(** A loop whose iteration [i] rewrites cell [i] from its old content and
    leaves the others alone does so for each index of its range. *)
Lemma for_loop_pointwise (body : Z -> (Z -> V) -> Z -> V) (h : Z -> V -> V) :
  (forall i m j, body i m j = if j =? i then h i (m i) else m j) ->
  forall n lo m j,
    for_loop n lo body m j =
    if (lo <=? j) && (j <? lo + Z.of_nat n) then h j (m j) else m j.
Proof.
  intros Hb. induction n as [|n IH]; intros lo m j.
  - simpl. zbool.
  - simpl for_loop. rewrite IH. rewrite !Hb.
    destruct (Z.eqb_spec j lo) as [->|Hne]; zbool.
Qed.

Lemma for_range_pointwise (body : Z -> (Z -> V) -> Z -> V) (h : Z -> V -> V) :
  (forall i m j, body i m j = if j =? i then h i (m i) else m j) ->
  forall lo hi m j,
    for_range lo hi body m j =
    if (lo <=? j) && (j <? hi) then h j (m j) else m j.
Proof.
  intros Hb lo hi m j. unfold for_range. rewrite (for_loop_pointwise _ _ Hb).
  zbool.
Qed.
End Loops.

Lemma in_range_true lo hi j : lo <= j < hi -> (lo <=? j) && (j <? hi) = true.
Proof. intros. apply andb_true_iff. split; [apply Z.leb_le|apply Z.ltb_lt]; lia. Qed.

Lemma fold_case_idem s : Colormap.fold_case (Colormap.fold_case s) = Colormap.fold_case s.
Proof.
  induction s as [|c s IH]; simpl; [reflexivity|]. rewrite IH. f_equal.
  unfold Colormap.fold_ascii.
  destruct (Nat.leb 65 (nat_of_ascii c) && Nat.leb (nat_of_ascii c) 90)%bool eqn:E.
  - rewrite nat_ascii_embedding.
    + apply andb_true_iff in E. destruct E as [E1 E2].
      apply Nat.leb_le in E1, E2.
      replace (Nat.leb (nat_of_ascii c + 32) 90) with false.
      * now rewrite andb_false_r.
      * symmetry. apply Nat.leb_gt. lia.
    + apply andb_true_iff in E. destruct E as [E1 E2]. apply Nat.leb_le in E2. lia.
  - now rewrite E.
Qed.

Lemma string_compare_refl (s : string) : String.compare s s = Eq.
Proof.
  pose proof (String.compare_antisym s s) as H.
  destruct (String.compare s s); simpl in H; congruence.
Qed.

Lemma is_name_eqb cmap n :
  Colormap.fold_case n = n ->
  Colormap.is_name cmap n = String.eqb (Colormap.fold_case cmap) n.
Proof.
  intros Hn. unfold Colormap.is_name, Colormap.compare_CaseInsensitive. rewrite Hn.
  destruct (String.eqb_spec (Colormap.fold_case cmap) n) as [->|Hne].
  - rewrite string_compare_refl. reflexivity.
  - destruct (String.compare (Colormap.fold_case cmap) n) eqn:E; try reflexivity.
    apply String.compare_eq_iff in E. contradiction.
Qed.

Section ColormapFacts.
Variables turbo plasma : Z -> Z -> Z.
Variables viridis magma grape inferno : Z -> Z -> spec_float.

Lemma fill_spec entry tbl j :
  Colormap.fill entry tbl j = if (0 <=? j) && (j <? 256) then entry j else tbl j.
Proof.
  unfold Colormap.fill.
  rewrite (for_range_pointwise (fun i t => upd t i (entry i)) (fun i _ => entry i)); auto.
Qed.

Lemma gqrx_body_pointwise i m j :
  Colormap.gqrx_body i m j =
  if j =? i then Colormap.gqrx_body i (fun _ => m i) i else m j.
Proof.
  unfold Colormap.gqrx_body.
  repeat match goal with
  | |- context [if ?c then _ else _] =>
      match c with
      | (j =? i) => fail 1
      | _ => destruct c
      end
  end; unfold upd; destruct (Z.eqb_spec j i); subst; rewrite ?Z.eqb_refl; reflexivity.
Qed.

Lemma gqrx_entry_indep i (t t' : Z -> Colormap.QColor) :
  Colormap.gqrx_body i t i = Colormap.gqrx_body i t' i.
Proof.
  unfold Colormap.gqrx_body.
  destruct (i <? 20) eqn:E1; [now rewrite !upd_same|].
  destruct ((20 <=? i) && (i <? 70)) eqn:E2; [now rewrite !upd_same|].
  destruct ((70 <=? i) && (i <? 100)) eqn:E3; [now rewrite !upd_same|].
  destruct ((100 <=? i) && (i <? 150)) eqn:E4; [now rewrite !upd_same|].
  destruct ((150 <=? i) && (i <? 250)) eqn:E5; [now rewrite !upd_same|].
  destruct (250 <=? i) eqn:E6; [now rewrite !upd_same|].
  exfalso.
  apply Z.ltb_ge in E1. apply Z.leb_gt in E6.
  apply andb_false_iff in E2, E3, E4, E5.
  rewrite Z.leb_gt, Z.ltb_ge in E2, E3, E4, E5. lia.
Qed.

Lemma gqrx_loop_spec (t : Z -> Colormap.QColor) j :
  for_range 0 256 Colormap.gqrx_body t j =
  if (0 <=? j) && (j <? 256) then Colormap.gqrx_body j (fun _ => t j) j else t j.
Proof.
  apply (for_range_pointwise Colormap.gqrx_body
           (fun i old => Colormap.gqrx_body i (fun _ => old) i)).
  intros. apply gqrx_body_pointwise.
Qed.

(** C10.  [setWfColormap] with a name that is none of the ten schemes
    (compared without regard to case) leaves every entry of the colour table
    as it was; with any of the ten names, each of the 256 entries is
    overwritten: its new value does not depend on the table's old content. *)
Theorem setWfColormap_frame (tbl : Z -> Colormap.QColor) (cmap : string) :
  (Colormap.recognized cmap = false ->
   forall i, Colormap.setWfColormap turbo plasma viridis magma grape inferno tbl cmap i = tbl i)
  /\
  (Colormap.recognized cmap = true ->
   forall (tbl' : Z -> Colormap.QColor) i, 0 <= i < 256 ->
     Colormap.setWfColormap turbo plasma viridis magma grape inferno tbl cmap i =
     Colormap.setWfColormap turbo plasma viridis magma grape inferno tbl' cmap i).
Proof.
  unfold Colormap.recognized, Colormap.scheme_names, Colormap.setWfColormap.
  simpl existsb.
  rewrite !is_name_eqb by reflexivity.
  split.
  - intros H i. rewrite !orb_false_iff in H.
    destruct H as (H1&H2&H3&H4&H5&H6&H7&H8&H9&H10&_).
    rewrite H1, H2, H3, H4, H5, H6, H7, H8, H9, H10. reflexivity.
  - intros H tbl' i Hi. revert H.
    assert (Hin : (0 <=? i) && (i <? 256) = true)
      by (apply andb_true_iff; split; [apply Z.leb_le|apply Z.ltb_lt]; lia).
    repeat match goal with
    | |- context [String.eqb ?a ?b] => destruct (String.eqb a b)
    end; intros H; rewrite ?fill_spec, ?gqrx_loop_spec, ?Hin;
    try reflexivity; try apply gqrx_entry_indep.
    discriminate H.
Qed.
End ColormapFacts.

(** ** dB-range setters *)


Example range_rejected_examples :
  DbRange.rejected (of_int (-161)) (of_int 0 : spec_float) = true /\
  DbRange.rejected (of_int (-100)) (of_int 31 : spec_float) = true /\
  DbRange.rejected (of_int (-50)) (of_int (-49) : spec_float) = true /\
  DbRange.rejected (of_int 0) (of_int (-20) : spec_float) = true /\
  DbRange.rejected (of_int (-160)) (of_int 30 : spec_float) = false /\
  DbRange.rejected (of_int (-50)) (of_int (-48) : spec_float) = false.
Proof. vm_compute. repeat split. Qed.

(** ** New FFT data and the IIR *)

Section FftFacts.
Context {F : Type} {A : Arith F}.
Variable powf : F -> F -> F.

Lemma store_frame_spec cfg (fftData : Z -> F) size m i :
  0 <= i < size ->
  FftData.store_frame cfg fftData size m i = FftData.scaled_floored cfg fftData size i.
Proof.
  intros Hi. unfold FftData.store_frame.
  rewrite (for_range_pointwise
             (fun i m => upd m i (FftData.scaled_floored cfg fftData size i))
             (fun i _ => FftData.scaled_floored cfg fftData size i)) by reflexivity.
  now rewrite in_range_true.
Qed.

Lemma memcpy_spec (dst src : Z -> F) n i :
  FftData.memcpy dst src n i = if (0 <=? i) && (i <? n) then src i else dst i.
Proof.
  unfold FftData.memcpy.
  now rewrite (for_range_pointwise (fun i d => upd d i (src i)) (fun i _ => src i)).
Qed.

Lemma multiplicative_update_spec (x data iir : Z -> F) a size i :
  0 <= i < size ->
  snd (FftData.multiplicative_update powf x data iir a size) i =
  (iir i * powf (data i / iir i) a)%fl.
Proof.
  intros Hi. unfold FftData.multiplicative_update. simpl.
  unfold FftData.volk_32f_x2_multiply_32f.
  set (x2 := FftData.volk_32f_s32f_power_32f _ _ _ _ _).
  rewrite (for_range_pointwise (fun i c => upd c i (iir i * x2 i)%fl)
             (fun i _ => (iir i * x2 i)%fl)) by reflexivity.
  rewrite in_range_true by auto. f_equal.
  subst x2. unfold FftData.volk_32f_s32f_power_32f.
  set (x1 := FftData.volk_32f_x2_divide_32f _ _ _ _).
  rewrite (for_range_pointwise (fun i c => upd c i (powf (x1 i) a))
             (fun i _ => powf (x1 i) a)) by reflexivity.
  rewrite in_range_true by auto. f_equal.
  subst x1. unfold FftData.volk_32f_x2_divide_32f.
  rewrite (for_range_pointwise (fun i c => upd c i (data i / iir i)%fl)
             (fun i _ => (data i / iir i)%fl)) by reflexivity.
  now rewrite in_range_true.
Qed.

Lemma reallocate_valid st size :
  size <> FftData.m_fftDataSize st ->
  FftData.m_IIRValid (FftData.reallocate st size) = false.
Proof.
  intros H. unfold FftData.reallocate.
  destruct (Z.eqb_spec size (FftData.m_fftDataSize st)); [contradiction|reflexivity].
Qed.

Lemma reallocate_invalid st size :
  FftData.m_IIRValid st = false ->
  FftData.m_IIRValid (FftData.reallocate st size) = false.
Proof.
  intros H. unfold FftData.reallocate.
  destruct (size =? FftData.m_fftDataSize st); [exact H|reflexivity].
Qed.

Lemma setNewFftData_data cfg st fftData size i :
  0 <= i < size ->
  FftData.m_fftData (FftData.setNewFftData powf cfg st fftData size) i =
  FftData.scaled_floored cfg fftData size i.
Proof.
  intros Hi. unfold FftData.setNewFftData.
  destruct (FftData.m_IIRValid (FftData.reallocate st size)
            && negb (FftData.smoothing powf cfg =? of_int 1)%fl);
    simpl; now apply store_frame_spec.
Qed.

Lemma setNewFftData_copy cfg st fftData size i :
  FftData.m_IIRValid st = false \/ size <> FftData.m_fftDataSize st \/
  (FftData.smoothing powf cfg =? of_int 1)%fl = true ->
  0 <= i < size ->
  FftData.m_fftIIR (FftData.setNewFftData powf cfg st fftData size) i =
  FftData.scaled_floored cfg fftData size i.
Proof.
  intros H Hi. unfold FftData.setNewFftData.
  assert (E : FftData.m_IIRValid (FftData.reallocate st size)
            && negb (FftData.smoothing powf cfg =? of_int 1)%fl = false).
  { destruct H as [H|[H|H]].
    - now rewrite reallocate_invalid.
    - now rewrite reallocate_valid.
    - rewrite H. apply andb_false_r. }
  rewrite E. simpl. rewrite memcpy_spec, in_range_true by auto.
  now apply store_frame_spec.
Qed.

Lemma setNewFftData_valid cfg st fftData size :
  FftData.m_IIRValid (FftData.setNewFftData powf cfg st fftData size) = true.
Proof.
  unfold FftData.setNewFftData.
  destruct (FftData.m_IIRValid (FftData.reallocate st size)
            && negb (FftData.smoothing powf cfg =? of_int 1)%fl); reflexivity.
Qed.

End FftFacts.

Lemma feed_copy {F : Type} {A : Arith F} (powf : F -> F -> F) cfg
  (fftData : Z -> F) size n st i :
  (FftData.smoothing powf cfg =? of_int 1)%fl = true ->
  0 <= i < size ->
  FftData.m_fftIIR (FftData.feed powf cfg fftData size (S n) st) i =
  FftData.scaled_floored cfg fftData size i.
Proof.
  intros Ha Hi. revert st. induction n as [|n IH]; intros st.
  - simpl. apply setNewFftData_copy; auto.
  - change (FftData.feed powf cfg fftData size (S (S n)) st)
      with (FftData.feed powf cfg fftData size (S n)
              (FftData.setNewFftData powf cfg st fftData size)).
    apply IH.
Qed.

Lemma exact_shortcut (powq : Q -> Q -> Q) :
  (forall x, powq x (of_int 1) == x)%Q ->
  forall (x data iir : Z -> Q) size i,
    0 <= i < size -> ~ (iir i == 0)%Q ->
    (snd (FftData.multiplicative_update powq x data iir (of_int 1) size) i ==
     FftData.memcpy iir data size i)%Q.
Proof.
  intros Hp x data iir size i Hi Hnz.
  rewrite multiplicative_update_spec by auto.
  rewrite memcpy_spec, in_range_true by auto.
  simpl. rewrite Hp. field. exact Hnz.
Qed.

(** C3 (as amended).  For every incoming frame, when the IIR state is
    invalid (the flag is clear or the size changes) or the smoothing
    exponent [a] compares equal to 1, the IIR spectrum after
    [setNewFftData] is the scaled-and-floored raw frame, element by element;
    so an identical frame fed any number of times with [a = 1] leaves the
    IIR equal to the raw frame each time.  In exact arithmetic the recursive
    update [iir * (raw / iir)^1] gives what the copy gives wherever
    [iir <> 0]. *)
Theorem iir_copy_when_invalid_or_unsmoothed :
  (forall (powf : spec_float -> spec_float -> spec_float) cfg st fftData size,
     FftData.m_IIRValid st = false \/ size <> FftData.m_fftDataSize st \/
     (FftData.smoothing powf cfg =? of_int 1)%fl = true ->
     forall i, 0 <= i < size ->
       FftData.m_fftIIR (FftData.setNewFftData powf cfg st fftData size) i =
       FftData.scaled_floored cfg fftData size i /\
       FftData.m_fftData (FftData.setNewFftData powf cfg st fftData size) i =
       FftData.scaled_floored cfg fftData size i)
  /\
  (forall (powf : spec_float -> spec_float -> spec_float) cfg st fftData size n,
     (FftData.smoothing powf cfg =? of_int 1)%fl = true ->
     forall i, 0 <= i < size ->
       FftData.m_fftIIR (FftData.feed powf cfg fftData size (S n) st) i =
       FftData.scaled_floored cfg fftData size i)
  /\
  (forall powq : Q -> Q -> Q,
     (forall x, powq x (of_int 1) == x)%Q ->
     forall (x data iir : Z -> Q) size i,
       0 <= i < size -> ~ (iir i == 0)%Q ->
       (snd (FftData.multiplicative_update powq x data iir (of_int 1) size) i ==
        FftData.memcpy iir data size i)%Q).
Proof.
  split; [|split].
  - intros. split; [apply setNewFftData_copy|apply setNewFftData_data]; auto.
  - intros. apply feed_copy; auto.
  - apply exact_shortcut.
Qed.

(** In binary32 the recursive update at exponent 1 does not reproduce the
    raw frame: with raw = 3 and an IIR state of 21, [21 * (3 / 21)] rounds
    to 3.0000002, whatever power kernel is exact at exponent 1. *)
Lemma iir_shortcut_differs :
  ~ (exists powf : spec_float -> spec_float -> spec_float,
       (forall x, powf x (of_int 1) = x) /\
       snd (FftData.multiplicative_update powf (fun _ => of_int 0)
              (fun _ => of_int 3) (fun _ => of_int 21) (of_int 1) 1) 0 =
       FftData.memcpy (fun _ => of_int 21) (fun _ => of_int 3) 1 0).
Proof.
  intros (powf & Hp & H).
  rewrite multiplicative_update_spec in H by lia.
  rewrite Hp in H. vm_compute in H. discriminate H.
Qed.

(** ** Induction over a counted loop *)

Lemma for_loop_ind (S : Type) (P : Z -> S -> Prop) (body : Z -> S -> S) :
  forall n lo s,
    P lo s ->
    (forall i s, lo <= i < lo + Z.of_nat n -> P i s -> P (i + 1) (body i s)) ->
    P (lo + Z.of_nat n) (for_loop n lo body s).
Proof.
  induction n as [|n IH]; intros lo s H0 Hstep.
  - simpl. now rewrite Z.add_0_r.
  - simpl for_loop.
    replace (lo + Z.of_nat (Datatypes.S n)) with (lo + 1 + Z.of_nat n) by lia.
    apply IH.
    + apply Hstep; [lia|exact H0].
    + intros i s' Hi. apply Hstep. lia.
Qed.

Lemma for_range_ind (S : Type) (P : Z -> S -> Prop) (body : Z -> S -> S) lo hi s :
  lo <= hi ->
  P lo s ->
  (forall i s, lo <= i < hi -> P i s -> P (i + 1) (body i s)) ->
  P hi (for_range lo hi body s).
Proof.
  intros Hle H0 Hstep. unfold for_range.
  replace hi with (lo + Z.of_nat (Z.to_nat (hi - lo))) at 1 by lia.
  apply for_loop_ind; auto.
  intros i s' Hi. apply Hstep. lia.
Qed.

Lemma for_range_empty (S : Type) (body : Z -> S -> S) lo hi s :
  hi <= lo -> for_range lo hi body s = s.
Proof.
  intros H. unfold for_range. replace (Z.to_nat (hi - lo)) with O by lia. reflexivity.
Qed.

Section Under.
Context {F : Type} {A : Arith F}.
Variable log10f : F -> F.

Import Aggregator.

Lemma under_body_flags fr i (b : Bufs) :
  m_MaxHoldValid (under_body log10f fr i b) = m_MaxHoldValid b /\
  m_MinHoldValid (under_body log10f fr i b) = m_MinHoldValid b.
Proof.
  unfold under_body. destruct (doHistogram fr); simpl; auto.
Qed.

Lemma under_body_column fr i (b : Bufs) x :
  column (under_body log10f fr i b) x =
  if x =? i then
    let v := m_fftData fr (nearest_bin fr i) in
    let viir := m_fftIIR fr (nearest_bin fr i) in
    (v, v, viir, viir,
     hold_max (m_MaxHoldValid b) (m_fftMaxHoldBuf b i) viir,
     hold_min (m_MinHoldValid b) (m_fftMinHoldBuf b i) viir)
  else column b x.
Proof.
  unfold under_body, column, hold_max, hold_min.
  destruct (doHistogram fr); simpl; unfold upd;
    destruct (Z.eqb_spec x i); subst; reflexivity.
Qed.

(** The undersampled pass, column by column. *)
Lemma aggregate_under_spec fr (b : Bufs) :
  (m_MaxHoldValid (aggregate_under log10f fr b) = m_MaxHoldValid b /\
   m_MinHoldValid (aggregate_under log10f fr b) = m_MinHoldValid b) /\
  forall x,
    column (aggregate_under log10f fr b) x =
    if (xmin fr <=? x) && (x <? xmax fr) then
      let v := m_fftData fr (nearest_bin fr x) in
      let viir := m_fftIIR fr (nearest_bin fr x) in
      (v, v, viir, viir,
       hold_max (m_MaxHoldValid b) (m_fftMaxHoldBuf b x) viir,
       hold_min (m_MinHoldValid b) (m_fftMinHoldBuf b x) viir)
    else column b x.
Proof.
  unfold aggregate_under.
  destruct (Z.le_gt_cases (xmin fr) (xmax fr)) as [Hle|Hgt].
  - apply (for_range_ind
      (fun k (s : Bufs) =>
         (m_MaxHoldValid s = m_MaxHoldValid b /\
          m_MinHoldValid s = m_MinHoldValid b) /\
         forall x,
           column s x =
           if (xmin fr <=? x) && (x <? k) then
             let v := m_fftData fr (nearest_bin fr x) in
             let viir := m_fftIIR fr (nearest_bin fr x) in
             (v, v, viir, viir,
              hold_max (m_MaxHoldValid b) (m_fftMaxHoldBuf b x) viir,
              hold_min (m_MinHoldValid b) (m_fftMinHoldBuf b x) viir)
           else column b x)); auto.
    + split; [auto|]. intros x. zbool.
    + intros i s Hi [[Hf1 Hf2] Hc]. split.
      * destruct (under_body_flags fr i s) as [E1 E2]. rewrite E1, E2. auto.
      * intros x. rewrite under_body_column.
        destruct (Z.eqb_spec x i) as [->|Hne].
        -- rewrite Hf1, Hf2.
           assert (Hold : column s i = column b i).
           { rewrite Hc. zbool. }
           unfold column in Hold. injection Hold as _ _ _ _ Hmx Hmn.
           rewrite Hmx, Hmn. zbool.
        -- rewrite Hc. zbool.
  - rewrite for_range_empty by lia. split; [auto|]. intros x. zbool.
Qed.

End Under.

Section Over.
Context {F : Type} {A : Arith F}.
Variable log10f : F -> F.

Import Aggregator.

Lemma slice_empty (V : Type) (d : Z -> V) lo hi : hi <= lo -> slice d lo hi = [].
Proof.
  intros H. unfold slice. replace (Z.to_nat (hi - lo)) with O by lia. reflexivity.
Qed.

Lemma slice_snoc (V : Type) (d : Z -> V) lo hi :
  lo <= hi -> slice d lo (hi + 1) = slice d lo hi ++ [d hi].
Proof.
  intros H. unfold slice.
  replace (Z.to_nat (hi + 1 - lo)) with (Z.to_nat (hi - lo) + 1)%nat by lia.
  rewrite seq_app, !map_app. simpl. do 3 f_equal. lia.
Qed.

Lemma run_max_snoc (v0 : F) vs v :
  run_max v0 (vs ++ [v]) = std_max v (run_max v0 vs).
Proof. unfold run_max. now rewrite fold_left_app. Qed.

Lemma run_sum_snoc (v0 : F) vs v :
  run_sum v0 (vs ++ [v]) = (run_sum v0 vs + v)%fl.
Proof. unfold run_sum. now rewrite fold_left_app. Qed.

Lemma with_histogram_column (b : Bufs (F := F)) h x :
  column (with_histogram b h) x = column b x.
Proof. reflexivity. Qed.

Lemma over_body_flags fr i a (b : Bufs) :
  m_MaxHoldValid (snd (over_body log10f fr i (a, b))) = m_MaxHoldValid b /\
  m_MinHoldValid (snd (over_body log10f fr i (a, b))) = m_MinHoldValid b.
Proof.
  unfold over_body.
  destruct (negb (_ =? _) || (i =? maxbin fr)); simpl.
  - destruct (doHistogram fr); simpl; auto.
  - destruct (negb (first (started fr i a))); simpl;
      destruct (doHistogram fr); simpl; auto.
Qed.

Lemma over_body_first fr i a (b : Bufs) :
  first (fst (over_body log10f fr i (a, b))) = false.
Proof.
  unfold over_body.
  destruct (negb (_ =? _) || (i =? maxbin fr)); simpl; auto.
  destruct (negb (first (started fr i a))); simpl; auto.
Qed.

Lemma started_xprev (fr : Frame (F := F)) i a : xprev (started fr i a) = xprev a.
Proof. unfold started. destruct (first a); reflexivity. Qed.

Lemma started_first (fr : Frame (F := F)) i a : first (started fr i a) = first a.
Proof. unfold started. destruct (first a) eqn:E; simpl; auto. Qed.

Lemma over_body_xprev fr i a (b : Bufs) :
  xprev (fst (over_body log10f fr i (a, b))) =
  if negb (column_of fr i =? xprev a) || (i =? maxbin fr)
  then column_of fr i else xprev a.
Proof.
  unfold over_body. fold (column_of fr i). rewrite started_xprev.
  destruct (negb (_ =? _) || (i =? maxbin fr)); simpl; auto.
  destruct (negb (first (started fr i a))); simpl; auto using started_xprev.
Qed.

(** No flush: the column buffers are as they were. *)
Lemma over_body_keep fr i a (b : Bufs) :
  column_of fr i = xprev a -> i <> maxbin fr ->
  (forall x, column (snd (over_body log10f fr i (a, b))) x = column b x) /\
  fst (over_body log10f fr i (a, b)) =
  if first a then
    {| vmax := m_fftData fr i; vmaxIIR := m_fftIIR fr i; vsum := m_fftData fr i;
       vsumIIR := m_fftIIR fr i; count := 1; xprev := xprev a; first := false |}
  else
    {| vmax := std_max (m_fftData fr i) (vmax a);
       vmaxIIR := std_max (m_fftIIR fr i) (vmaxIIR a);
       vsum := (vsum a + m_fftData fr i)%fl;
       vsumIIR := (vsumIIR a + m_fftIIR fr i)%fl;
       count := count a + 1; xprev := xprev a; first := false |}.
Proof.
  intros Hx Hi. unfold over_body. fold (column_of fr i). rewrite started_xprev.
  assert (E : negb (column_of fr i =? xprev a) || (i =? maxbin fr) = false).
  { rewrite Hx, Z.eqb_refl. simpl. now apply Z.eqb_neq. }
  rewrite E. rewrite started_first. unfold started.
  destruct (first a) eqn:Ef; simpl;
    (split; [intros x; destruct (doHistogram fr); reflexivity | reflexivity]).
Qed.

(** Flush: the column of the run is written from the statistics, the other
    columns are as they were, and the statistics restart at bin [i]. *)
Lemma over_body_flush fr i a (b : Bufs) :
  column_of fr i <> xprev a \/ i = maxbin fr ->
  fst (over_body log10f fr i (a, b)) =
    {| vmax := m_fftData fr i; vmaxIIR := m_fftIIR fr i; vsum := m_fftData fr i;
       vsumIIR := m_fftIIR fr i; count := 1; xprev := column_of fr i;
       first := false |} /\
  (forall x, x <> xprev a ->
     column (snd (over_body log10f fr i (a, b))) x = column b x) /\
  column (snd (over_body log10f fr i (a, b))) (xprev a) =
    let a' := started fr i a in
    let vmaxIIR' := std_max (vmaxIIR a') flt_min in
    let vavgIIR := std_max (vsumIIR a' / of_int (count a'))%fl flt_min in
    (std_max (vmax a') flt_min,
     std_max (vsum a' / of_int (count a'))%fl flt_min,
     vmaxIIR', vavgIIR,
     hold_max (m_MaxHoldValid b) (m_fftMaxHoldBuf b (xprev a))
              (peak_reference (m_PlotMode fr) vmaxIIR' vavgIIR),
     hold_min (m_MinHoldValid b) (m_fftMinHoldBuf b (xprev a))
              (min_reference (m_PlotMode fr) vmaxIIR' vavgIIR)).
Proof.
  intros H. unfold over_body. fold (column_of fr i). rewrite started_xprev.
  assert (E : negb (column_of fr i =? xprev a) || (i =? maxbin fr) = true).
  { destruct H as [H|H].
    - apply Z.eqb_neq in H. now rewrite H.
    - subst. rewrite Z.eqb_refl. apply orb_true_r. }
  rewrite E. simpl fst. simpl snd.
  split; [reflexivity|]. split; [intros x Hx|].
  - unfold flush, write_column, column. rewrite started_xprev. simpl.
    rewrite !upd_other by auto. destruct (doHistogram fr); reflexivity.
  - unfold flush, write_column, column, hold_max, hold_min,
      peakIsAverage, minIsAverage. rewrite started_xprev. simpl.
    rewrite !upd_same.
    destruct (doHistogram fr); simpl; destruct (m_PlotMode fr); reflexivity.
Qed.

End Over.

Section OverRun.
Context {F : Type} {A : Arith F}.
Variable log10f : F -> F.

Import Aggregator.

Variable fr : Frame (F := F).
Variable b0 : Bufs (F := F).
Variables c a b : Z.
Hypothesis Hbins : column_bins fr c a b.

Lemma run_acc_start : 
  run_acc fr c a a =
  {| vmax := m_fftData fr a; vmaxIIR := m_fftIIR fr a; vsum := m_fftData fr a;
     vsumIIR := m_fftIIR fr a; count := 1; xprev := c; first := false |}.
Proof.
  unfold run_acc. rewrite !slice_empty by lia. simpl. f_equal. lia.
Qed.

Lemma run_acc_step k :
  a <= k ->
  {| vmax := std_max (m_fftData fr (k + 1)) (vmax (run_acc fr c a k));
     vmaxIIR := std_max (m_fftIIR fr (k + 1)) (vmaxIIR (run_acc fr c a k));
     vsum := (vsum (run_acc fr c a k) + m_fftData fr (k + 1))%fl;
     vsumIIR := (vsumIIR (run_acc fr c a k) + m_fftIIR fr (k + 1))%fl;
     count := count (run_acc fr c a k) + 1;
     xprev := xprev (run_acc fr c a k); first := false |} =
  run_acc fr c a (k + 1).
Proof.
  intros Hk. unfold run_acc. simpl.
  rewrite !(@slice_snoc _ _ (a + 1) (k + 1)) by lia.
  rewrite !run_max_snoc, !run_sum_snoc. f_equal. lia.
Qed.

Lemma over_inv_step i s :
  minbin fr <= i < maxbin fr + 1 ->
  over_inv fr b0 c a b i s -> over_inv fr b0 c a b (i + 1) (over_body log10f fr i s).
Proof.
  destruct Hbins as (Ha & Hab & Hb & Hcol).
  intros Hi. destruct s as [acc bufs].
  intros (Hflags & Hstart & Hprev & Hclean & Hrun & Hdone).
  (* the column the pending statistics belong to *)
  assert (Hxp : xprev acc = if i =? minbin fr then xmin fr else column_of fr (i - 1)).
  { destruct (Z.eqb_spec i (minbin fr)) as [E|E].
    - rewrite (Hstart E). reflexivity.
    - apply Hprev; lia. }
  assert (Hfst : first acc = (i =? minbin fr)).
  { destruct (Z.eqb_spec i (minbin fr)) as [E|E].
    - rewrite (Hstart E). reflexivity.
    - apply Hprev; lia. }
  destruct (over_body log10f fr i (acc, bufs)) as [acc' bufs'] eqn:Eb.
  assert (Eacc : acc' = fst (over_body log10f fr i (acc, bufs))) by now rewrite Eb.
  assert (Ebuf : bufs' = snd (over_body log10f fr i (acc, bufs))) by now rewrite Eb.
  clear Eb. unfold over_inv.
  split; [|split; [|split; [|split; [|split]]]].
  - (* flags *)
    destruct (over_body_flags log10f fr i acc bufs) as [E1 E2].
    rewrite Ebuf, E1, E2. exact Hflags.
  - intros E. lia.
  - intros _. split.
    + rewrite Eacc. apply over_body_first.
    + intros Hle. rewrite Eacc, over_body_xprev.
      replace (i + 1 - 1) with i by lia.
      replace (i =? maxbin fr) with false by (symmetry; apply Z.eqb_neq; lia).
      rewrite orb_false_r.
      destruct (Z.eqb_spec (column_of fr i) (xprev acc)) as [E|E]; simpl; auto.
  - (* before the flush of the run, column c is as it was *)
    intros Hle Hcs.
    assert (Hold : column bufs c = column b0 c) by (apply Hclean; [lia|exact Hcs]).
    rewrite Ebuf, <- Hold.
    destruct (Z.eq_dec (column_of fr i) (xprev acc)) as [E|E].
    + apply over_body_keep; [exact E|lia].
    + apply over_body_flush; [left; exact E|].
      (* the flushed column is not c *)
      rewrite Hxp. destruct (Z.eqb_spec i (minbin fr)) as [Em|Em].
      * subst i. rewrite Hxp in E. rewrite ?Z.eqb_refl in E.
        destruct Hcs as [Hcs|Hcs]; [contradiction|exact Hcs].
      * intros Hc. pose proof Hc as Hc'. symmetry in Hc'.
        apply Hcol in Hc'; [|lia].
        assert (Hci : column_of fr i = c) by (apply Hcol; lia).
        apply E. rewrite Hxp.
        destruct (Z.eqb_spec i (minbin fr)); [contradiction|congruence].
  - (* the running statistics over a..i *)
    intros Hr. replace (i + 1 - 1) with i by lia.
    assert (Hci : column_of fr i = c) by (apply Hcol; lia).
    destruct (Z.eq_dec i a) as [Eia|Eia].
    + subst i. rewrite run_acc_start.
      destruct (Z.eq_dec (column_of fr a) (xprev acc)) as [E|E].
      * destruct (over_body_keep log10f fr acc bufs E ltac:(lia)) as [_ Hk].
        rewrite Eacc, Hk, Hfst.
        destruct (Z.eqb_spec a (minbin fr)) as [Em|Em].
        -- rewrite <- E, Hci. reflexivity.
        -- exfalso. rewrite Hxp in E.
           destruct (Z.eqb_spec a (minbin fr)); [contradiction|].
           rewrite Hci in E. symmetry in E. apply Hcol in E; lia.
      * destruct (over_body_flush log10f fr (i := a) acc bufs (or_introl E)) as [Hk _].
        rewrite Eacc, Hk, Hci. reflexivity.
    + assert (Hacc : acc = run_acc fr c a (i - 1)) by (apply Hrun; lia).
      assert (E : column_of fr i = xprev acc) by (rewrite Hacc; simpl; exact Hci).
      destruct (over_body_keep log10f fr acc bufs E ltac:(lia)) as [_ Hk].
      rewrite Eacc, Hk, Hacc. simpl first. cbv iota.
      replace (run_acc fr c a i) with (run_acc fr c a (i - 1 + 1))
        by (f_equal; lia).
      rewrite <- run_acc_step by lia.
      replace (i - 1 + 1) with i by lia. reflexivity.
  - (* after the run: column c holds its statistics *)
    intros Hr.
    destruct (Z.eq_dec i (b + 1)) as [Eib|Eib].
    + (* the flush of the run *)
      assert (Hacc : acc = run_acc fr c a b).
      { replace b with (i - 1) by lia. apply Hrun; lia. }
      assert (Hf : column_of fr i <> xprev acc \/ i = maxbin fr).
      { destruct (Z.eq_dec i (maxbin fr)) as [Em|Em]; [right; exact Em|left].
        rewrite Hacc. simpl. intros Hc. apply Hcol in Hc; lia. }
      destruct (over_body_flush log10f fr acc bufs Hf) as (_ & _ & Hw).
      assert (Hxc : xprev acc = c) by (rewrite Hacc; reflexivity).
      rewrite Hxc in Hw.
      assert (Hst : started fr i acc = run_acc fr c a b).
      { unfold started. rewrite Hacc. reflexivity. }
      rewrite Hst in Hw.
      rewrite Ebuf, Hw. cbv zeta.
      eexists _, _. split; [reflexivity|].
      intros Hcs.
      assert (Hold : column bufs c = column b0 c) by (apply Hclean; [lia|exact Hcs]).
      unfold column in Hold. injection Hold as _ _ _ _ Hmx Hmn.
      destruct Hflags as [Hf1 Hf2].
      rewrite Hmx, Hmn, Hf1, Hf2. reflexivity.
    + (* later flushes go to other columns *)
      destruct (Hdone ltac:(lia)) as (h1 & h2 & Hc1 & Hc2).
      assert (Hne : c <> xprev acc).
      { rewrite Hxp. destruct (Z.eqb_spec i (minbin fr)); [lia|].
        intros Hc. symmetry in Hc. apply Hcol in Hc; lia. }
      assert (Hsame : column bufs' c = column bufs c).
      { rewrite Ebuf.
        destruct (Z.eq_dec (column_of fr i) (xprev acc)) as [E|E].
        - destruct (Z.eq_dec i (maxbin fr)) as [Em|Em].
          + apply over_body_flush; auto.
          + apply over_body_keep; auto.
        - apply over_body_flush; auto. }
      rewrite Hsame. exists h1, h2. split; assumption.
Qed.

(** The oversampled pass on a column whose bins are [a..b]. *)
Lemma aggregate_over_run :
  let r := aggregate_over log10f fr b0 in
  (exists h1 h2,
     column r c =
       (col_max (m_fftData fr) a b, col_avg (m_fftData fr) a b,
        col_max (m_fftIIR fr) a b, col_avg (m_fftIIR fr) a b, h1, h2)) /\
  (clean_start fr c -> column r c = run_column fr b0 c a b).
Proof.
  unfold aggregate_over.
  pose proof Hbins as (Ha & Hab & Hb & Hcol).
  assert (Hinv : over_inv fr b0 c a b (maxbin fr + 1)
            (for_range (minbin fr) (maxbin fr + 1) (over_body log10f fr) (acc0 fr, b0))).
  { apply for_range_ind; [lia| |apply over_inv_step].
    unfold over_inv. repeat split; auto; try lia; try (intros; lia). }
  destruct (for_range (minbin fr) (maxbin fr + 1) (over_body log10f fr) (acc0 fr, b0))
    as [acc bufs].
  destruct Hinv as (_ & _ & _ & _ & _ & Hdone).
  destruct (Hdone ltac:(lia)) as (h1 & h2 & H1 & H2).
  split; [exists h1, h2; exact H1 | exact H2].
Qed.

End OverRun.

Section OverFrame.
Context {F : Type} {A : Arith F}.
Variable log10f : F -> F.
Import Aggregator.

Lemma aggregate_over_flags fr (b0 : Bufs) :
  m_MaxHoldValid (aggregate_over log10f fr b0) = true /\
  m_MinHoldValid (aggregate_over log10f fr b0) = true.
Proof.
  unfold aggregate_over.
  destruct (for_range _ _ _ _); simpl; auto.
Qed.

(** A column no bin of [minbin, maxbin) falls in, other than the one the
    loop starts from, is not written. *)
Lemma aggregate_over_untouched fr (b0 : Bufs) c :
  (forall i, minbin fr <= i < maxbin fr -> column_of fr i <> c) ->
  c <> xmin fr ->
  column (aggregate_over log10f fr b0) c = column b0 c.
Proof.
  intros Hcol Hc. unfold aggregate_over.
  destruct (Z.le_gt_cases (minbin fr) (maxbin fr + 1)) as [Hle|Hgt].
  - assert (Hinv :
      (fun i (s : Acc * Bufs) =>
         (i = minbin fr -> xprev (fst s) = xmin fr) /\
         (minbin fr < i -> i <= maxbin fr -> xprev (fst s) = column_of fr (i - 1)) /\
         column (snd s) c = column b0 c)
        (maxbin fr + 1)
        (for_range (minbin fr) (maxbin fr + 1) (over_body log10f fr) (acc0 fr, b0))).
    { apply for_range_ind; [lia| |].
      - simpl. repeat split; auto. intros; lia.
      - intros i [acc bufs] Hi (H1 & H2 & H3). simpl in H1, H2, H3.
        assert (Hne : c <> xprev acc).
        { destruct (Z.eq_dec i (minbin fr)) as [E|E].
          - rewrite (H1 E). exact Hc.
          - rewrite H2 by lia. intros Hx. symmetry in Hx. revert Hx. apply Hcol. lia. }
        split; [intros; lia|]. split.
        + intros _ Hle'. rewrite over_body_xprev.
          replace (i + 1 - 1) with i by lia.
          replace (i =? maxbin fr) with false by (symmetry; apply Z.eqb_neq; lia).
          rewrite orb_false_r.
          destruct (Z.eqb_spec (column_of fr i) (xprev acc)) as [E|E]; simpl; auto.
        + rewrite <- H3.
          destruct (Z.eq_dec (column_of fr i) (xprev acc)) as [E|E].
          * destruct (Z.eq_dec i (maxbin fr)) as [Em|Em].
            -- apply over_body_flush; auto.
            -- apply over_body_keep; auto.
          * apply over_body_flush; auto. }
    destruct (for_range _ _ _ _) as [acc bufs]. simpl in Hinv.
    destruct Hinv as (_ & _ & H). exact H.
  - rewrite for_range_empty by lia. reflexivity.
Qed.

Lemma clear_histogram_column fr (b : Bufs) x :
  column (clear_histogram fr b) x = column b x.
Proof. unfold clear_histogram. destruct (doHistogram fr); reflexivity. Qed.

Lemma clear_histogram_flags fr (b : Bufs) :
  m_MaxHoldValid (clear_histogram fr b) = m_MaxHoldValid b /\
  m_MinHoldValid (clear_histogram fr b) = m_MinHoldValid b.
Proof. unfold clear_histogram. destruct (doHistogram fr); auto. Qed.

End OverFrame.

Section Maxima.
Context {F : Type} {A : Arith F} {O : ArithOrder A}.
Import Aggregator.

(** The running maximum is the maximum. *)
Lemma run_max_is_max (v0 : F) vs :
  (forall v, In v (v0 :: vs) -> is_nan v = false) ->
  is_max_of (run_max v0 vs) (v0 :: vs).
Proof.
  induction vs as [|v vs IH] using rev_ind; intros Hn.
  - split; [left; reflexivity|].
    intros v [<-|[]]. apply fleb_refl. apply Hn. left; reflexivity.
  - rewrite run_max_snoc.
    assert (Hn' : forall u, In u (v0 :: vs) -> is_nan u = false).
    { intros u Hu. apply Hn. simpl in *. rewrite in_app_iff. tauto. }
    destruct (IH Hn') as [Hin Hub].
    assert (Hv : is_nan v = false).
    { apply Hn. simpl. rewrite in_app_iff. right; right; left; reflexivity. }
    assert (HM : is_nan (run_max v0 vs) = false) by (apply Hn'; exact Hin).
    unfold std_max. destruct (v <? run_max v0 vs)%fl eqn:E.
    + split.
      * simpl in *. rewrite in_app_iff. tauto.
      * intros u Hu. simpl in Hu. rewrite in_app_iff in Hu.
        destruct Hu as [Hu|[Hu|[Hu|[]]]].
        -- apply Hub. left; exact Hu.
        -- apply Hub. right; exact Hu.
        -- subst u. apply fltb_fleb. exact E.
    + split.
      * simpl. rewrite in_app_iff. right; right; left; reflexivity.
      * assert (HMv : (run_max v0 vs <=? v)%fl = true) by (apply fleb_total; auto).
        intros u Hu. simpl in Hu. rewrite in_app_iff in Hu.
        destruct Hu as [Hu|[Hu|[Hu|[]]]].
        -- eapply fleb_trans; [apply Hub; left; exact Hu|exact HMv].
        -- eapply fleb_trans; [apply Hub; right; exact Hu|exact HMv].
        -- subst u. apply fleb_refl. exact Hv.
Qed.

Lemma slice_cons (V : Type) (d : Z -> V) lo hi :
  lo < hi -> slice d lo hi = d lo :: slice d (lo + 1) hi.
Proof.
  intros H. unfold slice.
  replace (Z.to_nat (hi - lo)) with (Datatypes.S (Z.to_nat (hi - (lo + 1)))) by lia.
  simpl. f_equal; [f_equal; lia|].
  rewrite <- seq_shift, !map_map. apply map_ext. intros k. f_equal. lia.
Qed.

Lemma in_slice (V : Type) (d : Z -> V) lo hi v :
  In v (slice d lo hi) <-> exists i, lo <= i < hi /\ v = d i.
Proof.
  unfold slice. rewrite in_map_iff. split.
  - intros (i & <- & Hi). apply in_map_iff in Hi. destruct Hi as (k & <- & Hk).
    apply in_seq in Hk. exists (lo + Z.of_nat k). split; [lia|reflexivity].
  - intros (i & Hi & ->). exists i. split; [reflexivity|].
    apply in_map_iff. exists (Z.to_nat (i - lo)). split; [lia|].
    apply in_seq. lia.
Qed.

End Maxima.


(** ** Facts of binary32 arithmetic *)

(** [SpecFloat] is stated with the integer operations of the core library;
    this tactic names them as the Standard Library does. *)
Ltac zdef :=
  change IntDef.Z.sub with Z.sub in *;
  change IntDef.Z.add with Z.add in *;
  change IntDef.Z.mul with Z.mul in *;
  change IntDef.Z.opp with Z.opp in *;
  change IntDef.Z.max with Z.max in *;
  change IntDef.Z.min with Z.min in *;
  change IntDef.Z.leb with Z.leb in *;
  change IntDef.Z.ltb with Z.ltb in *;
  change IntDef.Z.eqb with Z.eqb in *;
  change IntDef.Z.compare with Z.compare in *.

(** ** Signs of rounded results *)

Lemma shr_1_nonneg mrs : 0 <= shr_m mrs -> 0 <= shr_m (shr_1 mrs).
Proof.
  destruct mrs as [m r s]. simpl. destruct m as [|[p|p|]|[p|p|]]; simpl; lia.
Qed.

Lemma iter_shr_1_nonneg p : forall mrs,
  0 <= shr_m mrs -> 0 <= shr_m (iter_pos shr_1 p mrs).
Proof.
  induction p as [p IH|p IH|]; intros mrs H; simpl.
  - apply IH, IH, shr_1_nonneg, H.
  - apply IH, IH, H.
  - apply shr_1_nonneg, H.
Qed.

Lemma shr_fexp_nonneg prec emax m e l :
  0 <= m -> 0 <= shr_m (fst (shr_fexp prec emax m e l)).
Proof.
  intros H. unfold shr_fexp, shr.
  assert (H0 : 0 <= shr_m (shr_record_of_loc m l)).
  { destruct l as [|[]]; simpl; exact H. }
  destruct (fexp prec emax (Zdigits2 m + e) - e); simpl; auto.
  apply iter_shr_1_nonneg, H0.
Qed.

Lemma round_nearest_even_nonneg m l : 0 <= m -> 0 <= round_nearest_even m l.
Proof.
  intros H. destruct l as [|[]]; simpl; try lia. destruct (Z.even m); lia.
Qed.

Lemma binary_round_aux_signed prec emax sx mx ex lx :
  0 <= mx -> signed sx (binary_round_aux prec emax sx mx ex lx).
Proof.
  intros H. unfold binary_round_aux.
  pose proof (shr_fexp_nonneg prec emax ex lx H) as H1.
  destruct (shr_fexp prec emax mx ex lx) as [mrs' e']. simpl in H1.
  pose proof (round_nearest_even_nonneg (loc_of_shr_record mrs') H1) as H2.
  pose proof (shr_fexp_nonneg prec emax e' loc_Exact H2) as H3.
  destruct (shr_fexp prec emax _ e' loc_Exact) as [mrs'' e'']. simpl in H3.
  destruct (shr_m mrs'') as [|m|m]; simpl; try reflexivity; try lia.
  destruct (e'' <=? emax - prec); reflexivity.
Qed.

Lemma binary_round_signed prec emax sx m e :
  signed sx (binary_round prec emax sx m e).
Proof.
  unfold binary_round. destruct (shl_align m e _) as [mz ez].
  apply binary_round_aux_signed. lia.
Qed.

Lemma signed_nonneg x : signed false x -> nonneg x = true.
Proof. destruct x as [s|s| |s m e]; simpl; intros H; subst; auto; contradiction. Qed.

Lemma nonneg_not_nan x : nonneg x = true -> IEEE.is_nan x = false.
Proof. destruct x; simpl; congruence. Qed.

Lemma nonneg_add x y :
  nonneg x = true -> nonneg y = true -> nonneg (B32.add x y) = true.
Proof.
  destruct x as [sx|sx| |sx mx ex], y as [sy|sy| |sy my ey]; simpl;
    try discriminate; intros Hx Hy;
    try (destruct sx; try discriminate);
    try (destruct sy; try discriminate); try reflexivity.
  apply signed_nonneg. unfold B32.add, SFadd, binary_normalize. simpl.
  apply binary_round_signed.
Qed.

Lemma nonneg_div x y :
  nonneg x = true -> pos_finite y = true -> nonneg (B32.div x y) = true.
Proof.
  destruct x as [sx|sx| |sx mx ex], y as [sy|sy| |sy my ey]; simpl;
    try discriminate; intros Hx Hy;
    try (destruct sx; try discriminate);
    try (destruct sy; try discriminate); try reflexivity.
  apply signed_nonneg. unfold B32.div, SFdiv. simpl xorb.
  unfold SFdiv_core_binary.
  set (e' := Z.min _ _). set (s := ex - ey - e').
  set (m' := match s with Z0 => Zpos mx | Zpos _ => Z.shiftl (Zpos mx) s | Zneg _ => 0 end).
  assert (Hm : 0 <= m').
  { subst m'. destruct s; try lia. apply Z.shiftl_nonneg. lia. }
  pose proof (Z.div_pos m' (Zpos my) Hm ltac:(lia)) as Hq.
  unfold Z.div in Hq. destruct (Z.div_eucl m' (Zpos my)) as [q r]. simpl in Hq.
  apply binary_round_aux_signed. exact Hq.
Qed.

(** ** Small integers convert to positive finite floats *)

Lemma digits2_pos_size p : digits2_pos p = Pos.size p.
Proof. induction p; simpl; congruence. Qed.

Lemma digits2_pos_iter_xO p k :
  digits2_pos (Pos.iter xO p k) = (digits2_pos p + k)%positive.
Proof.
  induction k as [|k IH] using Pos.peano_ind.
  - simpl. lia.
  - rewrite Pos.iter_succ. simpl. rewrite IH. lia.
Qed.

Lemma digits2_pos_bound p n :
  0 <= n -> Zpos p < 2 ^ n -> Zpos (digits2_pos p) <= n.
Proof.
  intros Hn Hp. rewrite digits2_pos_size.
  pose proof (Pos.size_le p) as Hs.
  assert (H : 2 ^ Zpos (Pos.size p) <= 2 * Zpos p).
  { change (2 * Zpos p) with (Zpos p~0). rewrite <- Pos2Z.inj_pow. lia. }
  assert (H2 : 2 ^ Zpos (Pos.size p) < 2 ^ (n + 1)).
  { replace (n + 1) with (Z.succ n) by lia. rewrite Z.pow_succ_r by lia. lia. }
  apply Z.pow_lt_mono_r_iff in H2; lia.
Qed.

Lemma binary_round_aux_canonical mz ez :
  digits2_pos mz = 24%positive -> -149 <= ez <= 104 ->
  binary_round_aux 24 128 false (Zpos mz) ez loc_Exact = S754_finite false mz ez.
Proof.
  intros Hd He. unfold binary_round_aux, shr_fexp. simpl Zdigits2. rewrite Hd.
  assert (Hf : fexp 24 128 (24 + ez) - ez = 0).
  { unfold fexp, emin. lia. }
  zdef. rewrite Hf. cbn -[Z.add Z.sub fexp Z.leb]. rewrite Hd. zdef. rewrite Hf.
  cbn -[Z.add Z.sub fexp Z.leb].
  replace (ez <=? 128 - 24) with true by (symmetry; apply Z.leb_le; lia).
  reflexivity.
Qed.

Lemma of_Z_small p :
  Zpos p < 2 ^ 24 ->
  exists m e, B32.of_Z (Zpos p) = S754_finite false m e.
Proof.
  intros Hp. unfold B32.of_Z, IEEE.of_Z, binary_normalize, binary_round.
  pose proof (@digits2_pos_bound p 24 ltac:(lia) Hp) as Hd.
  assert (Hf : fexp B32.prec B32.emax (Zpos (digits2_pos p) + 0)
               = Zpos (digits2_pos p) - 24).
  { unfold fexp, emin, B32.prec, B32.emax. lia. }
  zdef. rewrite Hf. unfold shl_align. zdef.
  destruct (Zpos (digits2_pos p) - 24 - 0) as [|k|k] eqn:Ek; try lia.
  - eexists _, _. apply binary_round_aux_canonical; [lia|lia].
  - eexists _, _. apply binary_round_aux_canonical; [|lia].
    rewrite digits2_pos_iter_xO. lia.
Qed.

Lemma of_Z_pos_finite n :
  0 < n < 2 ^ 24 -> pos_finite (B32.of_Z n) = true.
Proof.
  intros Hn. destruct n as [|p|p]; try lia.
  destruct (@of_Z_small p ltac:(lia)) as (m & e & ->). reflexivity.
Qed.

(** ** Exact arithmetic: the mean does not exceed the maximum *)

Lemma exact_std_max_ge_l (a b : Q) : (a <= std_max a b)%Q.
Proof.
  unfold std_max. simpl. destruct (Qle_bool b a) eqn:E; simpl.
  - apply Qle_refl.
  - destruct (Qlt_le_dec a b) as [H|H]; [apply Qlt_le_weak; exact H|].
    apply Qle_bool_iff in H. congruence.
Qed.

Lemma exact_std_max_ge_r (a b : Q) : (b <= std_max a b)%Q.
Proof.
  unfold std_max. simpl. destruct (Qle_bool b a) eqn:E; simpl.
  - apply Qle_bool_iff. exact E.
  - apply Qle_refl.
Qed.

Lemma exact_std_max_mono (a a' b : Q) : (a <= a')%Q -> (std_max a b <= std_max a' b)%Q.
Proof.
  intros H. unfold std_max at 1. simpl. destruct (Qle_bool b a) eqn:E; simpl.
  - eapply Qle_trans; [exact H|apply exact_std_max_ge_l].
  - apply exact_std_max_ge_r.
Qed.

Lemma exact_run_sum_le (vs : list Q) : forall (s m : Q) (k : Z),
  0 <= k -> (s <= inject_Z k * m)%Q ->
  (Aggregator.run_sum s vs <=
   inject_Z (k + Z.of_nat (List.length vs)) * Aggregator.run_max m vs)%Q.
Proof.
  induction vs as [|v vs IH]; intros s m k Hk Hs.
  - simpl. now rewrite Z.add_0_r.
  - simpl List.length. unfold Aggregator.run_sum, Aggregator.run_max in *. simpl fold_left.
    replace (k + Z.of_nat (Datatypes.S (List.length vs)))
      with ((k + 1) + Z.of_nat (List.length vs)) by lia.
    apply IH; [lia|].
    rewrite inject_Z_plus.
    pose proof (exact_std_max_ge_l v m) as H1.
    pose proof (exact_std_max_ge_r v m) as H2.
    assert (H0 : (0 <= inject_Z k)%Q).
    { change 0%Q with (inject_Z 0). rewrite <- Zle_Qle. exact Hk. }
    simpl fadd.
    set (M := std_max v m) in *. 
    assert (H3 : (inject_Z k * m <= inject_Z k * M)%Q).
    { rewrite (Qmult_comm (inject_Z k) m), (Qmult_comm (inject_Z k) M).
      apply Qmult_le_compat_r; assumption. }
    change (inject_Z 1) with 1%Q. lra.
Qed.

Lemma exact_col_avg_le_max (d : Z -> Q) a b :
  a <= b -> (Aggregator.col_avg d a b <= Aggregator.col_max d a b)%Q.
Proof.
  intros Hab. unfold Aggregator.col_avg, Aggregator.col_max.
  apply exact_std_max_mono. simpl fdiv. simpl of_int.
  assert (Hlen : Z.of_nat (List.length (slice d (a + 1) (b + 1))) = b - a).
  { unfold slice. rewrite !length_map, length_seq. lia. }
  pose proof (@exact_run_sum_le (slice d (a + 1) (b + 1)) (d a) (d a) 1 ltac:(lia)) as H.
  rewrite Hlen in H. replace (1 + (b - a)) with (b - a + 1) in H by lia.
  assert (Hpos : (0 < inject_Z (b - a + 1))%Q).
  { change 0%Q with (inject_Z 0). rewrite <- Zlt_Qlt. lia. }
  apply Qle_shift_div_r; [exact Hpos|].
  rewrite Qmult_comm. apply H.
  change (inject_Z 1) with 1%Q. lra.
Qed.

(** ** The oversampled pass, column by column *)

Section ColumnFacts.
Context {F : Type} {A : Arith F}.
Variable log10f : F -> F.
Import Aggregator.

Lemma column_bins_check_sound (fr : Frame (F := F)) c a b :
  column_bins_check fr c a b = true -> column_bins fr c a b.
Proof.
  unfold column_bins_check, column_bins. intros H.
  apply andb_true_iff in H. destruct H as [H Hall].
  apply andb_true_iff in H. destruct H as [H H3].
  apply andb_true_iff in H. destruct H as [H1 H2].
  apply Z.leb_le in H1, H2. apply Z.ltb_lt in H3.
  split; [exact H1|]. split; [exact H2|]. split; [exact H3|].
  intros i Hi. rewrite forallb_forall in Hall.
  assert (Hin : In i (map (fun k => minbin fr + Z.of_nat k)
                         (seq 0 (Z.to_nat (maxbin fr - minbin fr))))).
  { apply in_map_iff. exists (Z.to_nat (i - minbin fr)). split; [lia|].
    apply in_seq. lia. }
  specialize (Hall i Hin). apply eqb_prop in Hall.
  split.
  - intros Hc. rewrite Hc, Z.eqb_refl in Hall. symmetry in Hall.
    apply andb_true_iff in Hall. lia.
  - intros Hc.
    replace ((a <=? i) && (i <=? b)) with true in Hall
      by (symmetry; apply andb_true_iff; lia).
    apply Z.eqb_eq. exact Hall.
Qed.

(** The oversampled stage on a column whose bins are [a..b]. *)
Lemma aggregate_true_column (fr : Frame (F := F)) (b0 : Bufs) c a b :
  column_bins fr c a b ->
  let r := aggregate log10f true fr b0 in
  m_wfMaxBuf r c = col_max (m_fftData fr) a b /\
  m_wfAvgBuf r c = col_avg (m_fftData fr) a b /\
  m_fftMaxBuf r c = col_max (m_fftIIR fr) a b /\
  m_fftAvgBuf r c = col_avg (m_fftIIR fr) a b /\
  (clean_start fr c -> column r c = run_column fr b0 c a b) /\
  m_MaxHoldValid r = true /\ m_MinHoldValid r = true.
Proof.
  intros Hb r. subst r. unfold aggregate.
  destruct (aggregate_over_run log10f (clear_histogram fr b0) Hb) as [(h1 & h2 & H1) H2].
  unfold column in H1. injection H1 as E1 E2 E3 E4 _ _.
  destruct (aggregate_over_flags log10f fr (clear_histogram fr b0)) as [F1 F2].
  repeat split; try assumption.
  intros Hcs. rewrite (H2 Hcs). unfold run_column.
  destruct (clear_histogram_flags fr b0) as [G1 G2]. rewrite G1, G2.
  pose proof (clear_histogram_column fr b0 c) as Hc.
  unfold column in Hc. injection Hc as _ _ _ _ Hmx Hmn.
  rewrite Hmx, Hmn. reflexivity.
Qed.

Lemma aggregate_true_untouched (fr : Frame (F := F)) (b0 : Bufs) c :
  (forall i, minbin fr <= i < maxbin fr -> column_of fr i <> c) ->
  c <> xmin fr ->
  column (aggregate log10f true fr b0) c = column b0 c.
Proof.
  intros H1 H2. unfold aggregate.
  rewrite aggregate_over_untouched by assumption.
  apply clear_histogram_column.
Qed.

End ColumnFacts.

Section HoldOrder.
Context {F : Type} {A : Arith F} {O : ArithOrder A}.
Import Aggregator.


Lemma col_max_is_max (d : Z -> F) a b :
  a <= b ->
  (forall i, a <= i <= b -> is_nan (d i) = false) ->
  exists M, is_max_of M (slice d a (b + 1)) /\ col_max d a b = std_max M flt_min.
Proof.
  intros Hab Hn. exists (run_max (d a) (slice d (a + 1) (b + 1))).
  split; [|reflexivity].
  rewrite (@slice_cons _ d a (b + 1)) by lia.
  apply run_max_is_max.
  intros v Hv. rewrite <- (@slice_cons _ d a (b + 1)) in Hv by lia.
  apply in_slice in Hv. destruct Hv as (i & Hi & ->). apply Hn. lia.
Qed.

Lemma std_max_ge_l (x y : F) :
  is_nan x = false -> (x <=? std_max x y)%fl = true.
Proof.
  intros Hx. unfold std_max. destruct (x <? y)%fl eqn:E.
  - apply fltb_fleb. exact E.
  - apply fleb_refl. exact Hx.
Qed.

Lemma hold_max_ge valid (old ref : F) :
  is_nan ref = false -> (valid = true -> is_nan old = false) ->
  (ref <=? hold_max valid old ref)%fl = true.
Proof.
  intros Hr Ho. unfold hold_max, std_max. destruct valid.
  - destruct (old <? ref)%fl eqn:E.
    + apply fleb_refl. exact Hr.
    + apply fleb_total; auto.
  - apply fleb_refl. exact Hr.
Qed.

Lemma hold_min_le valid (old ref : F) :
  is_nan ref = false -> (valid = true -> is_nan old = false) ->
  (hold_min valid old ref <=? ref)%fl = true.
Proof.
  intros Hr Ho. unfold hold_min, std_min. destruct valid.
  - destruct (ref <? old)%fl eqn:E.
    + apply fleb_refl. exact Hr.
    + apply fleb_total; auto.
  - apply fleb_refl. exact Hr.
Qed.

End HoldOrder.

(** ** The undersampled regime *)

Lemma aggregate_false_column (log10f : spec_float -> spec_float) fr
  (b : Aggregator.Bufs) x :
  Aggregator.xmin fr <= x < Aggregator.xmax fr ->
  Aggregator.column (Aggregator.aggregate log10f false fr b) x =
  let v := Aggregator.m_fftData fr (Aggregator.nearest_bin fr x) in
  let viir := Aggregator.m_fftIIR fr (Aggregator.nearest_bin fr x) in
  (v, v, viir, viir,
   Aggregator.hold_max (Aggregator.m_MaxHoldValid b)
     (Aggregator.m_fftMaxHoldBuf b x) viir,
   Aggregator.hold_min (Aggregator.m_MinHoldValid b)
     (Aggregator.m_fftMinHoldBuf b x) viir).
Proof.
  intros Hx. unfold Aggregator.aggregate.
  destruct (aggregate_under_spec log10f fr (Aggregator.clear_histogram fr b)) as [_ H].
  rewrite H, in_range_true by exact Hx.
  destruct (clear_histogram_flags fr b) as [E1 E2]. rewrite E1, E2.
  pose proof (clear_histogram_column fr b x) as Hc.
  unfold Aggregator.column in Hc. injection Hc as _ _ _ _ Hmx Hmn.
  rewrite Hmx, Hmn. reflexivity.
Qed.

(** C7 (as amended).  For every frame with fewer displayed bins than
    pixels, each column [x] of [xmin, xmax) is sampled from a single bin with
    no interpolation: the stored max and avg are equal, and equal the raw
    (resp. IIR) value of bin [qRound((float)x / (float)xScale +
    (float)startBinD)], where [startBinD] is the unrounded start position. *)
Theorem undersampled_nearest_bin
  (log10f : spec_float -> spec_float) (MAX_HISTOGRAM_SIZE : Z)
  (v : Draw.View) (d : Draw.Display) (newData : bool)
  (m_fftData m_fftIIR : Z -> spec_float) (b : Aggregator.Bufs) (x : Z) :
  Draw.oversampled v = false ->
  Draw.xmin v <= x < Draw.xmax v ->
  let r := Draw.aggregate log10f MAX_HISTOGRAM_SIZE v d newData m_fftData m_fftIIR b in
  let j := qRound (of_int x / B32.of_double (Draw.xScale v)
                   + B32.of_double (Draw.startBinD v))%fl in
  Aggregator.m_wfMaxBuf r x = m_fftData j /\
  Aggregator.m_wfAvgBuf r x = m_fftData j /\
  Aggregator.m_fftMaxBuf r x = m_fftIIR j /\
  Aggregator.m_fftAvgBuf r x = m_fftIIR j.
Proof.
  intros Hu Hx r j. subst r. unfold Draw.aggregate. rewrite Hu.
  pose proof (aggregate_false_column log10f
                (Draw.frame MAX_HISTOGRAM_SIZE v d newData m_fftData m_fftIIR) b Hx) as H.
  unfold Aggregator.column in H. simpl in H.
  injection H as H1 H2 H3 H4 _ _.
  repeat split; assumption.
Qed.

Lemma undersampled_nearest_bin_witness :
  let m_fftData := Examples.ramp in
  let m_fftIIR := fun j => B32.of_Z (2 * j) in
  let r := Draw.aggregate (fun x => x) 128 Examples.view_1024_on_2048 (Examples.display PLOT_MODE_MAX) true
             m_fftData m_fftIIR (Examples.bufs_of (B32.of_Z 0) false) in
  let j := qRound (of_int 1000 / B32.of_double (Draw.xScale Examples.view_1024_on_2048)
                   + B32.of_double (Draw.startBinD Examples.view_1024_on_2048))%fl in
  Aggregator.m_wfMaxBuf r 1000 = m_fftData j /\
  Aggregator.m_wfAvgBuf r 1000 = m_fftData j /\
  Aggregator.m_fftMaxBuf r 1000 = m_fftIIR j /\
  Aggregator.m_fftAvgBuf r 1000 = m_fftIIR j.
Proof.
  apply (@undersampled_nearest_bin (fun x => x) 128 Examples.view_1024_on_2048 (Examples.display PLOT_MODE_MAX)
           true (Examples.ramp) (fun j => B32.of_Z (2 * j))
           (Examples.bufs_of (B32.of_Z 0) false) 1000).
  - vm_compute. reflexivity.
  - split; [apply Z.leb_le | apply Z.ltb_lt]; vm_compute; reflexivity.
Defined.

(** The bin of the specification's formula, with the rounded [startBin], is
    not the bin the code samples: at a pan of 45 Hz the view starts at bin
    256.48, and column 1 shows bin 257 where the formula names bin 256. *)
Lemma undersampled_not_rounded_start_bin :
  let m_fftData := Examples.ramp in
  let r := Draw.aggregate (fun x => x) 128 Examples.view_panned (Examples.display PLOT_MODE_MAX) true
             m_fftData m_fftData (Examples.bufs_of (B32.of_Z 0) false) in
  Draw.oversampled Examples.view_panned = false /\
  Draw.xmin Examples.view_panned <= 1 < Draw.xmax Examples.view_panned /\
  Draw.claimed_nearest_bin Examples.view_panned 1 = 256 /\
  Aggregator.m_wfMaxBuf r 1 = m_fftData 257 /\
  Aggregator.m_wfMaxBuf r 1 <> m_fftData (Draw.claimed_nearest_bin Examples.view_panned 1).
Proof.
  cbv zeta. split; [vm_compute; reflexivity|].
  split; [split; [apply Z.leb_le | apply Z.ltb_lt]; vm_compute; reflexivity|].
  split; [vm_compute; reflexivity|].
  split; [vm_compute; reflexivity|].
  vm_compute. discriminate.
Qed.

(** ** The hold references *)

Section References.
Context {F : Type} {A : Arith F}.
Import Aggregator.

Lemma peak_reference_spec (fr : Frame (F := F)) (x y : F) :
  peak_reference (m_PlotMode fr) x y = if peakIsAverage fr then y else x.
Proof. unfold peakIsAverage. destruct (m_PlotMode fr); reflexivity. Qed.

Lemma min_reference_spec (fr : Frame (F := F)) (x y : F) :
  min_reference (m_PlotMode fr) x y = if minIsAverage fr then y else x.
Proof. unfold minIsAverage. destruct (m_PlotMode fr); reflexivity. Qed.

End References.

(** ** Non-negative spectra stay clear of NaN *)

Lemma nonneg_std_max (x y : spec_float) :
  nonneg x = true -> nonneg y = true -> nonneg (std_max x y) = true.
Proof. intros Hx Hy. unfold std_max. destruct (x <? y)%fl; assumption. Qed.

Lemma nonneg_run_max vs : forall v0 : spec_float,
  nonneg v0 = true -> (forall v, In v vs -> nonneg v = true) ->
  nonneg (Aggregator.run_max v0 vs) = true.
Proof.
  induction vs as [|v vs IH]; intros v0 H0 H; [exact H0|].
  unfold Aggregator.run_max in *. simpl. apply IH.
  - apply nonneg_std_max; [apply H; left; reflexivity|exact H0].
  - intros u Hu. apply H. right. exact Hu.
Qed.

Lemma nonneg_run_sum vs : forall v0 : spec_float,
  nonneg v0 = true -> (forall v, In v vs -> nonneg v = true) ->
  nonneg (Aggregator.run_sum v0 vs) = true.
Proof.
  induction vs as [|v vs IH]; intros v0 H0 H; [exact H0|].
  unfold Aggregator.run_sum in *. simpl. apply IH.
  - apply nonneg_add; [exact H0|apply H; left; reflexivity].
  - intros u Hu. apply H. right. exact Hu.
Qed.

Lemma nonneg_flt_min : nonneg (flt_min (F := spec_float)) = true.
Proof. reflexivity. Qed.

Lemma nonneg_col_max (d : Z -> spec_float) a b :
  (forall i, a <= i <= b -> nonneg (d i) = true) -> a <= b ->
  nonneg (Aggregator.col_max d a b) = true.
Proof.
  intros H Hab. unfold Aggregator.col_max.
  apply nonneg_std_max; [|apply nonneg_flt_min].
  apply nonneg_run_max; [apply H; lia|].
  intros v Hv. apply in_slice in Hv. destruct Hv as (i & Hi & ->). apply H. lia.
Qed.

Lemma nonneg_col_avg (d : Z -> spec_float) a b :
  (forall i, a <= i <= b -> nonneg (d i) = true) -> a <= b ->
  b - a + 1 < 2 ^ 24 ->
  nonneg (Aggregator.col_avg d a b) = true.
Proof.
  intros H Hab Hn. unfold Aggregator.col_avg.
  apply nonneg_std_max; [|apply nonneg_flt_min].
  apply nonneg_div.
  - apply nonneg_run_sum; [apply H; lia|].
    intros v Hv. apply in_slice in Hv. destruct Hv as (i & Hi & ->). apply H. lia.
  - apply of_Z_pos_finite. lia.
Qed.

(** ** The stage of [draw] on the widget's buffers *)

Lemma draw_aggregate_over log10f MAXH v d newData data iir b0 :
  Draw.oversampled v = true ->
  Draw.aggregate log10f MAXH v d newData data iir b0 =
  Aggregator.aggregate log10f true (Draw.frame MAXH v d newData data iir) b0.
Proof. intros H. unfold Draw.aggregate. rewrite H. reflexivity. Qed.

Lemma draw_aggregate_under log10f MAXH v d newData data iir b0 :
  Draw.oversampled v = false ->
  Draw.aggregate log10f MAXH v d newData data iir b0 =
  Aggregator.aggregate log10f false (Draw.frame MAXH v d newData data iir) b0.
Proof. intros H. unfold Draw.aggregate. rewrite H. reflexivity. Qed.

Lemma aggregate_false_flags (log10f : spec_float -> spec_float) fr
  (b : Aggregator.Bufs) :
  Aggregator.m_MaxHoldValid (Aggregator.aggregate log10f false fr b)
    = Aggregator.m_MaxHoldValid b /\
  Aggregator.m_MinHoldValid (Aggregator.aggregate log10f false fr b)
    = Aggregator.m_MinHoldValid b.
Proof.
  unfold Aggregator.aggregate.
  destruct (aggregate_under_spec log10f fr (Aggregator.clear_histogram fr b)) as [[H1 H2] _].
  destruct (clear_histogram_flags fr b) as [E1 E2].
  rewrite H1, H2, E1, E2. split; reflexivity.
Qed.

(** C1 (as amended).  In the oversampled regime, for a pixel column [c]
    whose bins of [minbin, maxbin) are the run [a..b], none of them a NaN:
    the stored max is the greatest raw (resp. IIR) value of the run, floored
    at [FLT_MIN], and the stored avg is the binary32 sum of the run, taken
    in bin order, divided by the count, again floored at [FLT_MIN].  In
    exact arithmetic the stored avg does not exceed the stored max. *)
Theorem oversampled_column_statistics :
  (forall (log10f : spec_float -> spec_float) (MAX_HISTOGRAM_SIZE : Z)
          (v : Draw.View) (d : Draw.Display) (newData : bool)
          (m_fftData m_fftIIR : Z -> spec_float) (b0 : Aggregator.Bufs)
          (c a b : Z),
     Draw.oversampled v = true ->
     Aggregator.column_bins
       (Draw.frame MAX_HISTOGRAM_SIZE v d newData m_fftData m_fftIIR) c a b ->
     (forall i, a <= i <= b ->
        is_nan (m_fftData i) = false /\ is_nan (m_fftIIR i) = false) ->
     let r := Draw.aggregate log10f MAX_HISTOGRAM_SIZE v d newData
                m_fftData m_fftIIR b0 in
     exists M Miir,
       Aggregator.is_max_of M (slice m_fftData a (b + 1)) /\
       Aggregator.is_max_of Miir (slice m_fftIIR a (b + 1)) /\
       Aggregator.m_wfMaxBuf r c = std_max M flt_min /\
       Aggregator.m_fftMaxBuf r c = std_max Miir flt_min /\
       Aggregator.m_wfAvgBuf r c =
         std_max (Aggregator.run_sum (m_fftData a) (slice m_fftData (a + 1) (b + 1))
                  / of_int (b - a + 1))%fl flt_min /\
       Aggregator.m_fftAvgBuf r c =
         std_max (Aggregator.run_sum (m_fftIIR a) (slice m_fftIIR (a + 1) (b + 1))
                  / of_int (b - a + 1))%fl flt_min) /\
  (forall (log10f : Q -> Q) (fr : Aggregator.Frame (F := Q))
          (b0 : Aggregator.Bufs) (c a b : Z),
     Aggregator.column_bins fr c a b ->
     let r := Aggregator.aggregate log10f true fr b0 in
     (Aggregator.m_wfAvgBuf r c <= Aggregator.m_wfMaxBuf r c)%Q /\
     (Aggregator.m_fftAvgBuf r c <= Aggregator.m_fftMaxBuf r c)%Q).
Proof.
  split.
  - intros log10f MAXH v d newData data iir b0 c a b Hov Hb Hn r. subst r.
    rewrite draw_aggregate_over by exact Hov.
    destruct (aggregate_true_column log10f b0 Hb) as (E1 & E2 & E3 & E4 & _).
    assert (Hab : a <= b) by (destruct Hb as (_ & H & _); exact H).
    destruct (@col_max_is_max _ _ _ data a b Hab) as (M & HM & EM).
    { intros i Hi. apply (Hn i Hi). }
    destruct (@col_max_is_max _ _ _ iir a b Hab) as (Mi & HMi & EMi).
    { intros i Hi. apply (Hn i Hi). }
    exists M, Mi. cbv zeta in E1, E2, E3, E4. cbn [Aggregator.m_fftData Aggregator.m_fftIIR Draw.frame] in E1, E2, E3, E4.
    rewrite E1, E2, E3, E4, <- EM, <- EMi.
    repeat split; try apply HM; try apply HMi.
  - intros log10f fr b0 c a b Hb r. subst r.
    destruct (aggregate_true_column log10f b0 Hb) as (E1 & E2 & E3 & E4 & _).
    assert (Hab : a <= b) by (destruct Hb as (_ & H & _); exact H).
    rewrite E1, E2, E3, E4.
    split; apply exact_col_avg_le_max; exact Hab.
Qed.

Lemma ramp_nonneg i : 0 < i < 2 ^ 24 -> nonneg (Examples.ramp i) = true.
Proof.
  intros H. pose proof (of_Z_pos_finite H) as Hp. unfold Examples.ramp.
  destruct (B32.of_Z i) as [| | |[] ? ?]; simpl in *; congruence.
Qed.

Lemma oversampled_column_statistics_witness :
  let r := Draw.aggregate Examples.log10f_at_1 128 Examples.view_64_on_4
             (Examples.display PLOT_MODE_MAX) true Examples.ramp Examples.ramp
             (Examples.bufs_of (B32.of_Z 0) false) in
  exists M Miir,
    Aggregator.is_max_of M (slice Examples.ramp 8 (23 + 1)) /\
    Aggregator.is_max_of Miir (slice Examples.ramp 8 (23 + 1)) /\
    Aggregator.m_wfMaxBuf r 1 = std_max M flt_min /\
    Aggregator.m_fftMaxBuf r 1 = std_max Miir flt_min /\
    Aggregator.m_wfAvgBuf r 1 =
      std_max (Aggregator.run_sum (Examples.ramp 8) (slice Examples.ramp (8 + 1) (23 + 1))
               / of_int (23 - 8 + 1))%fl flt_min /\
    Aggregator.m_fftAvgBuf r 1 =
      std_max (Aggregator.run_sum (Examples.ramp 8) (slice Examples.ramp (8 + 1) (23 + 1))
               / of_int (23 - 8 + 1))%fl flt_min.
Proof.
  apply (proj1 oversampled_column_statistics Examples.log10f_at_1 128
           Examples.view_64_on_4 (Examples.display PLOT_MODE_MAX) true
           Examples.ramp Examples.ramp (Examples.bufs_of (B32.of_Z 0) false) 1 8 23).
  - vm_compute. reflexivity.
  - apply column_bins_check_sound. vm_compute. reflexivity.
  - intros i Hi. split; apply nonneg_not_nan, ramp_nonneg; lia.
Defined.

(** The frames on which the statement of the specification does not hold:
    a flat spectrum at [0.1f], sixteen bins to a column, whose stored mean
    is one unit in the last place above the stored maximum; and a view whose
    bins are more than a pixel wide, where no bin falls in column 50 and the
    column keeps what it held. *)
Lemma oversampled_avg_above_max_and_gap :
  let r := Draw.aggregate Examples.log10f_at_1 128 Examples.view_64_on_4
             (Examples.display PLOT_MODE_MAX) true
             Examples.flat_tenth Examples.flat_tenth
             (Examples.bufs_of (B32.of_Z 0) false) in
  let r' := Draw.aggregate Examples.log10f_at_1 128 Examples.view_zoomed
              (Examples.display PLOT_MODE_MAX) true Examples.ramp Examples.ramp
              (Examples.bufs_of (B32.of_Z (-1)) false) in
  (Draw.oversampled Examples.view_64_on_4 = true /\
   Draw.xmin Examples.view_64_on_4 <= 1 < Draw.xmax Examples.view_64_on_4 /\
   Aggregator.m_wfMaxBuf r 1 = float_literal 1 10 /\
   SFltb (Aggregator.m_wfMaxBuf r 1) (Aggregator.m_wfAvgBuf r 1) = true /\
   SFltb (Aggregator.m_fftMaxBuf r 1) (Aggregator.m_fftAvgBuf r 1) = true) /\
  (Draw.oversampled Examples.view_zoomed = true /\
   Draw.xmin Examples.view_zoomed <= 50 < Draw.xmax Examples.view_zoomed /\
   Aggregator.m_wfMaxBuf r' 50 = B32.of_Z (-1) /\
   Aggregator.m_wfAvgBuf r' 50 = B32.of_Z (-1) /\
   Aggregator.m_fftMaxBuf r' 50 = B32.of_Z (-1) /\
   Aggregator.m_fftAvgBuf r' 50 = B32.of_Z (-1)).
Proof.
  cbv zeta. split.
  - split; [vm_compute; reflexivity|].
    split; [split; [apply Z.leb_le | apply Z.ltb_lt]; vm_compute; reflexivity|].
    repeat split; vm_compute; reflexivity.
  - split; [vm_compute; reflexivity|].
    split; [split; [apply Z.leb_le | apply Z.ltb_lt]; vm_compute; reflexivity|].
    repeat split; vm_compute; reflexivity.
Qed.

(** C4 (as amended).  Oversampled pass, column [c] with bins [a..b] that
    the opening flush does not touch: the max hold becomes [newPeak] when
    the max-hold buffer was marked invalid and [std::max(old, newPeak)] when
    valid, where [newPeak] is the column's IIR avg in AVG mode and its IIR
    max otherwise; the min hold becomes [newMin], resp.
    [std::min(old, newMin)], where [newMin] is the IIR max in MAX mode and
    the IIR avg otherwise; both flags are true after the pass.
    Undersampled pass, column [x] of [xmin, xmax): the same rule with the
    single IIR sample of the column as reference. *)
Theorem hold_update_rule :
  (forall (log10f : spec_float -> spec_float) (MAX_HISTOGRAM_SIZE : Z)
          (v : Draw.View) (d : Draw.Display) (newData : bool)
          (m_fftData m_fftIIR : Z -> spec_float) (b0 : Aggregator.Bufs)
          (c a b : Z),
     let fr := Draw.frame MAX_HISTOGRAM_SIZE v d newData m_fftData m_fftIIR in
     Draw.oversampled v = true ->
     Aggregator.column_bins fr c a b ->
     Aggregator.clean_start fr c ->
     let r := Draw.aggregate log10f MAX_HISTOGRAM_SIZE v d newData
                m_fftData m_fftIIR b0 in
     let newPeak := if Aggregator.peakIsAverage fr
                    then Aggregator.m_fftAvgBuf r c else Aggregator.m_fftMaxBuf r c in
     let newMin := if Aggregator.minIsAverage fr
                   then Aggregator.m_fftAvgBuf r c else Aggregator.m_fftMaxBuf r c in
     Aggregator.m_fftMaxHoldBuf r c =
       (if Aggregator.m_MaxHoldValid b0
        then std_max (Aggregator.m_fftMaxHoldBuf b0 c) newPeak else newPeak) /\
     Aggregator.m_fftMinHoldBuf r c =
       (if Aggregator.m_MinHoldValid b0
        then std_min (Aggregator.m_fftMinHoldBuf b0 c) newMin else newMin) /\
     Aggregator.m_MaxHoldValid r = true /\ Aggregator.m_MinHoldValid r = true) /\
  (forall (log10f : spec_float -> spec_float) (MAX_HISTOGRAM_SIZE : Z)
          (v : Draw.View) (d : Draw.Display) (newData : bool)
          (m_fftData m_fftIIR : Z -> spec_float) (b0 : Aggregator.Bufs) (x : Z),
     Draw.oversampled v = false ->
     Draw.xmin v <= x < Draw.xmax v ->
     let r := Draw.aggregate log10f MAX_HISTOGRAM_SIZE v d newData
                m_fftData m_fftIIR b0 in
     let viir := Aggregator.m_fftMaxBuf r x in
     Aggregator.m_fftAvgBuf r x = viir /\
     Aggregator.m_fftMaxHoldBuf r x =
       (if Aggregator.m_MaxHoldValid b0
        then std_max (Aggregator.m_fftMaxHoldBuf b0 x) viir else viir) /\
     Aggregator.m_fftMinHoldBuf r x =
       (if Aggregator.m_MinHoldValid b0
        then std_min (Aggregator.m_fftMinHoldBuf b0 x) viir else viir)).
Proof.
  split.
  - intros log10f MAXH v d newData data iir b0 c a b fr Hov Hb Hc r. subst r.
    rewrite draw_aggregate_over by exact Hov. fold fr.
    destruct (aggregate_true_column log10f b0 Hb) as (_ & _ & E3 & E4 & Hcol & F1 & F2).
    specialize (Hcol Hc). cbv zeta in *.
    unfold Aggregator.column, Aggregator.run_column in Hcol.
    injection Hcol as _ _ _ _ Hmx Hmn.
    change (Aggregator.aggregate_over log10f fr (Aggregator.clear_histogram fr b0))
      with (Aggregator.aggregate log10f true fr b0) in Hmx, Hmn.
    rewrite Hmx, Hmn, E3, E4, <- peak_reference_spec, <- min_reference_spec.
    unfold Aggregator.hold_max, Aggregator.hold_min.
    repeat split; assumption.
  - intros log10f MAXH v d newData data iir b0 x Hov Hx r. subst r.
    rewrite draw_aggregate_under by exact Hov.
    pose proof (aggregate_false_column log10f
                  (Draw.frame MAXH v d newData data iir) b0 Hx) as H.
    unfold Aggregator.column in H. cbv zeta in *.
    injection H as _ _ H3 H4 Hmx Hmn.
    unfold Aggregator.aggregate.
    rewrite H3, H4, Hmx, Hmn.
    unfold Aggregator.hold_max, Aggregator.hold_min.
    repeat split; reflexivity.
Qed.

Lemma hold_update_rule_witness :
  let fr := Draw.frame 128 Examples.view_64_on_4 (Examples.display PLOT_MODE_AVG)
              true Examples.ramp Examples.ramp in
  let b0 := Examples.bufs_of (B32.of_Z 12) true in
  let r := Draw.aggregate Examples.log10f_at_1 128 Examples.view_64_on_4
             (Examples.display PLOT_MODE_AVG) true Examples.ramp Examples.ramp b0 in
  let newPeak := if Aggregator.peakIsAverage fr
                 then Aggregator.m_fftAvgBuf r 1 else Aggregator.m_fftMaxBuf r 1 in
  let newMin := if Aggregator.minIsAverage fr
                then Aggregator.m_fftAvgBuf r 1 else Aggregator.m_fftMaxBuf r 1 in
  Aggregator.m_fftMaxHoldBuf r 1 =
    (if Aggregator.m_MaxHoldValid b0
     then std_max (Aggregator.m_fftMaxHoldBuf b0 1) newPeak else newPeak) /\
  Aggregator.m_fftMinHoldBuf r 1 =
    (if Aggregator.m_MinHoldValid b0
     then std_min (Aggregator.m_fftMinHoldBuf b0 1) newMin else newMin) /\
  Aggregator.m_MaxHoldValid r = true /\ Aggregator.m_MinHoldValid r = true.
Proof.
  apply (proj1 hold_update_rule Examples.log10f_at_1 128 Examples.view_64_on_4
           (Examples.display PLOT_MODE_AVG) true Examples.ramp Examples.ramp
           (Examples.bufs_of (B32.of_Z 12) true) 1 8 23).
  - vm_compute. reflexivity.
  - apply column_bins_check_sound. vm_compute. reflexivity.
  - right. vm_compute. discriminate.
Defined.

(** Two frames on which the statement of the specification does not
    hold.  In FILLED mode the two holds do not follow one reference: from
    buffers marked invalid, column 1 (bins [8..23] holding [8..23]) gets the
    IIR max 23 as max hold and the IIR avg 15.5 as min hold.  And a full
    pass in the undersampled regime (1024 bins on 2048 pixels) that starts
    with the hold buffers marked invalid ends with them marked invalid. *)
Lemma hold_references_and_flags :
  let r := Draw.aggregate Examples.log10f_at_1 128 Examples.view_64_on_4
             (Examples.display PLOT_MODE_FILLED) true Examples.ramp Examples.ramp
             (Examples.bufs_of (B32.of_Z 0) false) in
  let r' := Draw.aggregate Examples.log10f_at_1 128 Examples.view_1024_on_2048
              (Examples.display PLOT_MODE_MAX) true Examples.ramp Examples.ramp
              (Examples.bufs_of (B32.of_Z 0) false) in
  (Draw.oversampled Examples.view_64_on_4 = true /\
   Aggregator.m_fftMaxBuf r 1 = B32.of_Z 23 /\
   Aggregator.m_fftAvgBuf r 1 = float_literal 31 2 /\
   Aggregator.m_fftMaxHoldBuf r 1 = B32.of_Z 23 /\
   Aggregator.m_fftMinHoldBuf r 1 = float_literal 31 2) /\
  (Draw.oversampled Examples.view_1024_on_2048 = false /\
   Aggregator.m_MaxHoldValid r' = false /\
   Aggregator.m_MinHoldValid r' = false).
Proof.
  cbv zeta. split; repeat split; vm_compute; reflexivity.
Qed.

(** The flags outside the oversampled pass: an undersampled pass leaves
    them as they were, and drawing the plot sets the flag of each hold
    trace that is active. *)
Lemma hold_flags_elsewhere
  (log10f : spec_float -> spec_float) (fr : Aggregator.Frame)
  (b : Aggregator.Bufs) (m_MaxHoldActive m_MinHoldActive : bool) :
  let r := Aggregator.aggregate log10f false fr b in
  let r' := Aggregator.draw_holds true m_MaxHoldActive m_MinHoldActive b in
  (Aggregator.m_MaxHoldValid r = Aggregator.m_MaxHoldValid b /\
   Aggregator.m_MinHoldValid r = Aggregator.m_MinHoldValid b) /\
  (Aggregator.m_MaxHoldValid r' = (m_MaxHoldActive || Aggregator.m_MaxHoldValid b) /\
   Aggregator.m_MinHoldValid r' = (m_MinHoldActive || Aggregator.m_MinHoldValid b)).
Proof.
  cbv zeta. split; [apply aggregate_false_flags|split; reflexivity].
Qed.

(** C9 (as amended).  After the pass, whatever the flags were before it
    (a buffer marked valid holding no NaN): in the oversampled regime, for a
    column [c] with non-negative IIR bins [a..b], min hold <= [newMin] and
    [newPeak] <= max hold for the references of the mode rule, and outside
    AVG mode every IIR sample of the column is <= the max hold; in the
    undersampled regime min hold <= the column's IIR sample <= max hold. *)
Theorem holds_bracket_reference :
  (forall (log10f : spec_float -> spec_float) (MAX_HISTOGRAM_SIZE : Z)
          (v : Draw.View) (d : Draw.Display) (newData : bool)
          (m_fftData m_fftIIR : Z -> spec_float) (b0 : Aggregator.Bufs)
          (c a b : Z),
     let fr := Draw.frame MAX_HISTOGRAM_SIZE v d newData m_fftData m_fftIIR in
     Draw.oversampled v = true ->
     Aggregator.column_bins fr c a b ->
     Aggregator.clean_start fr c ->
     b - a + 1 < 2 ^ 24 ->
     (forall i, a <= i <= b -> nonneg (m_fftIIR i) = true) ->
     (Aggregator.m_MaxHoldValid b0 = true ->
      is_nan (Aggregator.m_fftMaxHoldBuf b0 c) = false) ->
     (Aggregator.m_MinHoldValid b0 = true ->
      is_nan (Aggregator.m_fftMinHoldBuf b0 c) = false) ->
     let r := Draw.aggregate log10f MAX_HISTOGRAM_SIZE v d newData
                m_fftData m_fftIIR b0 in
     let newPeak := if Aggregator.peakIsAverage fr
                    then Aggregator.m_fftAvgBuf r c else Aggregator.m_fftMaxBuf r c in
     let newMin := if Aggregator.minIsAverage fr
                   then Aggregator.m_fftAvgBuf r c else Aggregator.m_fftMaxBuf r c in
     (Aggregator.m_fftMinHoldBuf r c <=? newMin)%fl = true /\
     (newPeak <=? Aggregator.m_fftMaxHoldBuf r c)%fl = true /\
     (Aggregator.peakIsAverage fr = false ->
      forall i, a <= i <= b ->
        (m_fftIIR i <=? Aggregator.m_fftMaxHoldBuf r c)%fl = true)) /\
  (forall (log10f : spec_float -> spec_float) (MAX_HISTOGRAM_SIZE : Z)
          (v : Draw.View) (d : Draw.Display) (newData : bool)
          (m_fftData m_fftIIR : Z -> spec_float) (b0 : Aggregator.Bufs) (x : Z),
     let fr := Draw.frame MAX_HISTOGRAM_SIZE v d newData m_fftData m_fftIIR in
     Draw.oversampled v = false ->
     Draw.xmin v <= x < Draw.xmax v ->
     is_nan (m_fftIIR (Aggregator.nearest_bin fr x)) = false ->
     (Aggregator.m_MaxHoldValid b0 = true ->
      is_nan (Aggregator.m_fftMaxHoldBuf b0 x) = false) ->
     (Aggregator.m_MinHoldValid b0 = true ->
      is_nan (Aggregator.m_fftMinHoldBuf b0 x) = false) ->
     let r := Draw.aggregate log10f MAX_HISTOGRAM_SIZE v d newData
                m_fftData m_fftIIR b0 in
     let viir := m_fftIIR (Aggregator.nearest_bin fr x) in
     (Aggregator.m_fftMinHoldBuf r x <=? viir)%fl = true /\
     (viir <=? Aggregator.m_fftMaxHoldBuf r x)%fl = true).
Proof.
  split.
  - intros log10f MAXH v d newData data iir b0 c a b fr Hov Hb Hc Hn Hpos Hmx0 Hmn0 r.
    subst r. rewrite draw_aggregate_over by exact Hov. fold fr.
    destruct (aggregate_true_column log10f b0 Hb) as (_ & _ & E3 & E4 & Hcol & _).
    specialize (Hcol Hc). cbv zeta in *.
    unfold Aggregator.column, Aggregator.run_column in Hcol.
    injection Hcol as _ _ _ _ Hmx Hmn.
    change (Aggregator.aggregate_over log10f fr (Aggregator.clear_histogram fr b0))
      with (Aggregator.aggregate log10f true fr b0) in Hmx, Hmn.
    assert (Hab : a <= b) by (destruct Hb as (_ & H & _); exact H).
    pose proof (nonneg_col_max iir Hpos Hab) as NM.
    pose proof (nonneg_col_avg iir Hpos Hab Hn) as NA.
    rewrite Hmx, Hmn, E3, E4, <- peak_reference_spec, <- min_reference_spec.
    change (Aggregator.m_fftIIR fr) with iir.
    assert (NP : is_nan (Aggregator.peak_reference (Aggregator.m_PlotMode fr)
                           (Aggregator.col_max iir a b) (Aggregator.col_avg iir a b)) = false).
    { apply nonneg_not_nan. destruct (Aggregator.m_PlotMode fr); assumption. }
    assert (NQ : is_nan (Aggregator.min_reference (Aggregator.m_PlotMode fr)
                           (Aggregator.col_max iir a b) (Aggregator.col_avg iir a b)) = false).
    { apply nonneg_not_nan. destruct (Aggregator.m_PlotMode fr); assumption. }
    split; [apply hold_min_le; assumption|].
    split; [apply hold_max_ge; assumption|].
    intros Hmode i Hi.
    assert (EP : Aggregator.peak_reference (Aggregator.m_PlotMode fr)
                   (Aggregator.col_max iir a b) (Aggregator.col_avg iir a b)
                 = Aggregator.col_max iir a b).
    { rewrite peak_reference_spec, Hmode. reflexivity. }
    destruct (@col_max_is_max _ _ _ iir a b Hab) as (M & [HM1 HM2] & EM).
    { intros k Hk. apply nonneg_not_nan, Hpos, Hk. }
    apply fleb_trans with (b := M).
    { apply HM2. apply in_slice. exists i. split; [lia|reflexivity]. }
    apply fleb_trans with (b := Aggregator.col_max iir a b).
    { rewrite EM. apply std_max_ge_l.
      apply in_slice in HM1. destruct HM1 as (k & Hk & ->).
      apply nonneg_not_nan, Hpos. lia. }
    rewrite <- EP at 1. apply hold_max_ge; assumption.
  - intros log10f MAXH v d newData data iir b0 x fr Hov Hx Hn Hmx0 Hmn0 r viir.
    subst r. rewrite draw_aggregate_under by exact Hov. fold fr.
    pose proof (aggregate_false_column log10f fr b0 Hx) as H.
    unfold Aggregator.column in H. cbv zeta in H.
    injection H as _ _ _ _ Hmx Hmn.
    change (Aggregator.aggregate_under log10f fr (Aggregator.clear_histogram fr b0))
      with (Aggregator.aggregate log10f false fr b0) in Hmx, Hmn.
    rewrite Hmx, Hmn. change (Aggregator.m_fftIIR fr) with iir. fold viir.
    split; [apply hold_min_le|apply hold_max_ge]; assumption.
Qed.

Lemma holds_bracket_reference_witness :
  let fr := Draw.frame 128 Examples.view_64_on_4 (Examples.display PLOT_MODE_MAX)
              true Examples.ramp Examples.ramp in
  let b0 := Examples.bufs_of (B32.of_Z 12) true in
  let r := Draw.aggregate Examples.log10f_at_1 128 Examples.view_64_on_4
             (Examples.display PLOT_MODE_MAX) true Examples.ramp Examples.ramp b0 in
  let newPeak := if Aggregator.peakIsAverage fr
                 then Aggregator.m_fftAvgBuf r 1 else Aggregator.m_fftMaxBuf r 1 in
  let newMin := if Aggregator.minIsAverage fr
                then Aggregator.m_fftAvgBuf r 1 else Aggregator.m_fftMaxBuf r 1 in
  (Aggregator.m_fftMinHoldBuf r 1 <=? newMin)%fl = true /\
  (newPeak <=? Aggregator.m_fftMaxHoldBuf r 1)%fl = true /\
  (Aggregator.peakIsAverage fr = false ->
   forall i, 8 <= i <= 23 ->
     (Examples.ramp i <=? Aggregator.m_fftMaxHoldBuf r 1)%fl = true).
Proof.
  apply (proj1 holds_bracket_reference Examples.log10f_at_1 128 Examples.view_64_on_4
           (Examples.display PLOT_MODE_MAX) true Examples.ramp Examples.ramp
           (Examples.bufs_of (B32.of_Z 12) true) 1 8 23).
  - vm_compute. reflexivity.
  - apply column_bins_check_sound. vm_compute. reflexivity.
  - right. vm_compute. discriminate.
  - vm_compute. reflexivity.
  - intros i Hi. apply ramp_nonneg. lia.
  - intros _. vm_compute. reflexivity.
  - intros _. vm_compute. reflexivity.
Defined.

(** A frame on which the holds do not bracket the samples: sixteen bins
    [8..23] to column 1 holding the values [8..23], in AVG mode, both hold
    buffers valid and holding 15.  After the pass the max hold of the column
    is the mean 15.5, below the sample 23, and the min hold is 15, above the
    sample 8. *)
Lemma holds_do_not_bracket_samples :
  let b0 := Examples.bufs_of (B32.of_Z 15) true in
  let r := Draw.aggregate Examples.log10f_at_1 128 Examples.view_64_on_4
             (Examples.display PLOT_MODE_AVG) true Examples.ramp Examples.ramp b0 in
  Draw.oversampled Examples.view_64_on_4 = true /\
  Draw.xmin Examples.view_64_on_4 <= 1 < Draw.xmax Examples.view_64_on_4 /\
  Aggregator.column_of
    (Draw.frame 128 Examples.view_64_on_4 (Examples.display PLOT_MODE_AVG)
       true Examples.ramp Examples.ramp) 8 = 1 /\
  Aggregator.column_of
    (Draw.frame 128 Examples.view_64_on_4 (Examples.display PLOT_MODE_AVG)
       true Examples.ramp Examples.ramp) 23 = 1 /\
  Aggregator.m_MaxHoldValid r = true /\ Aggregator.m_MinHoldValid r = true /\
  Aggregator.m_fftMaxHoldBuf r 1 = float_literal 31 2 /\
  Aggregator.m_fftMinHoldBuf r 1 = B32.of_Z 15 /\
  SFltb (Aggregator.m_fftMaxHoldBuf r 1) (Examples.ramp 23) = true /\
  SFltb (Examples.ramp 8) (Aggregator.m_fftMinHoldBuf r 1) = true.
Proof.
  cbv zeta.
  split; [vm_compute; reflexivity|].
  split; [split; [apply Z.leb_le | apply Z.ltb_lt]; vm_compute; reflexivity|].
  repeat split; vm_compute; reflexivity.
Qed.

(** ** The histogram grid of a pass *)

Lemma for_loop_fold (S X : Type) (g : S -> X) (step : Z -> X -> X)
  (body : Z -> S -> S) :
  (forall i s, g (body i s) = step i (g s)) ->
  forall n lo s,
    g (for_loop n lo body s) =
    fold_left (fun x i => step i x)
              (map (fun k => lo + Z.of_nat k) (seq 0 n)) (g s).
Proof.
  intros Hg. induction n as [|n IH]; intros lo s; [reflexivity|].
  simpl. rewrite IH, Hg, Z.add_0_r. f_equal.
  rewrite <- seq_shift, map_map. apply map_ext. intros k. lia.
Qed.

Lemma for_range_fold (S X : Type) (g : S -> X) (step : Z -> X -> X)
  (body : Z -> S -> S) lo hi s :
  (forall i s, g (body i s) = step i (g s)) ->
  g (for_range lo hi body s) =
  fold_left (fun x i => step i x) (indices lo hi) (g s).
Proof. intros Hg. unfold for_range, indices. apply for_loop_fold. exact Hg. Qed.

Section HistogramGrid.
Context {F : Type} {A : Arith F}.
Variable log10f : F -> F.
Import Aggregator.






(** With the histogram disabled the grid is left alone. *)
Lemma aggregate_histogram_off oversampled fr (b : Bufs) :
  doHistogram fr = false ->
  m_histogram (aggregate log10f oversampled fr b) = m_histogram b.
Proof.
  intros Hd. unfold aggregate, clear_histogram. rewrite Hd.
  destruct oversampled.
  - unfold aggregate_over.
    pose proof (@for_range_fold _ _ (fun s : Acc * Bufs => m_histogram (snd s))
                  (fun _ h => h)
                  (over_body log10f fr) (minbin fr) (maxbin fr + 1) (acc0 fr, b)) as H.
    destruct (for_range _ _ _ _) as [a' b']. simpl in H. simpl.
    rewrite H.
    + generalize (indices (minbin fr) (maxbin fr + 1)).
      intros l. induction l; simpl; auto.
    + intros i [a0 b0]. unfold over_body. rewrite Hd.
      destruct (negb _ || _); [reflexivity|]. destruct (negb _); reflexivity.
  - unfold aggregate_under.
    rewrite (@for_range_fold _ _ (fun s : Bufs => m_histogram s) (fun _ h => h)
               (under_body log10f fr) (xmin fr) (xmax fr) b).
    + generalize (indices (xmin fr) (xmax fr)).
      intros l. induction l; simpl; auto.
    + intros i s. unfold under_body. rewrite Hd. reflexivity.
Qed.

(** *** Where the increments land *)









End HistogramGrid.

(** *** The weight of a pass in exact arithmetic *)

Section ExactWeights.
Variable log10f : Q -> Q.
Import Aggregator.






End ExactWeights.




(** ** Multiplying by [1.0f] *)

Lemma of_Z_1 : B32.of_Z 1 = S754_finite false 8388608 (-23).
Proof. reflexivity. Qed.

Lemma mul_one_finite s m e :
  valid_binary 24 128 (S754_finite s m e) = true ->
  B32.mul (S754_finite s m e) (B32.of_Z 1) = S754_finite s m e.
Proof.
  intros Hv. rewrite of_Z_1. unfold B32.mul, SFmul.
  unfold valid_binary, bounded, canonical_mantissa in Hv.
  apply andb_true_iff in Hv. destruct Hv as [Hc Hb].
  apply Z.eqb_eq in Hc. apply Z.leb_le in Hb.
  rewrite Pos.mul_comm.
  change (8388608 * m)%positive with (Pos.iter xO m 23).
  replace (xorb s false) with s by (destruct s; reflexivity).
  unfold binary_round_aux, shr_fexp.
  unfold Zdigits2. rewrite digits2_pos_iter_xO.
  unfold B32.prec, B32.emax. zdef.
  assert (Hs : fexp 24 128 (Z.pos (digits2_pos m + 23) + (e + -23)) - (e + -23) = 23).
  { replace (Z.pos (digits2_pos m + 23) + (e + -23))
      with (Z.pos (digits2_pos m) + e) by lia.
    rewrite Hc. lia. }
  rewrite Hs.
  cbn -[Z.add Z.sub fexp Z.leb]. zdef.
  replace (e + -23 + 23) with e by lia.
  rewrite Hc. replace (e - e) with 0 by lia.
  cbn -[Z.add Z.sub fexp Z.leb].
  replace (e <=? 128 - 24) with true by (symmetry; apply Z.leb_le; lia).
  reflexivity.
Qed.

Lemma mul_one (x : spec_float) :
  valid_binary 24 128 x = true -> (x * of_int 1)%fl = x.
Proof.
  destruct x as [s|s| |s m e]; intros Hv.
  - destruct s; reflexivity.
  - destruct s; reflexivity.
  - reflexivity.
  - apply mul_one_finite. exact Hv.
Qed.

(** ** The waterfall line *)

Section WaterfallFacts.
Variable log10f : spec_float -> spec_float.
Variable MAX_SCREENSIZE : Z.
Import Waterfall.


Lemma accumulate_max cfg npts ds st i :
  manual cfg = true -> max_mode cfg = true ->
  m_wfbuf (accumulate cfg npts ds st) i =
  if (0 <=? i) && (i <? npts) then std_max (m_wfbuf st i) (ds i) else m_wfbuf st i.
Proof.
  intros Hm Hx. unfold accumulate. rewrite Hm, Hx. simpl.
  now rewrite (for_range_pointwise (fun i m => upd m i (std_max (m i) (ds i)))
                 (fun i x => std_max x (ds i))).
Qed.

Lemma clearWaterfallBuf_spec m i :
  clearWaterfallBuf MAX_SCREENSIZE m i =
  if (0 <=? i) && (i <? MAX_SCREENSIZE) then of_int 0 else m i.
Proof.
  unfold clearWaterfallBuf.
  now rewrite (for_range_pointwise (fun i m => upd m i (of_int 0))
                 (fun _ _ => of_int 0)).
Qed.

(** A loop writing cell [i + off] at iteration [i]. *)
Lemma for_loop_shifted (V : Type) (g : Z -> V) off :
  forall n lo (m : Z -> V) j,
    for_loop n lo (fun i row => upd row (i + off) (g (i + off))) m j =
    if (lo + off <=? j) && (j <? lo + off + Z.of_nat n) then g j else m j.
Proof.
  induction n as [|n IH]; intros lo m j.
  - simpl. zbool.
  - simpl for_loop. rewrite IH. unfold upd.
    destruct (Z.eqb_spec j (lo + off)) as [->|Hne]; zbool.
Qed.

Lemma new_row_spec cfg st ds xmin npts ix :
  new_row log10f cfg st ds xmin npts ix =
  if (xmin <=? ix) && (ix <? xmin + npts)
  then Colormap.rgb (m_ColorTbl cfg (255 - cidx log10f cfg (line_value cfg st ds ix)))
  else 0.
Proof.
  unfold new_row, for_range.
  rewrite (for_loop_shifted
             (fun ix => Colormap.rgb
                          (m_ColorTbl cfg (255 - cidx log10f cfg (line_value cfg st ds ix))))
             xmin).
  zbool.
Qed.

Lemma run_app cfg xmin xmax l1 : forall l2 st,
  run log10f MAX_SCREENSIZE cfg xmin xmax (l1 ++ l2) st =
  run log10f MAX_SCREENSIZE cfg xmin xmax l2
    (run log10f MAX_SCREENSIZE cfg xmin xmax l1 st).
Proof.
  induction l1 as [|[t b] l1 IH]; intros l2 st; [reflexivity|].
  simpl. apply IH.
Qed.

(** While no line is due the frames are folded into the accumulator. *)
Lemma run_quiet cfg xmin xmax frames : forall st ix,
  manual cfg = true -> max_mode cfg = true ->
  quiet log10f MAX_SCREENSIZE cfg xmin xmax frames st = true ->
  0 <= ix < xmax - xmin ->
  m_wfbuf (run log10f MAX_SCREENSIZE cfg xmin xmax frames st) ix =
  folded_max cfg frames (m_wfbuf st ix) ix.
Proof.
  induction frames as [|[t b] rest IH]; intros st ix Hm Hx Hq Hi; [reflexivity|].
  simpl in Hq. apply andb_true_iff in Hq. destruct Hq as [Hd Hq].
  apply negb_true_iff in Hd.
  simpl Waterfall.run. rewrite (IH _ ix Hm Hx Hq Hi).
  unfold folded_max. simpl fold_left. f_equal.
  unfold Waterfall.step. cbv zeta. rewrite Hd.
  rewrite accumulate_max by assumption.
  now rewrite in_range_true by lia.
Qed.

Lemma lineFactor_max cfg st :
  max_mode cfg = true -> lineFactor cfg st = of_int 1.
Proof. intros H. unfold lineFactor. rewrite H, andb_false_r. reflexivity. Qed.

End WaterfallFacts.


Lemma std_max_valid (x y : spec_float) :
  valid_binary 24 128 x = true -> valid_binary 24 128 y = true ->
  valid_binary 24 128 (std_max x y) = true.
Proof. intros Hx Hy. unfold std_max. destruct (x <? y)%fl; assumption. Qed.

Lemma folded_max_valid cfg frames ix : forall m0,
  valid_binary 24 128 m0 = true ->
  (forall f, In f frames ->
     valid_binary 24 128 (Waterfall.dataSource cfg (snd f) ix) = true) ->
  valid_binary 24 128 (Waterfall.folded_max cfg frames m0 ix) = true.
Proof.
  induction frames as [|f rest IH]; intros m0 H0 H; [exact H0|].
  unfold Waterfall.folded_max in *. simpl. apply IH.
  - apply std_max_valid; [exact H0|apply H; left; reflexivity].
  - intros g Hg. apply H. right. exact Hg.
Qed.

(** C2 (as amended).  Manual span, max mode.  The frames [frames] are
    folded without a line falling due, and the line falls due on the frame
    [(tnow_ms, b)].  Then, for a column [ix] with [xmin <= ix < xmax - xmin],
    the pixel of the new top row is entry [255 - cidx] of the colour table,
    [cidx] being [clamp(qRound((m_WfMaxdB - 10 log10f(m)) * gain), 0, 255)]
    and [m] the running [std::max] of the accumulator's content before the
    frames and the data of the frames at [ix]; after the emission the
    accumulator is zero on [0, MAX_SCREENSIZE) and the frame count is zero. *)
Theorem waterfall_max_row
  (log10f : spec_float -> spec_float) (MAX_SCREENSIZE : Z)
  (cfg : Waterfall.Settings) (xmin xmax : Z)
  (frames : list (Z * Aggregator.Bufs)) (tnow_ms : Z) (b : Aggregator.Bufs)
  (st : Waterfall.State) (ix : Z) :
  Waterfall.manual cfg = true ->
  Waterfall.max_mode cfg = true ->
  Waterfall.quiet log10f MAX_SCREENSIZE cfg xmin xmax frames st = true ->
  Waterfall.due cfg
    (Waterfall.accumulate cfg (xmax - xmin) (Waterfall.dataSource cfg b)
       (Waterfall.run log10f MAX_SCREENSIZE cfg xmin xmax frames st))
    tnow_ms = true ->
  0 <= xmin <= ix -> ix < xmax - xmin ->
  valid_binary 24 128 (Waterfall.m_wfbuf st ix) = true ->
  (forall f, In f (frames ++ [(tnow_ms, b)]) ->
     valid_binary 24 128 (Waterfall.dataSource cfg (snd f) ix) = true) ->
  let st' := Waterfall.run log10f MAX_SCREENSIZE cfg xmin xmax
               (frames ++ [(tnow_ms, b)]) st in
  let m := Waterfall.folded_max cfg (frames ++ [(tnow_ms, b)])
             (Waterfall.m_wfbuf st ix) ix in
  let cidx := Z.max (Z.min (qRound ((Waterfall.m_WfMaxdB cfg
                                     - of_int 10 * log10f m)
                                    * Waterfall.wfdBGainFactor cfg)%fl) 255) 0 in
  Waterfall.top_row st' ix =
    Colormap.rgb (Waterfall.m_ColorTbl cfg (255 - cidx)) /\
  (forall j, 0 <= j < MAX_SCREENSIZE -> Waterfall.m_wfbuf st' j = of_int 0) /\
  Waterfall.wf_avg_count st' = 0.
Proof.
  intros Hm Hx Hq Hd Hi Hi' Hv0 Hv st' m cidx.
  pose proof (folded_max_valid cfg (frames ++ [(tnow_ms, b)]) ix _ Hv0 Hv) as Hvm.
  fold m in Hvm. subst st' cidx.
  rewrite run_app. simpl Waterfall.run.
  set (st1 := Waterfall.run log10f MAX_SCREENSIZE cfg xmin xmax frames st) in *.
  unfold Waterfall.step. cbv zeta. rewrite Hd.
  unfold Waterfall.top_row, Waterfall.emit. simpl.
  rewrite Hm. split; [|split].
  - rewrite new_row_spec. rewrite in_range_true by lia.
    unfold Waterfall.line_value. rewrite Hm.
    rewrite lineFactor_max by exact Hx.
    rewrite accumulate_max by assumption.
    rewrite in_range_true by lia.
    assert (Em : std_max (Waterfall.m_wfbuf st1 ix) (Waterfall.dataSource cfg b ix) = m).
    { subst m. unfold Waterfall.folded_max. rewrite fold_left_app. simpl fold_left.
      subst st1.
      rewrite (run_quiet log10f MAX_SCREENSIZE cfg xmin xmax frames st Hm Hx Hq) by lia.
      reflexivity. }
    rewrite Em, (mul_one m Hvm). reflexivity.
  - intros j Hj. rewrite clearWaterfallBuf_spec.
    now rewrite in_range_true by lia.
  - reflexivity.
Qed.

Lemma waterfall_max_row_witness :
  let st' := Waterfall.run Examples.log10f_at_0_1 16384 Examples.wf_settings 0 4
               (Examples.wf_first ++ [(120, Examples.wf_last)]) Examples.wf_state in
  let m := Waterfall.folded_max Examples.wf_settings
             (Examples.wf_first ++ [(120, Examples.wf_last)])
             (Waterfall.m_wfbuf Examples.wf_state 1) 1 in
  let cidx := Z.max (Z.min (qRound ((Waterfall.m_WfMaxdB Examples.wf_settings
                                     - of_int 10 * Examples.log10f_at_0_1 m)
                                    * Waterfall.wfdBGainFactor Examples.wf_settings)%fl)
                           255) 0 in
  Waterfall.top_row st' 1 =
    Colormap.rgb (Waterfall.m_ColorTbl Examples.wf_settings (255 - cidx)) /\
  (forall j, 0 <= j < 16384 -> Waterfall.m_wfbuf st' j = of_int 0) /\
  Waterfall.wf_avg_count st' = 0.
Proof.
  apply (@waterfall_max_row Examples.log10f_at_0_1 16384 Examples.wf_settings 0 4
           Examples.wf_first 120 Examples.wf_last Examples.wf_state 1).
  - vm_compute. reflexivity.
  - vm_compute. reflexivity.
  - vm_compute. reflexivity.
  - vm_compute. reflexivity.
  - lia.
  - lia.
  - vm_compute. reflexivity.
  - intros f [<-|[<-|[]]]; vm_compute; reflexivity.
Defined.

(** The frames on which the statement of the specification does not hold.
    Two frames, a flat 1 and then a flat 0, complete a line: the maximum of
    column 1 is 1, its index is [qRound((20 - 0) * 2.56) = 51], and the
    pixel is entry [255 - 51 = 204] of the table, not entry 51.  With the
    same frames on columns [2, 6) the accumulator of column 5 is never
    folded: its pixel is drawn from 0 (entry 255), although the maximum of
    the frames' data at column 5 is 1. *)
Lemma waterfall_entry_mirrored :
  let frames := Examples.wf_first ++ [(120, Examples.wf_last)] in
  let st' := Waterfall.run Examples.log10f_at_0_1 16384 Examples.wf_settings 0 4
               frames Examples.wf_state in
  let st'' := Waterfall.run Examples.log10f_at_0_1 16384 Examples.wf_settings 2 6
                frames Examples.wf_state in
  (Waterfall.manual Examples.wf_settings = true /\
   Waterfall.max_mode Examples.wf_settings = true /\
   Waterfall.folded_max Examples.wf_settings frames (of_int 0) 1 = B32.of_Z 1 /\
   Waterfall.cidx Examples.log10f_at_0_1 Examples.wf_settings (B32.of_Z 1) = 51 /\
   Waterfall.top_row st' 1 =
     Colormap.rgb (Waterfall.m_ColorTbl Examples.wf_settings 204) /\
   Waterfall.top_row st' 1 <>
     Colormap.rgb (Waterfall.m_ColorTbl Examples.wf_settings 51)) /\
  (Waterfall.folded_max Examples.wf_settings frames (of_int 0) 5 = B32.of_Z 1 /\
   Waterfall.top_row st'' 5 =
     Colormap.rgb (Waterfall.m_ColorTbl Examples.wf_settings 255) /\
   Waterfall.top_row st'' 5 <>
     Colormap.rgb (Waterfall.m_ColorTbl Examples.wf_settings 204)).
Proof.
  cbv zeta. split.
  - repeat split; try (vm_compute; reflexivity). vm_compute. discriminate.
  - repeat split; try (vm_compute; reflexivity). vm_compute. discriminate.
Qed.

(** ** The peak detector *)

Section PeakFacts.
Context {F : Type} {A : Arith F}.
Variable log10f : F -> F.
Variable pw : Z.
Import PeakDetect.

(** Pass 1: every column of its range gets its window mean, and is
    recorded exactly when it passes the test. *)
Lemma narrow_pass_spec (sc : Scale) (src : Z -> F) xmin npts (st : State) ix :
  let st' := narrow_pass log10f pw sc src xmin npts st in
  let inside := (xmin + pw <=? ix) && (ix <? xmin + (npts - pw)) in
  m_peakSmoothBuf st' ix =
    (if inside then narrow_avg pw src ix else m_peakSmoothBuf st ix) /\
  m_Peaks st' ix =
    (if inside && narrow_test pw src ix
     then Some (ordinate log10f sc (src ix)) else m_Peaks st ix).
Proof.
  cbv zeta. unfold narrow_pass.
  destruct (Z.le_gt_cases pw (npts - pw)) as [Hle|Hgt].
  - apply (for_range_ind
      (fun i s =>
         m_peakSmoothBuf s ix =
           (if (xmin + pw <=? ix) && (ix <? xmin + i)
            then narrow_avg pw src ix else m_peakSmoothBuf st ix) /\
         m_Peaks s ix =
           (if (xmin + pw <=? ix) && (ix <? xmin + i) && narrow_test pw src ix
            then Some (ordinate log10f sc (src ix)) else m_Peaks st ix))
      (narrow_body log10f pw sc src xmin) st Hle).
    + replace ((xmin + pw <=? ix) && (ix <? xmin + pw)) with false
        by (symmetry; apply andb_false_iff; zbool). split; reflexivity.
    + intros i s Hi [H1 H2]. unfold narrow_body. simpl. unfold upd.
      destruct (Z.eqb_spec ix (i + xmin)) as [->|Hne].
      * rewrite (@in_range_true (xmin + pw) (xmin + (i + 1)) (i + xmin)) by lia.
        split; [reflexivity|].
        simpl. destruct (narrow_test pw src (i + xmin)) eqn:E.
        -- now rewrite Z.eqb_refl.
        -- rewrite H2.
           replace ((xmin + pw <=? i + xmin) && (i + xmin <? xmin + i)) with false
             by (symmetry; apply andb_false_iff; zbool).
           reflexivity.
      * assert (Er : (xmin + pw <=? ix) && (ix <? xmin + (i + 1)) =
                     (xmin + pw <=? ix) && (ix <? xmin + i)).
        { f_equal. zbool. }
        rewrite Er. split; [exact H1|].
        destruct (narrow_test pw src (i + xmin)).
        -- apply Z.eqb_neq in Hne. rewrite Hne. exact H2.
        -- exact H2.
  - rewrite for_range_empty by lia.
    replace ((xmin + pw <=? ix) && (ix <? xmin + (npts - pw))) with false
      by (symmetry; apply andb_false_iff; zbool).
    split; reflexivity.
Qed.

(** [found_near] looks at the [2 pw + 1] keys around [ix]. *)
Lemma found_near_false (peaks : Z -> option F) ix :
  found_near pw peaks ix = false ->
  forall j, - pw <= j <= pw -> peaks (ix + j) = None.
Proof.
  unfold found_near.
  destruct (Z.le_gt_cases (- pw) (pw + 1)) as [Hle|Hgt]; [|intros _ j Hj; lia].
  intros H.
  assert (Hinv : for_range (- pw) (pw + 1)
                   (fun j found =>
                      found || match peaks (ix + j) with Some _ => true | None => false end)
                   false = false ->
                 forall j, - pw <= j < pw + 1 -> peaks (ix + j) = None).
  { apply (for_range_ind
      (fun i (found : bool) =>
         found = false -> forall j, - pw <= j < i -> peaks (ix + j) = None)
      (fun j found =>
         found || match peaks (ix + j) with Some _ => true | None => false end)
      false Hle).
    - intros _ j Hj. lia.
    - intros i found Hi IH Hf j Hj.
      apply orb_false_iff in Hf. destruct Hf as [Hf1 Hf2].
      destruct (Z.eq_dec j i) as [->|Hne].
      + destruct (peaks (ix + i)); [discriminate|reflexivity].
      + apply IH; [exact Hf1|lia]. }
  intros j Hj. apply Hinv; [exact H|lia].
Qed.

(** Pass 2 leaves the smoothed curve and the peaks it found in place; a
    peak it adds passed the wide test at a column with no peak of pass 1
    within [pw] columns. *)
Lemma wide_pass_spec (sc : Scale) xmin npts (st : State) :
  0 <= pw ->
  let st' := wide_pass log10f pw sc xmin npts st in
  m_peakSmoothBuf st' = m_peakSmoothBuf st /\
  (forall x y, m_Peaks st x = Some y -> m_Peaks st' x = Some y) /\
  (forall x y, m_Peaks st' x = Some y ->
     m_Peaks st x = Some y \/
     (xmin + pw2 pw <= x < xmin + (npts - pw2 pw) /\
      wide_test pw (m_peakSmoothBuf st) x = true /\
      (forall j, - pw <= j <= pw -> m_Peaks st (x + j) = None))).
Proof.
  intros Hp. cbv zeta. unfold wide_pass.
  destruct (Z.le_gt_cases (pw2 pw) (npts - pw2 pw)) as [Hle|Hgt].
  - apply (for_range_ind
      (fun i s =>
         m_peakSmoothBuf s = m_peakSmoothBuf st /\
         (forall x y, m_Peaks st x = Some y -> m_Peaks s x = Some y) /\
         (forall x y, m_Peaks s x = Some y ->
            m_Peaks st x = Some y \/
            (xmin + pw2 pw <= x < xmin + i /\
             wide_test pw (m_peakSmoothBuf st) x = true /\
             (forall j, - pw <= j <= pw -> m_Peaks st (x + j) = None))))
      (wide_body log10f pw sc xmin) st Hle).
    + split; [reflexivity|]. split; [auto|]. intros x y H. left. exact H.
    + intros i s Hi (H1 & H2 & H3). unfold wide_body. simpl.
      split; [exact H1|].
      destruct (wide_test pw (m_peakSmoothBuf s) (i + xmin)
                && negb (found_near pw (m_Peaks s) (i + xmin))) eqn:E.
      * apply andb_true_iff in E. destruct E as [Ew Ef].
        apply negb_true_iff in Ef.
        pose proof (found_near_false _ _ Ef) as Hnone.
        assert (Hst : forall j, - pw <= j <= pw -> m_Peaks st (i + xmin + j) = None).
        { intros j Hj. specialize (Hnone j Hj).
          destruct (m_Peaks st (i + xmin + j)) as [y|] eqn:Ey; [|reflexivity].
          rewrite (H2 _ _ Ey) in Hnone. discriminate. }
        split.
        -- intros x y Hx. unfold upd.
           destruct (Z.eqb_spec x (i + xmin)) as [->|Hne]; [|auto].
           specialize (Hst 0 ltac:(lia)). rewrite Z.add_0_r in Hst. congruence.
        -- intros x y. unfold upd.
           destruct (Z.eqb_spec x (i + xmin)) as [->|Hne].
           ++ intros _. right. rewrite <- H1.
              split; [lia|]. split; [exact Ew|exact Hst].
           ++ intros Hx. destruct (H3 _ _ Hx) as [Hl|(Hr & Hw & Hn)]; [left; exact Hl|].
              right. split; [lia|]. split; assumption.
      * split; [exact H2|].
        intros x y Hx. destruct (H3 _ _ Hx) as [Hl|(Hr & Hw & Hn)]; [left; exact Hl|].
        right. split; [lia|]. split; assumption.
  - rewrite for_range_empty by lia.
    split; [reflexivity|]. split; [auto|]. intros x y H. left. exact H.
Qed.

End PeakFacts.

Section DetectFacts.
Context {F : Type} {A : Arith F}.
Variable log10f : F -> F.
Variable pw : Z.
Import PeakDetect.

(** One detection.  A column of [xmin + pw, xmin + npts - pw) that passes
    the narrow test is recorded; any other recorded column lies in the range
    of pass 2, passes the wide test on the smoothed curve and has no narrow
    peak within [pw] columns; the smoothed curve is the window mean of
    pass 1. *)
Lemma detect_spec (sc : Scale) (src : Z -> F) xmin npts (st : State) :
  0 <= pw ->
  let st' := detect log10f pw sc src xmin npts st in
  let narrow x :=
    (xmin + pw <=? x) && (x <? xmin + (npts - pw)) && narrow_test pw src x in
  (forall x, narrow x = true ->
     m_Peaks st' x = Some (ordinate log10f sc (src x))) /\
  (forall x y, m_Peaks st' x = Some y -> narrow x = false ->
     xmin + pw2 pw <= x < xmin + (npts - pw2 pw) /\
     wide_test pw (m_peakSmoothBuf st') x = true /\
     (forall j, - pw <= j <= pw -> narrow (x + j) = false)) /\
  (forall x, xmin + pw <= x < xmin + (npts - pw) ->
     m_peakSmoothBuf st' x = narrow_avg pw src x).
Proof.
  intros Hp st' narrow. subst st'. unfold detect.
  set (st0 := {| m_Peaks := fun _ => None; m_peakSmoothBuf := m_peakSmoothBuf st |}).
  set (st1 := narrow_pass log10f pw sc src xmin npts st0).
  destruct (wide_pass_spec log10f sc xmin npts st1 Hp) as (Hs & Hkeep & Hnew).
  assert (Hn : forall x, m_Peaks st1 x =
                         if narrow x then Some (ordinate log10f sc (src x)) else None).
  { intros x. apply (narrow_pass_spec log10f pw sc src xmin npts st0 x). }
  split; [|split].
  - intros x Hx. apply Hkeep. rewrite Hn, Hx. reflexivity.
  - intros x y Hy Hx. destruct (Hnew _ _ Hy) as [Hl|(Hr & Hw & Hnone)].
    + rewrite Hn, Hx in Hl. discriminate.
    + split; [exact Hr|]. split; [rewrite Hs; exact Hw|].
      intros j Hj. specialize (Hnone j Hj). rewrite Hn in Hnone.
      destruct (narrow (x + j)); [discriminate|reflexivity].
  - intros x Hx. rewrite Hs.
    destruct (narrow_pass_spec log10f pw sc src xmin npts st0 x) as [H _].
    fold st1 in H. rewrite H. now rewrite in_range_true by lia.
Qed.

End DetectFacts.

(** The scenario of the specification, with a half-width of 10: a spike of
    10 at column 100 of a baseline of 1 is recorded by pass 1, and pass 2
    records nothing else. *)
Lemma spike_detected_once :
  let st1 := PeakDetect.narrow_pass (fun x : spec_float => x) 10
               Examples.peak_scale Examples.spike 0 201 Examples.peak_state in
  let st := PeakDetect.detect (fun x : spec_float => x) 10
              Examples.peak_scale Examples.spike 0 201 Examples.peak_state in
  PeakDetect.narrow_test 10 Examples.spike 100 = true /\
  PeakDetect.recorded st1 0 201 = [100] /\
  PeakDetect.recorded st 0 201 = [100].
Proof. cbv zeta. repeat split; vm_compute; reflexivity. Qed.

(** C6.  The code on a plateau, with a half-width of 10: 201 columns, 128
    on columns [76, 124] and 3 elsewhere.  Pass 1 records no peak and
    smooths the plateau to a curve that is 128 at column 100, its maximum
    over the window [50, 150]; the window's minimum is 3 and its sum 6428,
    so its mean is 63.6 and the test of pass 1, carried to this window,
    holds: [128 > 2 * 63.6] and [128 > 4 * 3].  Pass 2 divides the sum by
    100, not by the 101 samples of the window, finds [128 > 2 * 64.28]
    false, and records nothing. *)
Theorem wide_pass_misses_plateau :
  let st1 := PeakDetect.narrow_pass (fun x : spec_float => x) 10
               Examples.peak_scale Examples.plateau 0 201 Examples.peak_state in
  let st := PeakDetect.detect (fun x : spec_float => x) 10
              Examples.peak_scale Examples.plateau 0 201 Examples.peak_state in
  let smooth := PeakDetect.m_peakSmoothBuf st1 in
  let wd := PeakDetect.window smooth 100 (PeakDetect.pw2 10) in
  PeakDetect.recorded st1 0 201 = [] /\
  smooth 100 = B32.of_Z 128 /\
  PeakDetect.maxV wd = B32.of_Z 128 /\
  PeakDetect.minV wd = B32.of_Z 3 /\
  PeakDetect.sumV wd = B32.of_Z 6428 /\
  PeakDetect.same_test_wide 10 smooth 100 = true /\
  PeakDetect.found_near 10 (PeakDetect.m_Peaks st1) 100 = false /\
  PeakDetect.wide_test 10 smooth 100 = false /\
  PeakDetect.recorded st 0 201 = [].
Proof. cbv zeta. repeat split; vm_compute; reflexivity. Qed.

(** ** Fixed-width integers *)

Lemma I64_wrap_small z : - 2 ^ 63 <= z < 2 ^ 63 -> I64.wrap z = z.
Proof.
  intros H. unfold I64.wrap. rewrite Z.mod_small by lia. lia.
Qed.

Lemma I64_wrap_range z : - 2 ^ 63 <= I64.wrap z < 2 ^ 63.
Proof.
  unfold I64.wrap. pose proof (Z.mod_pos_bound (z + 2 ^ 63) (2 ^ 64) ltac:(lia)). lia.
Qed.

Lemma I64_wrap_eqm z : (I64.wrap z) mod 2 ^ 64 = z mod 2 ^ 64.
Proof.
  unfold I64.wrap.
  replace ((z + 2 ^ 63) mod 2 ^ 64 - 2 ^ 63)
    with ((z + 2 ^ 63) mod 2 ^ 64 + (- 2 ^ 63)) by lia.
  rewrite Zplus_mod_idemp_l. f_equal. lia.
Qed.

Lemma I32_wrap_small z : - 2 ^ 31 <= z < 2 ^ 31 -> I32.wrap z = z.
Proof.
  intros H. unfold I32.wrap. rewrite Z.mod_small by lia. lia.
Qed.

(** ** Rounding a frequency *)

(** A frequency that is not negative is rounded to the nearest multiple of
    the resolution, a tie going up. *)
Lemma roundFreq_nonneg freq resolution :
  0 <= freq -> 0 < resolution -> freq + resolution < 2 ^ 63 ->
  Freq.roundFreq freq resolution
    = resolution * ((freq + resolution / 2) / resolution) /\
  - (resolution / 2) <= Freq.roundFreq freq resolution - freq <= resolution / 2.
Proof.
  intros Hf Hr Hb.
  pose proof (Z.div_pos resolution 2 ltac:(lia) ltac:(lia)) as Hd0.
  pose proof (Z.mod_pos_bound resolution 2 ltac:(lia)) as Hd2.
  pose proof (Z.div_mod resolution 2 ltac:(lia)) as Hd3.
  pose proof (Z.mod_pos_bound (freq + resolution / 2) resolution Hr) as Hm.
  pose proof (Z.div_mod (freq + resolution / 2) resolution ltac:(lia)) as Hq.
  assert (E : Freq.roundFreq freq resolution
              = freq - (freq + resolution / 2) mod resolution + resolution / 2).
  { unfold Freq.roundFreq.
    replace (0 <=? freq) with true by (symmetry; apply Z.leb_le; exact Hf).
    rewrite Z.quot_div_nonneg by lia.
    unfold I64.add, I64.sub.
    rewrite (@I64_wrap_small (freq + resolution / 2)) by lia.
    rewrite Z.rem_mod_nonneg by lia.
    rewrite !I64_wrap_small by (try rewrite I64_wrap_small by lia; lia).
    reflexivity. }
  rewrite E. split; lia.
Qed.

(** A negative frequency is rounded to a multiple of an even resolution
    that is never zero: frequencies below minus half the resolution go to
    the nearest multiple (a tie going down), the others to minus the
    resolution. *)
Lemma roundFreq_negative freq resolution :
  freq < 0 -> 0 < resolution -> resolution mod 2 = 0 ->
  - 2 ^ 63 + 2 * resolution <= freq ->
  let r := Freq.roundFreq freq resolution in
  r mod resolution = 0 /\ r <= - resolution /\
  (freq < - (resolution / 2) ->
   - (resolution / 2) <= r - freq < resolution / 2) /\
  (- (resolution / 2) <= freq -> r = - resolution).
Proof.
  intros Hf Hr He Hb r.
  pose proof (Z.div_mod resolution 2 ltac:(lia)) as Hd3.
  rewrite He in Hd3.
  assert (Hd0 : 0 < resolution / 2) by lia.
  set (d2 := resolution / 2) in *.
  assert (E : r = freq - Z.rem (freq + d2) resolution - d2).
  { subst r. unfold Freq.roundFreq.
    replace (0 <=? freq) with false by (symmetry; apply Z.leb_gt; exact Hf).
    rewrite Z.quot_div_nonneg by lia. fold d2.
    pose proof (Z.rem_bound_abs (freq + d2) resolution ltac:(lia)) as Hab.
    unfold I64.add, I64.sub.
    rewrite (@I64_wrap_small (freq + d2)) by lia.
    rewrite (@I64_wrap_small (freq - Z.rem (freq + d2) resolution)) by lia.
    rewrite I64_wrap_small by lia. reflexivity. }
  destruct (Z.le_gt_cases 0 (freq + d2)) as [Hc|Hc].
  - rewrite Z.rem_mod_nonneg in E by lia.
    rewrite Z.mod_small in E by lia.
    assert (Er : r = - resolution) by lia.
    split; [rewrite Er; apply Z.mod_opp_l_z; [lia|apply Z.mod_same; lia]|].
    split; [lia|]. split; [lia|]. intros _. exact Er.
  - assert (Ex : Z.rem (freq + d2) resolution = - ((- (freq + d2)) mod resolution)).
    { replace (freq + d2) with (- (- (freq + d2))) at 1 by lia.
      rewrite Z.rem_opp_l by lia. rewrite Z.rem_mod_nonneg by lia. reflexivity. }
    rewrite Ex in E.
    pose proof (Z.mod_pos_bound (- (freq + d2)) resolution Hr) as Hm.
    pose proof (Z.div_mod (- (freq + d2)) resolution ltac:(lia)) as Hq.
    pose proof (Z.div_pos (- (freq + d2)) resolution ltac:(lia) Hr) as Hq0.
    set (q := - (freq + d2) / resolution) in *.
    assert (Er : r = - (q + 1) * resolution) by lia.
    split; [rewrite Er; apply Z.mod_mul; lia|].
    split; [nia|]. split; [intros _; lia|]. intros H. lia.
Qed.

(** ** The demodulator's limits *)



(** ** Retuning *)


(** ** Grid divisions *)

Lemma nice_step_pos n : 0 <= n -> 0 < Grid.nice_step n.
Proof.
  intros Hn. unfold Grid.nice_step, Grid.stepTable.
  pose proof (Z.pow_pos_nonneg 10 (n / 3) ltac:(lia)
                (Z.div_pos n 3 Hn ltac:(lia))) as Hp.
  destruct (n mod 3 =? 0); [lia|]. destruct (n mod 3 =? 1); lia.
Qed.

Lemma nice_step_bounds n :
  0 <= n -> 10 ^ (n / 3) <= Grid.nice_step n <= 5 * 10 ^ (n / 3).
Proof.
  intros Hn. unfold Grid.nice_step, Grid.stepTable.
  pose proof (Z.pow_pos_nonneg 10 (n / 3) ltac:(lia)
                (Z.div_pos n 3 Hn ltac:(lia))) as Hp.
  destruct (n mod 3 =? 0); [lia|]. destruct (n mod 3 =? 1); lia.
Qed.

Lemma nice_step_small n : 0 <= n <= 30 -> Grid.nice_step n <= 5 * 10 ^ 10.
Proof.
  intros Hn. pose proof (nice_step_bounds (n := n) ltac:(lia)) as [_ H].
  assert (n / 3 <= 10) by (apply Z.div_le_upper_bound; lia).
  pose proof (Z.pow_le_mono_r 10 (n / 3) 10 ltac:(lia) ltac:(lia)). lia.
Qed.

Lemma nice_step_large n : 30 <= n -> 10 ^ 10 <= Grid.nice_step n.
Proof.
  intros Hn. pose proof (nice_step_bounds (n := n) ltac:(lia)) as [H _].
  assert (10 <= n / 3) by (apply Z.div_le_lower_bound; lia).
  pose proof (Z.pow_le_mono_r 10 10 (n / 3) ltac:(lia) ltac:(lia)). lia.
Qed.


Lemma quot_mul_bounds a b :
  0 < b ->
  (0 <= a -> a - b < Z.quot a b * b <= a) /\
  (a <= 0 -> a <= Z.quot a b * b < a + b).
Proof.
  intros Hb.
  pose proof (Z.quot_rem' a b) as Hq.
  split; intros Ha.
  - pose proof (Z.rem_bound_pos a b Ha Hb). lia.
  - pose proof (Z.rem_opp_l (- a) b ltac:(lia)) as Ho.
    rewrite Z.opp_involutive in Ho.
    pose proof (Z.rem_bound_pos (- a) b ltac:(lia) Hb) as Hp.
    lia.
Qed.

Section GridFacts.
Variables low high divswanted : Z.
Hypothesis Hlow : - 2 ^ 62 <= low.
Hypothesis Hhigh : high <= 2 ^ 62.
Hypothesis Hspan : 0 <= high - low < 2 ^ 31.
Hypothesis Hwanted : 0 < divswanted.

Lemma loop_inv_start : Grid.loop_inv low high 0 (Grid.start low high).
Proof.
  unfold Grid.loop_inv, Grid.start. simpl.
  unfold I64.sub, I64.mul.
  rewrite (@I64_wrap_small (high - low)) by lia.
  rewrite I32_wrap_small by lia.
  rewrite Z.quot_1_r, Z.mul_1_r, I64_wrap_small by lia.
  rewrite Z.div_1_r. repeat split; lia.
Qed.

Lemma loop_inv_step_value n (s : Grid.Loop) :
  Grid.loop_inv low high n s -> 0 < Grid.step s.
Proof.
  intros (Hn & _ & _ & Hs & _). rewrite Hs.
  destruct (Z.eqb_spec n 0); [lia|]. apply nice_step_pos. lia.
Qed.

Lemma loop_inv_body n (s : Grid.Loop) :
  Grid.loop_inv low high n s -> n <= 30 ->
  Grid.loop_inv low high (n + 1) (Grid.body low high s).
Proof.
  intros (Hn & Hi & Hm & Hs & Hd & Ha) Hn30.
  pose proof (@nice_step_small n ltac:(lia)) as Hsmall.
  pose proof (@nice_step_pos n Hn) as Hpos.
  assert (Est : I64.mul (Grid.stepTable (Grid.index s)) (Grid.multiplier s)
                = Grid.nice_step n).
  { unfold I64.mul. rewrite Hi, Hm. fold (Grid.nice_step n).
    apply I64_wrap_small. lia. }
  unfold Grid.loop_inv, Grid.body. cbn [Grid.step Grid.divs Grid.adjlow
    Grid.index Grid.multiplier]. rewrite Est.
  replace (n + 1 =? 0) with false by (symmetry; apply Z.eqb_neq; lia).
  replace (n + 1 - 1) with n by lia.
  split; [lia|].
  unfold Grid.stepTableSize. rewrite Hi, Hm.
  assert (H3 : 0 <= n / 3 <= 10) by (Z.div_mod_to_equations; lia).
  pose proof (Z.pow_le_mono_r 10 (n / 3) 10 ltac:(lia) ltac:(lia)) as Hp10.
  pose proof (Z.pow_pos_nonneg 10 (n / 3) ltac:(lia) ltac:(lia)) as Hp0.
  split; [|split; [|split; [reflexivity|split]]].
  - destruct (Z.eqb_spec (n mod 3 + 1) 3); Z.div_mod_to_equations; lia.
  - destruct (Z.eqb_spec (n mod 3 + 1) 3) as [E|E].
    + replace ((n + 1) / 3) with (Z.succ (n / 3)) by (Z.div_mod_to_equations; lia).
      rewrite Z.pow_succ_r by lia. unfold I64.mul.
      rewrite I64_wrap_small by lia. lia.
    + f_equal. Z.div_mod_to_equations; lia.
  - unfold I64.sub. rewrite (@I64_wrap_small (high - low)) by lia.
    rewrite Z.quot_div_nonneg by lia.
    apply I32_wrap_small.
    pose proof (Z.div_pos (high - low) (Grid.nice_step n) ltac:(lia) Hpos).
    pose proof (Z.div_le_upper_bound (high - low) (Grid.nice_step n) (high - low)
                  Hpos ltac:(nia)).
    lia.
  - unfold I64.mul. apply I64_wrap_small.
    destruct (quot_mul_bounds low Hpos) as [Q1 Q2].
    destruct (Z.le_gt_cases 0 low) as [Hl|Hl]; [specialize (Q1 Hl)|specialize (Q2 ltac:(lia))]; lia.
Qed.

(** With 32 rounds of fuel the loop ends, on the first step of the
    sequence 1, 2, 5, 10, ... that gives no more than [divswanted]
    divisions. *)
Lemma loop_ends : forall (fuel : nat) n (s : Grid.Loop),
  Grid.loop_inv low high n s -> n <= 31 -> 32 <= n + Z.of_nat fuel ->
  exists s' m,
    Grid.loop fuel low high divswanted s = Some s' /\
    Grid.loop_inv low high m s' /\ n <= m <= 31 /\
    Grid.divs s' <= divswanted /\
    (forall k, n <= k < m ->
       divswanted < (high - low) / (if k =? 0 then 1 else Grid.nice_step (k - 1))).
Proof.
  induction fuel as [|fuel IH]; intros n s Hinv Hn Hfuel.
  - exfalso. lia.
  - simpl Grid.loop.
    destruct (Z.ltb_spec divswanted (Grid.divs s)) as [Hgt|Hle].
    + pose proof Hinv as (Hn0 & _ & _ & Hs & Hd & _).
      pose proof (loop_inv_step_value Hinv) as Hpos.
      assert (Hstep : Grid.step s <= high - low).
      { destruct (Z.le_gt_cases (Grid.step s) (high - low)) as [H|H]; [exact H|].
        rewrite Z.div_small in Hd by lia. lia. }
      assert (Hn30 : n <= 30).
      { destruct (Z.le_gt_cases n 30) as [H|H]; [exact H|exfalso].
        replace (n =? 0) with false in Hs by (symmetry; apply Z.eqb_neq; lia).
        pose proof (@nice_step_large (n - 1) ltac:(lia)). lia. }
      destruct (IH (n + 1) (Grid.body low high s)
                  (loop_inv_body Hinv Hn30) ltac:(lia) ltac:(lia))
        as (s' & m & E & Hinv' & Hm & Hdv & Hmin).
      exists s', m. split; [exact E|]. split; [exact Hinv'|].
      split; [lia|]. split; [exact Hdv|].
      intros k Hk. destruct (Z.eq_dec k n) as [->|Hne].
      * rewrite <- Hs, <- Hd. exact Hgt.
      * apply Hmin. lia.
    + exists s, n. split; [reflexivity|]. split; [exact Hinv|].
      split; [lia|]. split; [exact Hle|]. intros k Hk. lia.
Qed.

End GridFacts.

(** [calcDivSize] on a span below [2^31] and a positive number of wanted
    divisions: it returns; the step is the first of 1, 2, 5, 10, 20, 50, ...
    that divides the span into no more than [divswanted] parts, [divs] is
    that number of parts, and [adjlow] is the first multiple of the step at
    or above [low]. *)
Lemma calcDivSize_spec low high divswanted (out : Z * Z * Z) :
  - 2 ^ 62 <= low -> high <= 2 ^ 62 ->
  0 <= high - low < 2 ^ 31 ->
  0 < divswanted ->
  exists adjlow step divs n,
    Grid.calcDivSize 32 low high divswanted out = Some (adjlow, step, divs) /\
    0 <= n /\ step = (if n =? 0 then 1 else Grid.nice_step (n - 1)) /\
    (forall k, 0 <= k < n ->
       divswanted < (high - low) / (if k =? 0 then 1 else Grid.nice_step (k - 1))) /\
    divs = (high - low) / step /\ divs <= divswanted /\
    adjlow mod step = 0 /\ low <= adjlow < low + step.
Proof.
  intros Hlow Hhigh Hspan Hw.
  destruct (@loop_ends low high divswanted Hlow Hhigh Hspan Hw 32 0
              (Grid.start low high)
              (loop_inv_start Hlow Hhigh Hspan) ltac:(lia) ltac:(lia))
    as (s & n & E & Hinv & Hn & Hdv & Hmin).
  pose proof (loop_inv_step_value Hinv) as Hpos.
  destruct Hinv as (Hn0 & _ & _ & Hs & Hd & Ha).
  unfold Grid.calcDivSize.
  replace (divswanted =? 0) with false by (symmetry; apply Z.eqb_neq; lia).
  rewrite E.
  eexists _, (Grid.step s), (Grid.divs s), n.
  split; [reflexivity|]. split; [lia|]. split; [exact Hs|].
  split; [exact Hmin|]. split; [exact Hd|]. split; [exact Hdv|].
  destruct (quot_mul_bounds low Hpos) as [Q1 Q2].
  assert (Hst : Grid.step s <= 5 * 10 ^ 10).
  { rewrite Hs. destruct (Z.eqb_spec n 0); [lia|].
    apply nice_step_small. lia. }
  rewrite Ha.
  destruct (Z.ltb_spec (Z.quot low (Grid.step s) * Grid.step s) low) as [Hlt|Hge].
  - assert (Hl : 0 <= low).
    { destruct (Z.le_gt_cases 0 low) as [H|H]; [exact H|]. specialize (Q2 ltac:(lia)). lia. }
    specialize (Q1 Hl).
    unfold I64.add. rewrite I64_wrap_small by lia.
    split; [|lia].
    replace (Z.quot low (Grid.step s) * Grid.step s + Grid.step s)
      with ((Z.quot low (Grid.step s) + 1) * Grid.step s) by lia.
    apply Z.mod_mul. lia.
  - split; [apply Z.mod_mul; lia|].
    destruct (Z.le_gt_cases 0 low) as [Hl|Hl];
      [specialize (Q1 Hl)|specialize (Q2 ltac:(lia))]; lia.
Qed.

(** With no division wanted, [calcDivSize] returns at once and assigns
    nothing. *)
Lemma calcDivSize_zero fuel low high (out : Z * Z * Z) :
  Grid.calcDivSize fuel low high 0 out = Some out.
Proof. reflexivity. Qed.

(** ** More on [setNewFftData] *)

Section FftMore.
Variable powf : spec_float -> spec_float -> spec_float.

(** The floor of [setNewFftData]: a stored bin is never below [1e-20],
    unless the scaled sample is a NaN, which is stored as it is. *)
Lemma setNewFftData_floor cfg (st : FftData.State) (fftData : Z -> spec_float) size i :
  0 <= i < size ->
  let x := (fftData i * FftData.pwr_scale cfg size)%fl in
  let stored := FftData.m_fftData (FftData.setNewFftData powf cfg st fftData size) i in
  (is_nan x = false -> (FftData.fmin <=? stored)%fl = true) /\
  (is_nan x = true -> is_nan stored = true).
Proof.
  intros Hi x stored. subst stored.
  rewrite setNewFftData_data by exact Hi.
  unfold FftData.scaled_floored. fold x. unfold std_max.
  split; intros Hx.
  - destruct (x <? FftData.fmin)%fl eqn:E.
    + apply fleb_refl. reflexivity.
    + apply fleb_total; [exact Hx|reflexivity|exact E].
  - destruct x; try discriminate. reflexivity.
Qed.

(** The recursive update of [setNewFftData]: with a valid IIR of the same
    size and a smoothing exponent other than 1, each bin of the IIR is
    multiplied by [powf(raw / iir, a)], and the IIR is left alone outside
    the frame. *)
Lemma setNewFftData_smoothed cfg (st : FftData.State) (fftData : Z -> spec_float) size i :
  FftData.m_IIRValid st = true ->
  size = FftData.m_fftDataSize st ->
  (FftData.smoothing powf cfg =? of_int 1)%fl = false ->
  let st' := FftData.setNewFftData powf cfg st fftData size in
  FftData.m_fftIIR st' i =
    if (0 <=? i) && (i <? size)
    then (FftData.m_fftIIR st i
          * powf (FftData.scaled_floored cfg fftData size i / FftData.m_fftIIR st i)
                 (FftData.smoothing powf cfg))%fl
    else FftData.m_fftIIR st i.
Proof.
  intros Hv Hs Ha st'. subst st'. unfold FftData.setNewFftData.
  assert (Er : FftData.reallocate st size = st).
  { unfold FftData.reallocate. rewrite Hs, Z.eqb_refl. reflexivity. }
  rewrite Er, Hv, Ha. simpl.
  destruct (Z.leb_spec 0 i); destruct (Z.ltb_spec i size); simpl.
  - change (FftData.volk_32f_x2_multiply_32f _ _ _ _)
      with (snd (FftData.multiplicative_update powf (FftData.m_X st)
                   (FftData.store_frame cfg fftData size (FftData.m_fftData st))
                   (FftData.m_fftIIR st) (FftData.smoothing powf cfg) size)).
    rewrite multiplicative_update_spec by lia.
    rewrite store_frame_spec by lia. reflexivity.
  - unfold FftData.volk_32f_x2_multiply_32f.
    rewrite (for_range_pointwise
               (fun i c => upd c i (FftData.m_fftIIR st i * _ i)%fl)
               (fun i _ => (FftData.m_fftIIR st i * _ i)%fl)) by reflexivity.
    replace ((0 <=? i) && (i <? size)) with false
      by (symmetry; apply andb_false_iff; right; apply Z.ltb_ge; lia).
    reflexivity.
  - unfold FftData.volk_32f_x2_multiply_32f.
    rewrite (for_range_pointwise
               (fun i c => upd c i (FftData.m_fftIIR st i * _ i)%fl)
               (fun i _ => (FftData.m_fftIIR st i * _ i)%fl)) by reflexivity.
    replace ((0 <=? i) && (i <? size)) with false
      by (symmetry; apply andb_false_iff; left; apply Z.leb_gt; lia).
    reflexivity.
  - unfold FftData.volk_32f_x2_multiply_32f.
    rewrite (for_range_pointwise
               (fun i c => upd c i (FftData.m_fftIIR st i * _ i)%fl)
               (fun i _ => (FftData.m_fftIIR st i * _ i)%fl)) by reflexivity.
    replace ((0 <=? i) && (i <? size)) with false
      by (symmetry; apply andb_false_iff; left; apply Z.leb_gt; lia).
    reflexivity.
Qed.

End FftMore.

(** ** What the aggregation stage reads and writes *)

Lemma for_loop_ext (S : Type) (body body' : Z -> S -> S) :
  forall n lo s,
    (forall i s, lo <= i < lo + Z.of_nat n -> body i s = body' i s) ->
    for_loop n lo body s = for_loop n lo body' s.
Proof.
  induction n as [|n IH]; intros lo s H; [reflexivity|].
  simpl for_loop. rewrite H by lia. apply IH.
  intros i s' Hi. apply H. lia.
Qed.

Lemma for_range_ext (S : Type) (body body' : Z -> S -> S) lo hi s :
  (forall i s, lo <= i < hi -> body i s = body' i s) ->
  for_range lo hi body s = for_range lo hi body' s.
Proof.
  intros H. unfold for_range. apply for_loop_ext.
  intros i s' Hi. apply H. lia.
Qed.

Section ReadsGeneric.
Context {F : Type} {A : Arith F}.
Variable log10f : F -> F.
Import Aggregator.

(** One round of the oversampled loop reads its own bin only. *)
Lemma over_body_reads (d1 i1 d2 i2 : Z -> F) mode pmax xs sbd sb nb mnb mxb
  xmn xmx dh hbd hw hg i (s : Acc * Bufs) :
  d1 i = d2 i -> i1 i = i2 i ->
  over_body log10f
    {| m_fftData := d1; m_fftIIR := i1; m_PlotMode := mode; m_PandMaxdB := pmax;
       xScale := xs; startBinD := sbd; startBin := sb; numBins := nb;
       minbin := mnb; maxbin := mxb; xmin := xmn; xmax := xmx;
       doHistogram := dh; histBinsDisplayed := hbd; histWeight := hw;
       histdBGainFactor := hg |} i s
  = over_body log10f
      {| m_fftData := d2; m_fftIIR := i2; m_PlotMode := mode; m_PandMaxdB := pmax;
         xScale := xs; startBinD := sbd; startBin := sb; numBins := nb;
         minbin := mnb; maxbin := mxb; xmin := xmn; xmax := xmx;
         doHistogram := dh; histBinsDisplayed := hbd; histWeight := hw;
         histdBGainFactor := hg |} i s.
Proof.
  intros E1 E2. destruct s as [a0 b0].
  unfold over_body, started.
  cbn [m_fftData m_fftIIR]. rewrite E1, E2. reflexivity.
Qed.

End ReadsGeneric.

Section Reads.
Variable log10f : spec_float -> spec_float.
Variable MAX_HISTOGRAM_SIZE : Z.

(** The oversampled pass reads the bins [minbin .. maxbin] and no other:
    two spectra that agree there give the same buffers.  These bins lie in
    [1, m_fftDataSize - 1], so bin 0 is never read. *)
Lemma oversampled_reads_displayed_bins
  (v : Draw.View) (d : Draw.Display) (newData : bool)
  (m_fftData m_fftIIR m_fftData' m_fftIIR' : Z -> spec_float)
  (b : Aggregator.Bufs) :
  Draw.oversampled v = true ->
  (forall i, Draw.minbin v <= i <= Draw.maxbin v ->
     m_fftData i = m_fftData' i /\ m_fftIIR i = m_fftIIR' i) ->
  Draw.aggregate log10f MAX_HISTOGRAM_SIZE v d newData m_fftData m_fftIIR b
  = Draw.aggregate log10f MAX_HISTOGRAM_SIZE v d newData m_fftData' m_fftIIR' b
  /\ 1 <= Draw.minbin v /\ Draw.maxbin v <= Draw.m_fftDataSize v - 1.
Proof.
  intros Hov Hagree. split; [|unfold Draw.minbin, Draw.maxbin; lia].
  unfold Draw.aggregate. rewrite Hov. unfold Aggregator.aggregate.
  unfold Aggregator.aggregate_over, Aggregator.clear_histogram, Aggregator.acc0.
  unfold Draw.frame.
  cbn [Aggregator.minbin Aggregator.maxbin Aggregator.xmin Aggregator.doHistogram].
  rewrite (@for_range_ext _ (Aggregator.over_body log10f _)
             (Aggregator.over_body log10f
                {| Aggregator.m_fftData := m_fftData';
                   Aggregator.m_fftIIR := m_fftIIR';
                   Aggregator.m_PlotMode := Draw.m_PlotMode d;
                   Aggregator.m_PandMaxdB := Draw.m_PandMaxdB d;
                   Aggregator.xScale := B32.of_double (Draw.xScale v);
                   Aggregator.startBinD := B32.of_double (Draw.startBinD v);
                   Aggregator.startBin := Draw.startBin v;
                   Aggregator.numBins := Draw.numBins v;
                   Aggregator.minbin := Draw.minbin v;
                   Aggregator.maxbin := Draw.maxbin v;
                   Aggregator.xmin := Draw.xmin v;
                   Aggregator.xmax := Draw.xmax v;
                   Aggregator.doHistogram := Draw.doHistogram d newData;
                   Aggregator.histBinsDisplayed :=
                     Draw.histBinsDisplayed MAX_HISTOGRAM_SIZE v;
                   Aggregator.histWeight :=
                     Draw.histWeight MAX_HISTOGRAM_SIZE (Draw.fft_rate d) v;
                   Aggregator.histdBGainFactor :=
                     Draw.histdBGainFactor MAX_HISTOGRAM_SIZE v
                       (Draw.m_PandMindB d) (Draw.m_PandMaxdB d) |})).
  - reflexivity.
  - intros i s Hi. destruct (Hagree i ltac:(lia)) as [E1 E2].
    apply over_body_reads; assumption.
Qed.

(** The columns the stage leaves alone: in the oversampled regime a column
    other than [xmin] that no bin of [minbin, maxbin) falls in, in the
    undersampled regime a column outside [xmin, xmax). *)
Lemma aggregate_untouched_columns
  (v : Draw.View) (d : Draw.Display) (newData : bool)
  (m_fftData m_fftIIR : Z -> spec_float) (b : Aggregator.Bufs) (c : Z) :
  (Draw.oversampled v = true /\ c <> Draw.xmin v /\
   forall i, Draw.minbin v <= i < Draw.maxbin v ->
     Aggregator.column_of
       (Draw.frame MAX_HISTOGRAM_SIZE v d newData m_fftData m_fftIIR) i <> c)
  \/ (Draw.oversampled v = false /\ (c < Draw.xmin v \/ Draw.xmax v <= c)) ->
  Aggregator.column
    (Draw.aggregate log10f MAX_HISTOGRAM_SIZE v d newData m_fftData m_fftIIR b) c
  = Aggregator.column b c.
Proof.
  intros [(Hov & Hc & Hno)|(Hov & Hc)]; unfold Draw.aggregate; rewrite Hov.
  - apply aggregate_true_untouched; assumption.
  - unfold Aggregator.aggregate.
    destruct (aggregate_under_spec log10f
                (Draw.frame MAX_HISTOGRAM_SIZE v d newData m_fftData m_fftIIR)
                (Aggregator.clear_histogram
                   (Draw.frame MAX_HISTOGRAM_SIZE v d newData m_fftData m_fftIIR) b))
      as [_ H].
    rewrite H.
    replace ((Aggregator.xmin _ <=? c) && (c <? Aggregator.xmax _)) with false.
    + apply clear_histogram_column.
    + symmetry. apply andb_false_iff. simpl.
      destruct Hc; [left; apply Z.leb_gt|right; apply Z.ltb_ge]; lia.
Qed.

(** Outside histogram mode the histogram grid is not touched. *)
Lemma histogram_untouched_outside_mode
  (v : Draw.View) (d : Draw.Display) (newData : bool)
  (m_fftData m_fftIIR : Z -> spec_float) (b : Aggregator.Bufs) :
  Draw.m_PlotMode d <> PLOT_MODE_HISTOGRAM ->
  Aggregator.m_histogram
    (Draw.aggregate log10f MAX_HISTOGRAM_SIZE v d newData m_fftData m_fftIIR b)
  = Aggregator.m_histogram b.
Proof.
  intros Hm. unfold Draw.aggregate. apply aggregate_histogram_off.
  simpl. unfold Draw.doHistogram.
  destruct (Draw.m_PlotMode d); try contradiction;
    simpl; now rewrite andb_false_r.
Qed.

End Reads.

(** ** The waterfall in the other modes *)

Lemma removelast_length (V : Type) (l : list V) :
  List.length (removelast l) = Nat.pred (List.length l).
Proof.
  rewrite removelast_firstn_len, length_firstn. lia.
Qed.

Lemma removelast_nth (V : Type) (d : V) (l : list V) k :
  (Datatypes.S k < List.length l)%nat -> nth k (removelast l) d = nth k l d.
Proof.
  intros Hk. rewrite removelast_firstn_len, nth_firstn.
  destruct (Nat.ltb_spec k (Nat.pred (List.length l))); [reflexivity|lia].
Qed.

Section WaterfallModes.
Variable log10f : spec_float -> spec_float.
Variable MAX_SCREENSIZE : Z.
Import Waterfall.

Lemma accumulate_auto cfg npts ds st :
  manual cfg = false -> accumulate cfg npts ds st = st.
Proof. intros H. unfold accumulate. now rewrite H. Qed.

(** Auto mode ([msec_per_wfline] not positive): a frame that is due draws
    the new top row from its own data, entry [255 - cidx] of the colour
    table, and the accumulator is not used. *)
Lemma waterfall_auto_row cfg xmin xmax tnow_ms (b : Aggregator.Bufs)
  (st : State) ix :
  manual cfg = false ->
  due cfg st tnow_ms = true ->
  xmin <= ix < xmax ->
  let st' := step log10f MAX_SCREENSIZE cfg true xmin xmax tnow_ms b st in
  top_row st' ix =
    Colormap.rgb (m_ColorTbl cfg (255 - cidx log10f cfg (dataSource cfg b ix))) /\
  m_wfbuf st' = m_wfbuf st /\
  wf_count st' = wf_count st + 1.
Proof.
  intros Hm Hd Hi st'. subst st'. unfold step. cbv zeta.
  rewrite accumulate_auto by exact Hm. rewrite Hd.
  unfold top_row, emit. simpl. rewrite Hm.
  split; [|split; reflexivity].
  rewrite new_row_spec. rewrite in_range_true by lia.
  unfold line_value. rewrite Hm. reflexivity.
Qed.

Lemma accumulate_avg cfg npts ds st :
  manual cfg = true -> max_mode cfg = false ->
  (forall i, m_wfbuf (accumulate cfg npts ds st) i =
     if (0 <=? i) && (i <? npts) then (m_wfbuf st i + ds i)%fl else m_wfbuf st i) /\
  wf_avg_count (accumulate cfg npts ds st) = wf_avg_count st + 1.
Proof.
  intros Hm Hx. unfold accumulate. rewrite Hm, Hx.
  cbn [negb with_wfbuf m_wfbuf wf_avg_count].
  split; [|reflexivity]. intros i.
  now rewrite (for_range_pointwise (fun i m => upd m i (m i + ds i)%fl)
                 (fun i x => (x + ds i)%fl)).
Qed.

(** While no line is due the frames are added up and counted. *)
Lemma run_quiet_avg cfg xmin xmax frames : forall st ix,
  manual cfg = true -> max_mode cfg = false ->
  quiet log10f MAX_SCREENSIZE cfg xmin xmax frames st = true ->
  0 <= ix < xmax - xmin ->
  m_wfbuf (run log10f MAX_SCREENSIZE cfg xmin xmax frames st) ix =
    Waterfall.folded_sum cfg frames (m_wfbuf st ix) ix /\
  wf_avg_count (run log10f MAX_SCREENSIZE cfg xmin xmax frames st) =
    wf_avg_count st + Z.of_nat (List.length frames).
Proof.
  induction frames as [|[t b] rest IH]; intros st ix Hm Hx Hq Hi.
  - simpl. split; [reflexivity|lia].
  - simpl in Hq. apply andb_true_iff in Hq. destruct Hq as [Hd Hq].
    apply negb_true_iff in Hd.
    simpl Waterfall.run.
    destruct (IH _ ix Hm Hx Hq Hi) as [E1 E2]. rewrite E1, E2.
    unfold Waterfall.step. cbv zeta. rewrite Hd.
    destruct (@accumulate_avg cfg (xmax - xmin) (dataSource cfg b) st Hm Hx) as [A1 A2].
    rewrite A1, A2. rewrite in_range_true by lia.
    split; [reflexivity|]. simpl List.length. lia.
Qed.

(** Manual span, average mode: the row that falls due is drawn from the sum
    of the frames since the last reset times [1.0f / count], [count] being
    the number of frames added; the accumulator and the count are then
    reset. *)
Lemma waterfall_avg_row cfg xmin xmax
  (frames : list (Z * Aggregator.Bufs)) tnow_ms (b : Aggregator.Bufs)
  (st : State) ix :
  manual cfg = true ->
  max_mode cfg = false ->
  quiet log10f MAX_SCREENSIZE cfg xmin xmax frames st = true ->
  due cfg
    (accumulate cfg (xmax - xmin) (dataSource cfg b)
       (run log10f MAX_SCREENSIZE cfg xmin xmax frames st))
    tnow_ms = true ->
  0 <= xmin <= ix -> ix < xmax - xmin ->
  let st' := run log10f MAX_SCREENSIZE cfg xmin xmax
               (frames ++ [(tnow_ms, b)]) st in
  let sum := Waterfall.folded_sum cfg (frames ++ [(tnow_ms, b)])
               (m_wfbuf st ix) ix in
  let count := wf_avg_count st + Z.of_nat (List.length frames) + 1 in
  top_row st' ix =
    Colormap.rgb
      (m_ColorTbl cfg
         (255 - cidx log10f cfg (sum * (of_int 1 / of_int count))%fl)) /\
  (forall j, 0 <= j < MAX_SCREENSIZE -> m_wfbuf st' j = of_int 0) /\
  wf_avg_count st' = 0.
Proof.
  intros Hm Hx Hq Hd Hi Hi' st' sum count. subst st' sum count.
  rewrite run_app. simpl Waterfall.run.
  destruct (@run_quiet_avg cfg xmin xmax frames st ix Hm Hx Hq ltac:(lia)) as [R1 R2].
  set (st1 := Waterfall.run log10f MAX_SCREENSIZE cfg xmin xmax frames st) in *.
  destruct (@accumulate_avg cfg (xmax - xmin) (dataSource cfg b) st1 Hm Hx) as [A1 A2].
  unfold Waterfall.step. cbv zeta. rewrite Hd.
  unfold top_row, emit. simpl. rewrite Hm.
  split; [|split].
  - rewrite new_row_spec. rewrite in_range_true by lia.
    unfold line_value, lineFactor. rewrite Hm, Hx. simpl andb. cbv iota.
    rewrite A1, A2, R1, R2. rewrite in_range_true by lia.
    unfold Waterfall.folded_sum. rewrite fold_left_app. reflexivity.
  - intros j Hj. rewrite clearWaterfallBuf_spec.
    now rewrite in_range_true by lia.
  - reflexivity.
Qed.

(** An emitted row pushes the image down by one line: the height is kept,
    every older row moves one line down, the oldest is dropped, and the new
    top row is black outside the columns of the frame. *)
Lemma waterfall_rows_shift cfg xmin xmax tnow_ms (b : Aggregator.Bufs)
  (st : State) :
  due cfg (accumulate cfg (xmax - xmin) (dataSource cfg b) st) tnow_ms = true ->
  m_WaterfallImage st <> [] ->
  let st' := step log10f MAX_SCREENSIZE cfg true xmin xmax tnow_ms b st in
  List.length (m_WaterfallImage st') = List.length (m_WaterfallImage st) /\
  (forall k, (Datatypes.S k < List.length (m_WaterfallImage st))%nat ->
     nth (Datatypes.S k) (m_WaterfallImage st') (fun _ => 0)
     = nth k (m_WaterfallImage st) (fun _ => 0)) /\
  (forall ix, ix < xmin \/ xmax <= ix -> top_row st' ix = 0).
Proof.
  intros Hd Hne st'. subst st'. unfold step. cbv zeta. rewrite Hd.
  unfold top_row, emit. simpl.
  assert (Ei : m_WaterfallImage
                 (accumulate cfg (xmax - xmin) (dataSource cfg b) st)
               = m_WaterfallImage st).
  { unfold accumulate. destruct (manual cfg); [|reflexivity].
    destruct (negb (max_mode cfg)); reflexivity. }
  rewrite Ei. split; [|split].
  - simpl List.length. rewrite removelast_length.
    destruct (m_WaterfallImage st); [congruence|reflexivity].
  - intros k Hk. apply removelast_nth. exact Hk.
  - intros ix Hix. rewrite new_row_spec.
    replace ((xmin <=? ix) && (ix <? xmin + (xmax - xmin))) with false;
      [reflexivity|].
    symmetry. apply andb_false_iff.
    destruct Hix; [left; apply Z.leb_gt|right; apply Z.ltb_ge]; lia.
Qed.

End WaterfallModes.

(** ** The histogram IIR *)

Lemma for_loop_project (S X : Type) (g : S -> X) (body : Z -> S -> S)
  (body' : Z -> X -> X) :
  (forall i s, g (body i s) = body' i (g s)) ->
  forall n lo s, g (for_loop n lo body s) = for_loop n lo body' (g s).
Proof.
  intros H. induction n as [|n IH]; intros lo s; [reflexivity|].
  simpl. rewrite IH, H. reflexivity.
Qed.

Lemma for_range_project (S X : Type) (g : S -> X) (body : Z -> S -> S)
  (body' : Z -> X -> X) lo hi s :
  (forall i s, g (body i s) = body' i (g s)) ->
  g (for_range lo hi body s) = for_range lo hi body' (g s).
Proof. intros H. unfold for_range. now apply for_loop_project. Qed.

(** A loop over one row of a grid, and a loop of such loops over its
    rows, each cell rewritten from its old content. *)
Lemma row_loop_pointwise (V : Type) (h : Z -> Z -> V -> V) i lo hi
  (m : Z -> Z -> V) i' j' :
  for_range lo hi (fun j m => upd2 m i j (h i j (m i j))) m i' j' =
  if (i' =? i) && ((lo <=? j') && (j' <? hi)) then h i' j' (m i' j') else m i' j'.
Proof.
  destruct (Z.le_gt_cases lo hi) as [Hle|Hgt].
  - apply (for_range_ind
      (fun k (s : Z -> Z -> V) =>
         s i' j' = if (i' =? i) && ((lo <=? j') && (j' <? k))
                   then h i' j' (m i' j') else m i' j')
      (fun j m => upd2 m i j (h i j (m i j))) m Hle).
    + replace ((lo <=? j') && (j' <? lo)) with false
        by (symmetry; apply andb_false_iff; zbool).
      now rewrite andb_false_r.
    + intros k s Hk IHs. unfold upd2.
      destruct (Z.eqb_spec i' i) as [->|Hne];
        destruct (Z.eqb_spec j' k) as [->|Hnj]; cbn [andb] in *;
        rewrite ?IHs; zbool.
  - rewrite for_range_empty by lia.
    replace ((lo <=? j') && (j' <? hi)) with false
      by (symmetry; apply andb_false_iff; zbool).
    now rewrite andb_false_r.
Qed.

Lemma grid_loop_pointwise (V : Type) (h : Z -> Z -> V -> V) ilo ihi jlo jhi
  (m : Z -> Z -> V) i' j' :
  for_range ilo ihi
    (fun i m => for_range jlo jhi (fun j m => upd2 m i j (h i j (m i j))) m) m i' j' =
  if ((ilo <=? i') && (i' <? ihi)) && ((jlo <=? j') && (j' <? jhi))
  then h i' j' (m i' j') else m i' j'.
Proof.
  destruct (Z.le_gt_cases ilo ihi) as [Hle|Hgt].
  - apply (for_range_ind
      (fun k (s : Z -> Z -> V) =>
         s i' j' = if ((ilo <=? i') && (i' <? k)) && ((jlo <=? j') && (j' <? jhi))
                   then h i' j' (m i' j') else m i' j')
      (fun i m => for_range jlo jhi (fun j m => upd2 m i j (h i j (m i j))) m)
      m Hle).
    + replace ((ilo <=? i') && (i' <? ilo)) with false
        by (symmetry; apply andb_false_iff; zbool).
      reflexivity.
    + intros k s Hk IHs. rewrite row_loop_pointwise.
      destruct (Z.eqb_spec i' k) as [->|Hne]; cbn [andb] in *;
        rewrite ?IHs; zbool.
  - rewrite for_range_empty by lia.
    replace ((ilo <=? i') && (i' <? ihi)) with false
      by (symmetry; apply andb_false_iff; zbool).
    reflexivity.
Qed.

Section HistIIRFacts.
Variable powf : spec_float -> spec_float -> spec_float.
Import HistIIR.

(** The histogram IIR after a histogram frame: every cell of the displayed
    grid holds [std::max(histV, 0.0f)], which is the new histogram itself
    while the IIR is invalid; such a cell is never negative; the cells
    outside the grid keep their content; the IIR is valid. *)
Lemma histIIR_update_spec (m_alpha frameTime : spec_float)
  (m_histogram : Z -> Z -> spec_float) xmin xmax histBinsDisplayed
  (st : State) i j :
  let st' := update powf true m_alpha frameTime m_histogram xmin xmax
               histBinsDisplayed st in
  let v := histV powf (m_histIIRValid st) m_alpha frameTime
             (m_histIIR st i j) (m_histogram i j) in
  m_histIIRValid st' = true /\
  (xmin <= i < xmax /\ 0 <= j < histBinsDisplayed ->
   m_histIIR st' i j = std_max v (of_int 0) /\
   (m_histIIRValid st = false ->
    m_histIIR st' i j = std_max (m_histogram i j) (of_int 0)) /\
   (is_nan v = false -> (of_int 0 <=? m_histIIR st' i j)%fl = true)) /\
  (~ (xmin <= i < xmax /\ 0 <= j < histBinsDisplayed) ->
   m_histIIR st' i j = m_histIIR st i j).
Proof.
  cbv zeta. unfold update.
  set (body := fun i s => for_range 0 histBinsDisplayed
                 (cell powf (m_histIIRValid st) m_alpha frameTime m_histogram i) s).
  set (h := fun i j (old : spec_float) =>
              std_max (histV powf (m_histIIRValid st) m_alpha frameTime old
                         (m_histogram i j)) (of_int 0)).
  assert (Ef : fst (for_range xmin xmax body (m_histIIR st, of_int 0)) =
               for_range xmin xmax
                 (fun i m => for_range 0 histBinsDisplayed
                               (fun j m => upd2 m i j (h i j (m i j))) m)
                 (m_histIIR st)).
  { apply (@for_range_project _ _ fst body). intros k s. subst body. cbv beta.
    apply (@for_range_project _ _ fst
             (cell powf (m_histIIRValid st) m_alpha frameTime m_histogram k)).
    intros j0 s0. reflexivity. }
  destruct (for_range xmin xmax body (m_histIIR st, of_int 0)) as [iir hmax].
  simpl in Ef. subst iir. cbn [m_histIIR m_histIIRValid].
  split; [reflexivity|].
  rewrite grid_loop_pointwise. split.
  - intros [Hi Hj]. rewrite !in_range_true by lia. cbn [andb]. subst h. cbv beta.
    split; [reflexivity|]. split.
    + intros Hv. unfold histV. rewrite Hv. reflexivity.
    + intros Hn. unfold std_max.
      destruct (_ <? of_int 0)%fl eqn:E.
      * reflexivity.
      * apply fleb_total; [exact Hn|reflexivity|exact E].
  - intros Hout.
    replace (((xmin <=? i) && (i <? xmax)) && ((0 <=? j) && (j <? histBinsDisplayed)))
      with false; [reflexivity|].
    symmetry. apply not_true_is_false. intros H.
    apply andb_true_iff in H. destruct H as [H1 H2].
    apply andb_true_iff in H1, H2. apply Hout.
    destruct H1 as [H1 H1'], H2 as [H2 H2'].
    apply Z.leb_le in H1, H2. apply Z.ltb_lt in H1', H2'. lia.
Qed.

End HistIIRFacts.

(** ** The dB range of both displays *)


(** ** Peak markers *)

(** The ordinate of a peak marker stays within the plot, unless the level
    it is computed from is a NaN, which the clamps let through. *)
Lemma ordinate_within_plot (log10f : spec_float -> spec_float)
  (sc : PeakDetect.Scale (F := spec_float)) (vi : spec_float) :
  let raw := (PeakDetect.panddBGainFactor sc
              * (PeakDetect.m_PandMaxdB sc - of_int 10 * log10f vi))%fl in
  let h := (PeakDetect.plotHeight sc - of_int 0)%fl in
  let y := PeakDetect.ordinate log10f sc vi in
  (of_int 0 <=? h)%fl = true ->
  (is_nan raw = false -> (of_int 0 <=? y)%fl = true /\ (y <=? h)%fl = true) /\
  (is_nan raw = true -> is_nan y = true).
Proof.
  intros raw h y Hh. subst y. unfold PeakDetect.ordinate. fold raw. fold h.
  assert (Hhn : is_nan h = false).
  { destruct h; try reflexivity. discriminate Hh. }
  split.
  - intros Hr. unfold std_min, std_max.
    destruct (h <? raw)%fl eqn:E1.
    + destruct (h <? of_int 0)%fl eqn:E2.
      * split; [reflexivity|exact Hh].
      * split; [apply fleb_total; [exact Hhn|reflexivity|exact E2]
               |apply fleb_refl; exact Hhn].
    + destruct (raw <? of_int 0)%fl eqn:E2.
      * split; [reflexivity|exact Hh].
      * split; [apply fleb_total; [exact Hr|reflexivity|exact E2]
               |apply fleb_total; [exact Hhn|exact Hr|exact E1]].
  - intros Hr. destruct raw; try discriminate.
    unfold std_min, std_max. destruct h; reflexivity.
Qed.

(** ** Picking a peak *)

Section NearestPeakFacts.
Variables H V : Z.
Variable abs : spec_float -> spec_float.
Variable pow : spec_float -> spec_float -> spec_float.
Import NearestPeak.

(** [getNearestPeak] answers [-1] or a key of [m_Peaks] within
    [PEAK_CLICK_MAX_H_DISTANCE] columns of the click whose ordinate is not
    further than [PEAK_CLICK_MAX_V_DISTANCE] from it; with no key in that
    window it answers [-1]. *)
Lemma getNearestPeak_spec (m_Peaks : Z -> option spec_float) ptx pty m_DPR :
  let px := scaled ptx m_DPR in
  let py := scaled pty m_DPR in
  let r := getNearestPeak H V abs pow m_Peaks ptx pty m_DPR in
  (r = -1 \/
   (px - H <= r <= px + H /\
    exists y, m_Peaks r = Some y /\
              SFltb (B64.of_Z V) (abs (B64.sub y (B64.of_Z py))) = false)) /\
  ((forall x, px - H <= x <= px + H -> m_Peaks x = None) -> r = -1).
Proof.
  intros px py r. subst r. unfold getNearestPeak. fold px. fold py.
  set (s0 := {| dist := B64.literal (10 ^ 10) 1; best := -1 |}).
  destruct (Z.le_gt_cases (px - H) (px + H + 1)) as [Hle|Hgt].
  - assert (Hinv :
      (fun i (s : Best) =>
         (best s = -1 \/
          (px - H <= best s < i /\
           exists y, m_Peaks (best s) = Some y /\
                     SFltb (B64.of_Z V) (abs (B64.sub y (B64.of_Z py))) = false)) /\
         ((forall x, px - H <= x < i -> m_Peaks x = None) -> best s = -1))
        (px + H + 1)
        (for_range (px - H) (px + H + 1) (visit V abs pow m_Peaks px py) s0)).
    { apply for_range_ind; [exact Hle| |].
      - split; [left; reflexivity|intros _; reflexivity].
      - intros i s Hi [I1 I2]. unfold visit.
        destruct (m_Peaks i) as [y|] eqn:Ey.
        + destruct (SFltb (B64.of_Z V) (abs (B64.sub y (B64.of_Z py)))) eqn:Ev.
          * split.
            -- destruct I1 as [I1|(I1 & I1')]; [left; exact I1|right].
               split; [lia|exact I1'].
            -- intros Hn. rewrite (Hn i ltac:(lia)) in Ey. discriminate.
          * destruct (SFltb _ (dist s)).
            -- simpl. split.
               ++ right. split; [lia|]. exists y. split; assumption.
               ++ intros Hn. rewrite (Hn i ltac:(lia)) in Ey. discriminate.
            -- split.
               ++ destruct I1 as [I1|(I1 & I1')]; [left; exact I1|right].
                  split; [lia|exact I1'].
               ++ intros Hn. rewrite (Hn i ltac:(lia)) in Ey. discriminate.
        + split.
          * destruct I1 as [I1|(I1 & I1')]; [left; exact I1|right].
            split; [lia|exact I1'].
          * intros Hn. apply I2. intros x Hx. apply Hn. lia. }
    cbv beta in Hinv. destruct Hinv as [I1 I2]. split.
    + destruct I1 as [I1|(I1 & I1')]; [left; exact I1|right].
      split; [lia|exact I1'].
    + intros Hn. apply I2. intros x Hx. apply Hn. lia.
  - rewrite for_range_empty by lia. split; [left; reflexivity|intros _; reflexivity].
Qed.

End NearestPeakFacts.

(** ** The built-in colour scheme *)

Section GqrxScheme.
Variables turbo plasma : Z -> Z -> Z.
Variables viridis magma grape inferno : Z -> Z -> spec_float.

Lemma setRgb_valid r g b :
  0 <= r <= 255 -> 0 <= g <= 255 -> 0 <= b <= 255 ->
  Colormap.setRgb r g b = Colormap.Rgb r g b.
Proof.
  intros Hr Hg Hb. unfold Colormap.setRgb.
  replace (0 <=? r) with true by (symmetry; apply Z.leb_le; lia).
  replace (r <=? 255) with true by (symmetry; apply Z.leb_le; lia).
  replace (0 <=? g) with true by (symmetry; apply Z.leb_le; lia).
  replace (g <=? 255) with true by (symmetry; apply Z.leb_le; lia).
  replace (0 <=? b) with true by (symmetry; apply Z.leb_le; lia).
  replace (b <=? 255) with true by (symmetry; apply Z.leb_le; lia).
  reflexivity.
Qed.

(** The "gqrx" scheme gives every index a valid colour: no call of
    [setRgb] is out of range.  The entries below 20 are black and the last
    one is white. *)
Lemma gqrx_scheme_valid (tbl : Z -> Colormap.QColor) i :
  0 <= i < 256 ->
  let c := Colormap.setWfColormap turbo plasma viridis magma grape inferno
             tbl "gqrx" i in
  (exists r g b,
     c = Colormap.Rgb r g b /\ 0 <= r <= 255 /\ 0 <= g <= 255 /\ 0 <= b <= 255) /\
  (i < 20 -> c = Colormap.Rgb 0 0 0) /\
  (i = 255 -> c = Colormap.Rgb 255 255 255).
Proof.
  intros Hi c. subst c. unfold Colormap.setWfColormap.
  change (Colormap.is_name "gqrx" "gqrx") with true. cbv iota.
  rewrite gqrx_loop_spec. rewrite in_range_true by lia.
  unfold Colormap.gqrx_body.
  destruct (Z.ltb_spec i 20) as [H1|H1].
  { rewrite upd_same. split; [|split; [reflexivity|lia]].
    exists 0, 0, 0. split; [reflexivity|lia]. }
  destruct (Z.leb_spec 20 i) as [_|?]; [|lia].
  destruct (Z.ltb_spec i 70) as [H2|H2]; cbn [andb].
  { rewrite upd_same. rewrite Z.quot_div_nonneg by lia.
    rewrite setRgb_valid by (Z.div_mod_to_equations; lia).
    split; [|split; intros; lia].
    eexists _, _, _. split; [reflexivity|Z.div_mod_to_equations; lia]. }
  destruct (Z.leb_spec 70 i) as [_|?]; [|lia].
  destruct (Z.ltb_spec i 100) as [H3|H3]; cbn [andb].
  { rewrite upd_same. rewrite !Z.quot_div_nonneg by lia.
    rewrite setRgb_valid by (Z.div_mod_to_equations; lia).
    split; [|split; intros; lia].
    eexists _, _, _. split; [reflexivity|Z.div_mod_to_equations; lia]. }
  destruct (Z.leb_spec 100 i) as [_|?]; [|lia].
  destruct (Z.ltb_spec i 150) as [H4|H4]; cbn [andb].
  { rewrite upd_same. rewrite !Z.quot_div_nonneg by lia.
    rewrite setRgb_valid by (Z.div_mod_to_equations; lia).
    split; [|split; intros; lia].
    eexists _, _, _. split; [reflexivity|Z.div_mod_to_equations; lia]. }
  destruct (Z.leb_spec 150 i) as [_|?]; [|lia].
  destruct (Z.ltb_spec i 250) as [H5|H5]; cbn [andb].
  { rewrite upd_same. rewrite !Z.quot_div_nonneg by lia.
    rewrite setRgb_valid by (Z.div_mod_to_equations; lia).
    split; [|split; intros; lia].
    eexists _, _, _. split; [reflexivity|Z.div_mod_to_equations; lia]. }
  destruct (Z.leb_spec 250 i) as [_|?]; [|lia].
  rewrite upd_same. rewrite !Z.quot_div_nonneg by lia.
  rewrite setRgb_valid by (Z.div_mod_to_equations; lia).
  split; [|split; [intros; lia|]].
  - eexists _, _, _. split; [reflexivity|Z.div_mod_to_equations; lia].
  - intros ->. reflexivity.
Qed.

End GqrxScheme.

(** ** The extra properties at concrete inputs *)

Lemma roundFreq_nonneg_witness :
  Freq.roundFreq 144500049 100 = 100 * ((144500049 + 100 / 2) / 100) /\
  - (100 / 2) <= Freq.roundFreq 144500049 100 - 144500049 <= 100 / 2.
Proof. apply (@roundFreq_nonneg 144500049 100); lia. Defined.

Lemma roundFreq_negative_witness :
  let r := Freq.roundFreq (-30) 100 in
  r mod 100 = 0 /\ r <= - (100) /\
  (-30 < - (100 / 2) -> - (100 / 2) <= r - -30 < 100 / 2) /\
  (- (100 / 2) <= -30 -> r = - (100)).
Proof. apply (@roundFreq_negative (-30) 100); [lia|lia|reflexivity|lia]. Defined.



Lemma calcDivSize_spec_witness :
  exists adjlow step divs n,
    Grid.calcDivSize 32 144452000 144548000 10 (0, 0, 0)
      = Some (adjlow, step, divs) /\
    0 <= n /\ step = (if n =? 0 then 1 else Grid.nice_step (n - 1)) /\
    (forall k, 0 <= k < n ->
       10 < (144548000 - 144452000)
            / (if k =? 0 then 1 else Grid.nice_step (k - 1))) /\
    divs = (144548000 - 144452000) / step /\ divs <= 10 /\
    adjlow mod step = 0 /\ 144452000 <= adjlow < 144452000 + step.
Proof. apply (@calcDivSize_spec 144452000 144548000 10 (0, 0, 0)); lia. Defined.

Lemma setNewFftData_floor_witness :
  let x := (Examples.flat_one 3
            * FftData.pwr_scale Examples.fft_settings 8)%fl in
  let stored :=
    FftData.m_fftData
      (FftData.setNewFftData Examples.powf_half Examples.fft_settings
         Examples.fft_state Examples.flat_one 8) 3 in
  (is_nan x = false -> (FftData.fmin <=? stored)%fl = true) /\
  (is_nan x = true -> is_nan stored = true).
Proof.
  apply (@setNewFftData_floor Examples.powf_half Examples.fft_settings
           Examples.fft_state Examples.flat_one 8 3). lia.
Defined.

Lemma setNewFftData_smoothed_witness :
  let st' := FftData.setNewFftData Examples.powf_half Examples.fft_settings
               Examples.fft_state Examples.flat_one 8 in
  FftData.m_fftIIR st' 3 =
    if (0 <=? 3) && (3 <? 8)
    then (FftData.m_fftIIR Examples.fft_state 3
          * Examples.powf_half
              (FftData.scaled_floored Examples.fft_settings Examples.flat_one 8 3
               / FftData.m_fftIIR Examples.fft_state 3)
              (FftData.smoothing Examples.powf_half Examples.fft_settings))%fl
    else FftData.m_fftIIR Examples.fft_state 3.
Proof.
  apply (@setNewFftData_smoothed Examples.powf_half Examples.fft_settings
           Examples.fft_state Examples.flat_one 8 3);
    vm_compute; reflexivity.
Defined.

Lemma oversampled_reads_displayed_bins_witness :
  Draw.aggregate Examples.log10f_at_1 128 Examples.view_64_on_4
    (Examples.display PLOT_MODE_MAX) true Examples.ramp Examples.ramp
    (Examples.bufs_of (B32.of_Z 0) false)
  = Draw.aggregate Examples.log10f_at_1 128 Examples.view_64_on_4
      (Examples.display PLOT_MODE_MAX) true Examples.ramp_but_0 Examples.ramp_but_0
      (Examples.bufs_of (B32.of_Z 0) false)
  /\ 1 <= Draw.minbin Examples.view_64_on_4
  /\ Draw.maxbin Examples.view_64_on_4
     <= Draw.m_fftDataSize Examples.view_64_on_4 - 1.
Proof.
  apply (@oversampled_reads_displayed_bins Examples.log10f_at_1 128
           Examples.view_64_on_4 (Examples.display PLOT_MODE_MAX) true
           Examples.ramp Examples.ramp Examples.ramp_but_0 Examples.ramp_but_0
           (Examples.bufs_of (B32.of_Z 0) false)).
  - vm_compute. reflexivity.
  - intros i Hi.
    assert (Hmin : Draw.minbin Examples.view_64_on_4 = 1) by (vm_compute; reflexivity).
    rewrite Hmin in Hi. unfold Examples.ramp, Examples.ramp_but_0.
    replace (i =? 0) with false by (symmetry; apply Z.eqb_neq; lia).
    split; reflexivity.
Defined.

Lemma aggregate_untouched_columns_witness :
  Aggregator.column
    (Draw.aggregate Examples.log10f_at_1 128 Examples.view_1024_on_2048
       (Examples.display PLOT_MODE_MAX) true Examples.ramp Examples.ramp
       (Examples.bufs_of (B32.of_Z 0) false)) 3000
  = Aggregator.column (Examples.bufs_of (B32.of_Z 0) false) 3000.
Proof.
  apply (@aggregate_untouched_columns Examples.log10f_at_1 128
           Examples.view_1024_on_2048 (Examples.display PLOT_MODE_MAX) true
           Examples.ramp Examples.ramp (Examples.bufs_of (B32.of_Z 0) false) 3000).
  right. split; [vm_compute; reflexivity|].
  right. apply Z.leb_le. vm_compute. reflexivity.
Defined.

Lemma histogram_untouched_outside_mode_witness :
  Aggregator.m_histogram
    (Draw.aggregate Examples.log10f_at_1 128 Examples.view_64_on_4
       (Examples.display PLOT_MODE_AVG) true Examples.ramp Examples.ramp
       (Examples.bufs_of (B32.of_Z 7) false))
  = Aggregator.m_histogram (Examples.bufs_of (B32.of_Z 7) false).
Proof.
  apply (@histogram_untouched_outside_mode Examples.log10f_at_1 128
           Examples.view_64_on_4 (Examples.display PLOT_MODE_AVG) true
           Examples.ramp Examples.ramp (Examples.bufs_of (B32.of_Z 7) false)).
  simpl. discriminate.
Defined.

Lemma detect_spec_witness :
  let st' := PeakDetect.detect (fun x : spec_float => x) 10 Examples.peak_scale
               Examples.spike 0 201 Examples.peak_state in
  let narrow x :=
    (0 + 10 <=? x) && (x <? 0 + (201 - 10))
    && PeakDetect.narrow_test 10 Examples.spike x in
  (forall x, narrow x = true ->
     PeakDetect.m_Peaks st' x
     = Some (PeakDetect.ordinate (fun x : spec_float => x) Examples.peak_scale
               (Examples.spike x))) /\
  (forall x y, PeakDetect.m_Peaks st' x = Some y -> narrow x = false ->
     0 + PeakDetect.pw2 10 <= x < 0 + (201 - PeakDetect.pw2 10) /\
     PeakDetect.wide_test 10 (PeakDetect.m_peakSmoothBuf st') x = true /\
     (forall j, - (10) <= j <= 10 -> narrow (x + j) = false)) /\
  (forall x, 0 + 10 <= x < 0 + (201 - 10) ->
     PeakDetect.m_peakSmoothBuf st' x = PeakDetect.narrow_avg 10 Examples.spike x).
Proof.
  apply (@detect_spec spec_float binary32 (fun x : spec_float => x) 10
           Examples.peak_scale Examples.spike 0 201 Examples.peak_state). lia.
Defined.

Lemma waterfall_auto_row_witness :
  let st' := Waterfall.step Examples.log10f_at_0_1 16384 Examples.wf_settings_auto
               true 0 4 50 Examples.wf_last Examples.wf_state in
  Waterfall.top_row st' 1 =
    Colormap.rgb
      (Waterfall.m_ColorTbl Examples.wf_settings_auto
         (255 - Waterfall.cidx Examples.log10f_at_0_1 Examples.wf_settings_auto
                  (Waterfall.dataSource Examples.wf_settings_auto
                     Examples.wf_last 1))) /\
  Waterfall.m_wfbuf st' = Waterfall.m_wfbuf Examples.wf_state /\
  Waterfall.wf_count st' = Waterfall.wf_count Examples.wf_state + 1.
Proof.
  apply (@waterfall_auto_row Examples.log10f_at_0_1 16384
           Examples.wf_settings_auto 0 4 50 Examples.wf_last Examples.wf_state 1).
  - vm_compute. reflexivity.
  - vm_compute. reflexivity.
  - lia.
Defined.

Lemma waterfall_avg_row_witness :
  let st' := Waterfall.run Examples.log10f_at_0_1 16384 Examples.wf_settings_avg 0 4
               (Examples.wf_first ++ [(120, Examples.wf_last)]) Examples.wf_state in
  let sum := Waterfall.folded_sum Examples.wf_settings_avg
               (Examples.wf_first ++ [(120, Examples.wf_last)])
               (Waterfall.m_wfbuf Examples.wf_state 1) 1 in
  let count := Waterfall.wf_avg_count Examples.wf_state
               + Z.of_nat (List.length Examples.wf_first) + 1 in
  Waterfall.top_row st' 1 =
    Colormap.rgb
      (Waterfall.m_ColorTbl Examples.wf_settings_avg
         (255 - Waterfall.cidx Examples.log10f_at_0_1 Examples.wf_settings_avg
                  (sum * (of_int 1 / of_int count))%fl)) /\
  (forall j, 0 <= j < 16384 -> Waterfall.m_wfbuf st' j = of_int 0) /\
  Waterfall.wf_avg_count st' = 0.
Proof.
  apply (@waterfall_avg_row Examples.log10f_at_0_1 16384 Examples.wf_settings_avg
           0 4 Examples.wf_first 120 Examples.wf_last Examples.wf_state 1).
  - vm_compute. reflexivity.
  - vm_compute. reflexivity.
  - vm_compute. reflexivity.
  - vm_compute. reflexivity.
  - lia.
  - lia.
Defined.

Lemma waterfall_rows_shift_witness :
  let st' := Waterfall.step Examples.log10f_at_0_1 16384 Examples.wf_settings
               true 0 4 120 Examples.wf_last Examples.wf_state in
  List.length (Waterfall.m_WaterfallImage st')
    = List.length (Waterfall.m_WaterfallImage Examples.wf_state) /\
  (forall k,
     (Datatypes.S k < List.length (Waterfall.m_WaterfallImage Examples.wf_state))%nat ->
     nth (Datatypes.S k) (Waterfall.m_WaterfallImage st') (fun _ => 0)
     = nth k (Waterfall.m_WaterfallImage Examples.wf_state) (fun _ => 0)) /\
  (forall ix, ix < 0 \/ 4 <= ix -> Waterfall.top_row st' ix = 0).
Proof.
  apply (@waterfall_rows_shift Examples.log10f_at_0_1 16384 Examples.wf_settings
           0 4 120 Examples.wf_last Examples.wf_state).
  - vm_compute. reflexivity.
  - discriminate.
Defined.

Lemma ordinate_within_plot_witness :
  let raw := (PeakDetect.panddBGainFactor Examples.peak_scale
              * (PeakDetect.m_PandMaxdB Examples.peak_scale
                 - of_int 10 * Examples.log10f_at_0_1 (B32.of_Z 1)))%fl in
  let h := (PeakDetect.plotHeight Examples.peak_scale - of_int 0)%fl in
  let y := PeakDetect.ordinate Examples.log10f_at_0_1 Examples.peak_scale
             (B32.of_Z 1) in
  (is_nan raw = false -> (of_int 0 <=? y)%fl = true /\ (y <=? h)%fl = true) /\
  (is_nan raw = true -> is_nan y = true).
Proof.
  apply (@ordinate_within_plot Examples.log10f_at_0_1 Examples.peak_scale
           (B32.of_Z 1)).
  vm_compute. reflexivity.
Defined.

Lemma gqrx_scheme_valid_witness :
  let c := Colormap.setWfColormap (fun _ _ => 0) (fun _ _ => 0)
             (fun _ _ => B32.of_Z 0) (fun _ _ => B32.of_Z 0)
             (fun _ _ => B32.of_Z 0) (fun _ _ => B32.of_Z 0)
             (fun _ => Colormap.Invalid) "gqrx" 100 in
  (exists r g b,
     c = Colormap.Rgb r g b /\ 0 <= r <= 255 /\ 0 <= g <= 255 /\ 0 <= b <= 255) /\
  (100 < 20 -> c = Colormap.Rgb 0 0 0) /\
  (100 = 255 -> c = Colormap.Rgb 255 255 255).
Proof.
  apply (@gqrx_scheme_valid (fun _ _ => 0) (fun _ _ => 0)
           (fun _ _ => B32.of_Z 0) (fun _ _ => B32.of_Z 0)
           (fun _ _ => B32.of_Z 0) (fun _ _ => B32.of_Z 0)
           (fun _ => Colormap.Invalid) 100). lia.
Defined.

